(** * MiniMax provider adapter: request, response and stream adapters

    Shallow embedding of
    [platform/backend/src/routes/proxy/adapterV2/minimax.ts] and of the
    second copy of the adapter kept in the repository ([unnamed/part_004]),
    together with the data shapes of
    [platform/backend/src/types/llm-providers/minimax/]. *)

From Stdlib Require Import Ascii.
From stdpp Require Import gmap strings list pretty.

Set Warnings "-register-all".

(** ** JavaScript values *)

(** Plain data values as they reach the adapter at run time.  Numbers are
    restricted to integers; [JError m] is an instance of [Error] whose
    [message] is [m]; objects list their own properties in insertion
    order.  Functions, symbols, getters and prototypes other than the
    built-in ones are outside this universe. *)
Inductive JsValue :=
| JUndefined
| JNull
| JBool (b : bool)
| JNum (n : Z)
| JStr (s : string)
| JArr (xs : list JsValue)
| JObj (fields : list (string * JsValue))
| JError (message : string).

(** Outcome of a call that may raise. *)
Inductive JsResult (A : Type) :=
| Returns (a : A)
| Throws.
Arguments Returns {A} a.
Arguments Throws {A}.

(** [if (v)] *)
Definition truthy (v : JsValue) : bool :=
  match v with
  | JUndefined | JNull => false
  | JBool b => b
  | JNum n => negb (n =? 0)%Z
  | JStr s => negb (String.eqb s "")
  | JArr _ | JObj _ | JError _ => true
  end.

(** The double quote character, and [s] between double quotes. *)
Definition DQ : ascii := ascii_of_nat 34.

Definition quoted (s : string) : string :=
  String DQ (s +:+ String DQ EmptyString).

(** [if (s)] for a value known to be a string. *)
Definition truthyStr (s : string) : bool := negb (String.eqb s "").

(** [if (o)] for an optional string: absent and empty are both falsy. *)
Definition truthyOptStr (o : option string) : bool :=
  match o with
  | Some s => truthyStr s
  | None => false
  end.

Fixpoint ownProperty (fields : list (string * JsValue)) (key : string)
  : option JsValue :=
  match fields with
  | [] => None
  | (k, v) :: rest => if String.eqb k key then Some v else ownProperty rest key
  end.

(** [v?.key] for the keys ["error"] and ["message"], which no built-in
    prototype other than [Error.prototype] defines. *)
Definition getProp (v : JsValue) (key : string) : JsValue :=
  match v with
  | JObj fields => default JUndefined (ownProperty fields key)
  | JError m => if String.eqb key "message" then JStr m else JUndefined
  | _ => JUndefined
  end.

(** [String(v)].  [None] is the [TypeError] raised when an object cannot be
    converted to a primitive: with no function values around, an own
    [toString] property shadows [Object.prototype.toString] with something
    that cannot be called, and [valueOf] does not yield a primitive. *)
Fixpoint js_String (v : JsValue) : option string :=
  match v with
  | JUndefined => Some "undefined"
  | JNull => Some "null"
  | JBool true => Some "true"
  | JBool false => Some "false"
  | JNum n => Some (pretty n)
  | JStr s => Some s
  | JArr xs =>
      (fix join (xs : list JsValue) : option string :=
         match xs with
         | [] => Some ""
         | x :: rest =>
             match
               match x with
               | JUndefined | JNull => Some ""
               | _ => js_String x
               end
             with
             | None => None
             | Some sx =>
                 if bool_decide (rest = [])
                 then Some sx
                 else (λ sr, sx +:+ "," +:+ sr) <$> join rest
             end
         end) xs
  | JObj fields =>
      match ownProperty fields "toString" with
      | Some _ => None
      | None => Some "[object Object]"
      end
  | JError m =>
      Some (if String.eqb m "" then "Error" else "Error: " +:+ m)
  end.

(** lodash [get(v, "error.message")]: a property literally named
    ["error.message"] is read directly, otherwise the path is walked and the
    walk stops with [undefined] at the first [null] or [undefined]. *)
Definition lodash_get_error_message (v : JsValue) : JsValue :=
  match v with
  | JObj fields =>
      match ownProperty fields "error.message" with
      | Some direct => direct
      | None => getProp (getProp v "error") "message"
      end
  | _ => getProp (getProp v "error") "message"
  end.

(** ** Messages ([types/llm-providers/minimax/messages.ts]) *)

(** [ToolCallSchema]: a union of function and custom tool calls. *)
Inductive ToolCall :=
| FunctionToolCall (id : string) (arguments : string) (name : string)
| CustomToolCall (id : string) (input : string) (name : string).

Definition toolCall_id (tc : ToolCall) : string :=
  match tc with
  | FunctionToolCall id _ _ => id
  | CustomToolCall id _ _ => id
  end.

Inductive ContentPart :=
| ContentPartText (text : string)
| ContentPartRefusal (refusal : string)
| ContentPartImage (url : string) (detail : string)
| ContentPartInputAudio (data : string) (format : string)
| ContentPartFile (file_data file_id filename : option string).

(** [z.union([z.string(), z.array(...)])] for what a parsed request holds.
    [ContentInherited name] is the member [name] of [Object.prototype] (a
    function, or the prototype itself): no parsed request has it, but
    [applyUpdates] can write one into a tool message. *)
Inductive MessageContent :=
| ContentString (s : string)
| ContentParts (parts : list ContentPart)
| ContentInherited (member : string).

Record AssistantMessageParam := {
  asst_audio : option (option string);
  asst_content : option (option MessageContent);
  asst_function_call : option (option (string * string));
  asst_name : option string;
  asst_refusal : option (option string);
  asst_tool_calls : option (list ToolCall);
}.

(** [MessageParamSchema], one constructor per role. *)
Inductive Message :=
| DeveloperMessage (content : MessageContent) (name : option string)
| SystemMessage (content : MessageContent) (name : option string)
| UserMessage (content : MessageContent) (name : option string)
| AssistantMessage (a : AssistantMessageParam)
| ToolMessage (content : MessageContent) (tool_call_id : string)
| FunctionMessage (content : option string) (name : string).

Inductive Role :=
| developer | system | user | assistant | tool | function.

Definition role (m : Message) : Role :=
  match m with
  | DeveloperMessage _ _ => developer
  | SystemMessage _ _ => system
  | UserMessage _ _ => user
  | AssistantMessage _ => assistant
  | ToolMessage _ _ => tool
  | FunctionMessage _ _ => function
  end.

(** ** Requests and responses ([types/llm-providers/minimax/api.ts]) *)

Inductive Tool :=
| FunctionTool (name : string) (description : option string)
    (parameters : option JsValue) (strict : option (option bool))
| CustomTool (name : string) (description : option string)
    (format : option JsValue).

(** An optional property is [None] both when it is absent and when it is
    [undefined]; the two are not told apart by a deep comparison. *)
Record MiniMaxRequest := {
  req_model : string;
  req_messages : list Message;
  req_tools : option (list Tool);
  req_tool_choice : option JsValue;
  req_temperature : option JsValue;
  req_max_tokens : option JsValue;
  req_stream : option (option bool);
  req_reasoning_split : option bool;
}.

Record Usage := {
  completion_tokens : Z;
  prompt_tokens : Z;
  total_tokens : Z;
}.

Record ResponseMessage := {
  rm_content : option string;
  rm_refusal : option (option string);
  rm_role : string;
  rm_tool_calls : option (list ToolCall);
  rm_reasoning_details : option (list string);
}.

Record Choice := {
  choice_finish_reason : string;
  choice_index : Z;
  choice_logprobs : JsValue;
  choice_message : ResponseMessage;
}.

Record MiniMaxResponse := {
  resp_id : string;
  resp_choices : list Choice;
  resp_created : Z;
  resp_model : string;
  resp_object : string;
  resp_usage : option Usage;
}.

(** ** Stream chunks (OpenAI [ChatCompletionChunk] with [reasoning_details]) *)

Record ToolCallFunctionDelta := {
  tcf_name : option string;
  tcf_arguments : option string;
}.

Record ToolCallDelta := {
  tcd_index : Z;
  tcd_id : option string;
  tcd_type : option string;
  tcd_function : option ToolCallFunctionDelta;
}.

Record ReasoningDetail := {
  rd_type : option string;
  rd_text : option string;
  rd_id : option string;
  rd_index : option Z;
}.

Record Delta := {
  delta_role : option string;
  delta_content : option string;
  delta_reasoning_details : option (list ReasoningDetail);
  delta_tool_calls : option (list ToolCallDelta);
}.

Record ChunkChoice := {
  cc_index : Z;
  cc_delta : Delta;
  cc_finish_reason : option string;
}.

(** The adapter reads the usage counters with a [?? 0] default, so they are
    optional here although the provider's schema requires them. *)
Record ChunkUsage := {
  cu_prompt_tokens : option Z;
  cu_completion_tokens : option Z;
  cu_total_tokens : option Z;
}.

Record MiniMaxStreamChunk := {
  chunk_id : string;
  chunk_object : string;
  chunk_created : Z;
  chunk_model : string;
  chunk_choices : list ChunkChoice;
  chunk_usage : option ChunkUsage;
}.

(** ** Canonical model ([@/types]) *)

(** [content: unknown] of a tool result: the parsed JSON value, or the
    message content as it was. *)
Inductive ToolResultContent :=
| ParsedContent (v : JsValue)
| RawContent (c : MessageContent).

Record CommonToolResult := {
  ctr_id : string;
  ctr_name : string;
  ctr_content : ToolResultContent;
  ctr_isError : bool;
}.

Record CommonMessage := {
  cm_role : Role;
  cm_toolCalls : option (list CommonToolResult);
}.

Record CommonToolCall := {
  ctc_id : string;
  ctc_name : string;
  ctc_arguments : JsValue;
}.

Record UsageView := {
  inputTokens : Z;
  outputTokens : Z;
}.

Record ToonCompressionResult (Cost : Type) := {
  tokensBefore : option Z;
  tokensAfter : option Z;
  costSavings : option Cost;
}.
Arguments tokensBefore {Cost} _.
Arguments tokensAfter {Cost} _.
Arguments costSavings {Cost} _.

Record ToolCallAccumulator := {
  acc_id : string;
  acc_name : string;
  acc_arguments : string;
}.

Record Timing := {
  startTime : Z;
  firstChunkTime : option Z;
}.

Record StreamAccumulatorState := {
  responseId : string;
  model : string;
  text : string;
  reasoning : option string;
  toolCalls : list ToolCallAccumulator;
  rawToolCallEvents : list MiniMaxStreamChunk;
  usage : option UsageView;
  stopReason : option string;
  timing : Timing;
}.

(** ** Collaborators outside the adapter *)

(** Library and repository functions the adapter calls but does not define.
    [None] stands for a raised exception wherever the call sits inside a
    [try] block of the adapter.  [findByModel] is the price lookup: it
    rejects ([Throws]), finds no row, or finds a row, of which only
    [pricePerMillionInput] is kept.  [tokenSavings n p] stands for the
    double-precision product [n * (Number(p) / 1000000)].  [countTokens s]
    is [tokenizer.countTokens([{ role: "user", content: s }])].
    [unwrapToolContent] lives in [../utils/unwrap-tool-content]. *)
Record Externals (Cost : Type) := {
  JSON_parse : string → option JsValue;
  JSON_stringify : MiniMaxStreamChunk → string;
  unwrapToolContent : string → option string;
  toonEncode : JsValue → option string;
  countTokens : string → option Z;
  findByModel : string → JsResult (option string);
  tokenSavings : Z → string → Cost;
}.
Arguments JSON_parse {Cost} _ _.
Arguments JSON_stringify {Cost} _ _.
Arguments unwrapToolContent {Cost} _ _.
Arguments toonEncode {Cost} _ _.
Arguments countTokens {Cost} _ _.
Arguments findByModel {Cost} _ _.
Arguments tokenSavings {Cost} _ _ _.

(** The repository holds two copies of the adapter.  They agree on every
    function except [toProviderRequest], the reasoning branch of
    [processChunk], [toProviderResponse], [extractErrorMessage] and, in the
    factory, [createClient], [execute] and [executeStream]; those take the
    copy as an argument. *)
Inductive SourceFile :=
| AdapterV2   (**r [routes/proxy/adapterV2/minimax.ts] *)
| Part004.    (**r [unnamed/part_004] *)

(** ** Plain objects used as dictionaries *)

(** [toolResultUpdates] is a plain object ([{}]) with string values: its own
    properties are a [gmap], and it inherits the members of
    [Object.prototype]. *)
Definition objectPrototypeMembers : list string :=
  [ "constructor"; "__defineGetter__"; "__defineSetter__"; "hasOwnProperty";
    "__lookupGetter__"; "__lookupSetter__"; "isPrototypeOf";
    "propertyIsEnumerable"; "toString"; "valueOf"; "__proto__";
    "toLocaleString" ].

(** What [o[key]] reads: an own string, else an inherited member (a
    function, or the prototype itself under [__proto__]; all of them
    truthy), else [undefined]. *)
Inductive PropertyValue :=
| OwnValue (s : string)
| InheritedMember (name : string)
| NoProperty.

Definition getProperty (o : gmap string string) (key : string)
  : PropertyValue :=
  match o !! key with
  | Some s => OwnValue s
  | None =>
      if bool_decide (key ∈ objectPrototypeMembers)
      then InheritedMember key else NoProperty
  end.

(** [o[key] = value] for a string [value]: an own property is created or
    overwritten, except under the key [__proto__] of an object with no own
    property of that name, where the inherited setter runs and ignores a
    string. *)
Definition setProperty (o : gmap string string) (key value : string)
  : gmap string string :=
  if bool_decide (key = "__proto__" ∧ o !! key = None) then o
  else <[key := value]> o.

(** [Object.assign(target, source)]: every own property of [source] is
    assigned to [target] in turn. *)
Definition Object_assign (target source : gmap string string)
  : gmap string string :=
  map_fold (λ key value o, setProperty o key value) target source.

(** ** Request adapter *)

Record MiniMaxRequestAdapter := {
  request : MiniMaxRequest;
  modifiedModel : option string;
  toolResultUpdates : gmap string string;
}.

Definition createRequestAdapter (r : MiniMaxRequest) : MiniMaxRequestAdapter :=
  {| request := r; modifiedModel := None; toolResultUpdates := ∅ |}.

Definition getModel (a : MiniMaxRequestAdapter) : string :=
  default (req_model (request a)) (modifiedModel a).

Definition isStreaming (a : MiniMaxRequestAdapter) : bool :=
  match req_stream (request a) with
  | Some (Some true) => true
  | _ => false
  end.

Definition getProviderMessages (a : MiniMaxRequestAdapter) : list Message :=
  req_messages (request a).

Definition getOriginalRequest (a : MiniMaxRequestAdapter) : MiniMaxRequest :=
  request a.

Definition setModel (m : string) (a : MiniMaxRequestAdapter)
  : MiniMaxRequestAdapter :=
  {| request := request a;
     modifiedModel := Some m;
     toolResultUpdates := toolResultUpdates a |}.

Definition updateToolResult (toolCallId newContent : string)
    (a : MiniMaxRequestAdapter) : MiniMaxRequestAdapter :=
  {| request := request a;
     modifiedModel := modifiedModel a;
     toolResultUpdates :=
       setProperty (toolResultUpdates a) toolCallId newContent |}.

(** The inner [for (const toolCall of message.tool_calls)] loop: the first
    call whose id is the target decides. *)
Fixpoint findToolNameInCalls (tool_calls : list ToolCall) (toolCallId : string)
  : option string :=
  match tool_calls with
  | [] => None
  | toolCall :: rest =>
      if String.eqb (toolCall_id toolCall) toolCallId
      then match toolCall with
           | FunctionToolCall _ _ name => Some name
           | CustomToolCall _ _ name => Some name
           end
      else findToolNameInCalls rest toolCallId
  end.

(** The outer loop [for (let i = messages.length - 1; i >= 0; i--)], with
    [n] the number of indices still to visit: index [n - 1] is next. *)
Fixpoint findToolNameFrom (messages : list Message) (toolCallId : string)
    (n : nat) : option string :=
  match n with
  | O => None
  | S i =>
      match messages !! i with
      | Some (AssistantMessage a) =>
          match asst_tool_calls a with
          | Some tool_calls =>
              match findToolNameInCalls tool_calls toolCallId with
              | Some name => Some name
              | None => findToolNameFrom messages toolCallId i
              end
          | None => findToolNameFrom messages toolCallId i
          end
      | _ => findToolNameFrom messages toolCallId i
      end
  end.

Definition findToolNameInMessages (messages : list Message)
    (toolCallId : string) : option string :=
  findToolNameFrom messages toolCallId (length messages).

Section WithExternals.
Context {Cost : Type} (E : Externals Cost).

Definition getToolResults (a : MiniMaxRequestAdapter)
  : list CommonToolResult :=
  let messages := req_messages (request a) in
  omap (λ message,
    match message with
    | ToolMessage content tool_call_id =>
        let toolName := findToolNameInMessages messages tool_call_id in
        let content' :=
          match content with
          | ContentString s =>
              match JSON_parse E s with
              | Some parsed => ParsedContent parsed
              | None => RawContent content
              end
          | ContentParts _ | ContentInherited _ => RawContent content
          end in
        Some {| ctr_id := tool_call_id;
                ctr_name := default "unknown" toolName;
                ctr_content := content';
                ctr_isError := false |}
    | _ => None
    end) messages.

Definition toCommonFormat (messages : list Message) : list CommonMessage :=
  map (λ message,
    match message with
    | ToolMessage content tool_call_id =>
        match findToolNameInMessages messages tool_call_id with
        | Some toolName =>
            if truthyStr toolName then
              let toolResult :=
                match content with
                | ContentString s =>
                    match JSON_parse E s with
                    | Some parsed => ParsedContent parsed
                    | None => RawContent content
                    end
                | ContentParts _ | ContentInherited _ => RawContent content
                end in
              {| cm_role := role message;
                 cm_toolCalls :=
                   Some [ {| ctr_id := tool_call_id;
                             ctr_name := toolName;
                             ctr_content := toolResult;
                             ctr_isError := false |} ] |}
            else {| cm_role := role message; cm_toolCalls := None |}
        | None => {| cm_role := role message; cm_toolCalls := None |}
        end
    | _ => {| cm_role := role message; cm_toolCalls := None |}
    end) messages.

Definition getMessages (a : MiniMaxRequestAdapter) : list CommonMessage :=
  toCommonFormat (req_messages (request a)).

End WithExternals.

(** [s.includes(sub)] *)
Fixpoint includes (s sub : string) : bool :=
  String.prefix sub s ||
  match s with
  | EmptyString => false
  | String _ rest => includes rest sub
  end.

(** [updates[message.tool_call_id]] is read from a plain object, so an id
    that names a member of [Object.prototype] and has no staged update
    reads that member, which is truthy and becomes the content. *)
Definition applyUpdates (messages : list Message) (updates : gmap string string)
  : list Message :=
  if bool_decide (size updates = 0%nat) then messages
  else
    map (λ message,
      match message with
      | ToolMessage content tool_call_id =>
          match getProperty updates tool_call_id with
          | OwnValue newContent =>
              if truthyStr newContent
              then ToolMessage (ContentString newContent) tool_call_id
              else message
          | InheritedMember name =>
              ToolMessage (ContentInherited name) tool_call_id
          | NoProperty => message
          end
      | _ => message
      end) messages.

Definition toProviderRequest (src : SourceFile) (a : MiniMaxRequestAdapter)
  : MiniMaxRequest :=
  let messages :=
    if bool_decide (0 < size (toolResultUpdates a))%nat
    then applyUpdates (req_messages (request a)) (toolResultUpdates a)
    else req_messages (request a) in
  {| req_model := getModel a;
     req_messages := messages;
     req_tools := req_tools (request a);
     req_tool_choice := req_tool_choice (request a);
     req_temperature := req_temperature (request a);
     req_max_tokens := req_max_tokens (request a);
     req_stream := req_stream (request a);
     req_reasoning_split :=
       match src with
       | AdapterV2 => req_reasoning_split (request a)
       | Part004 =>
           if includes (getModel a) "MiniMax-M2" then Some true
           else req_reasoning_split (request a)
       end |}.

(** ** TOON compression *)

(** The three counters [convertToolResultsToToon] updates from inside the
    callback of [messages.map]. *)
Record ToonCounters := {
  toolResultCount : nat;
  totalTokensBefore : Z;
  totalTokensAfter : Z;
}.

Record CompressionStats (Cost : Type) := {
  toonTokensBefore : option Z;
  toonTokensAfter : option Z;
  toonCostSavings : option Cost;
}.
Arguments toonTokensBefore {Cost} _.
Arguments toonTokensAfter {Cost} _.
Arguments toonCostSavings {Cost} _.

Section Compression.
Context {Cost : Type} (E : Externals Cost).

(** The body of the [try] block up to the point where the counters are
    updated; [None] when any call in it raises. *)
Definition tryCompress (content : string) : option (string * Z * Z) :=
  unwrapped ← unwrapToolContent E content;
  parsed ← JSON_parse E unwrapped;
  compressed ← toonEncode E parsed;
  tokensBefore ← countTokens E unwrapped;
  tokensAfter ← countTokens E compressed;
  Some (compressed, tokensBefore, tokensAfter).

(** One call of the [messages.map] callback. *)
Definition compressMessage (message : Message) (c : ToonCounters)
  : Message * ToonCounters :=
  match message with
  | ToolMessage (ContentString s) tool_call_id =>
      match tryCompress s with
      | Some (compressed, tokensBefore, tokensAfter) =>
          (ToolMessage (ContentString compressed) tool_call_id,
           {| toolResultCount := S (toolResultCount c);
              totalTokensBefore := totalTokensBefore c + tokensBefore;
              totalTokensAfter := totalTokensAfter c + tokensAfter |})
      | None => (message, c)
      end
  | _ => (message, c)
  end.

Fixpoint compressMessages (messages : list Message) (c : ToonCounters)
  : list Message * ToonCounters :=
  match messages with
  | [] => ([], c)
  | message :: rest =>
      let '(message', c1) := compressMessage message c in
      let '(rest', c2) := compressMessages rest c1 in
      (message' :: rest', c2)
  end.

(** [Throws] is a rejected promise: only the price lookup can reject. *)
Definition convertToolResultsToToon (messages : list Message) (model : string)
  : JsResult (list Message * CompressionStats Cost) :=
  let '(result, c) :=
    compressMessages messages
      {| toolResultCount := 0; totalTokensBefore := 0;
         totalTokensAfter := 0 |} in
  let stats (savings : option Cost) :=
    {| toonTokensBefore :=
         if bool_decide (0 < toolResultCount c)%nat
         then Some (totalTokensBefore c) else None;
       toonTokensAfter :=
         if bool_decide (0 < toolResultCount c)%nat
         then Some (totalTokensAfter c) else None;
       toonCostSavings := savings |} in
  if bool_decide (0 < toolResultCount c)%nat then
    let tokensSaved := (totalTokensBefore c - totalTokensAfter c)%Z in
    if bool_decide (0 < tokensSaved)%Z then
      match findByModel E model with
      | Throws => Throws
      | Returns (Some pricePerMillionInput) =>
          Returns (result,
                   stats (Some (tokenSavings E tokensSaved
                                  pricePerMillionInput)))
      | Returns None => Returns (result, stats None)
      end
    else Returns (result, stats None)
  else Returns (result, stats None).

Definition applyToonCompression (model : string) (a : MiniMaxRequestAdapter)
  : JsResult (MiniMaxRequestAdapter * ToonCompressionResult Cost) :=
  match convertToolResultsToToon (req_messages (request a)) model with
  | Throws => Throws
  | Returns (compressedMessages, stats) =>
      Returns
        ({| request :=
              {| req_model := req_model (request a);
                 req_messages := compressedMessages;
                 req_tools := req_tools (request a);
                 req_tool_choice := req_tool_choice (request a);
                 req_temperature := req_temperature (request a);
                 req_max_tokens := req_max_tokens (request a);
                 req_stream := req_stream (request a);
                 req_reasoning_split := req_reasoning_split (request a) |};
            modifiedModel := modifiedModel a;
            toolResultUpdates := toolResultUpdates a |},
         {| tokensBefore := toonTokensBefore stats;
            tokensAfter := toonTokensAfter stats;
            costSavings := toonCostSavings stats |})
  end.

End Compression.

(** ** Response adapter *)

Section ResponseAdapter.
Context {Cost : Type} (E : Externals Cost).

Definition getText (response : MiniMaxResponse) : string :=
  match resp_choices response !! 0%nat with
  | None => ""
  | Some choice => default "" (rm_content (choice_message choice))
  end.

(** With tool calls typed by [ToolCallSchema] the last branch of the
    source (name ["unknown"]) is never taken. *)
Definition getToolCalls (response : MiniMaxResponse) : list CommonToolCall :=
  match resp_choices response !! 0%nat with
  | None => []
  | Some choice =>
      match rm_tool_calls (choice_message choice) with
      | None => []
      | Some tool_calls =>
          map (λ toolCall,
            match toolCall with
            | FunctionToolCall id arguments name =>
                {| ctc_id := id;
                   ctc_name := name;
                   ctc_arguments :=
                     match JSON_parse E arguments with
                     | Some args => args
                     | None => JObj []
                     end |}
            | CustomToolCall id input name =>
                {| ctc_id := id;
                   ctc_name := name;
                   ctc_arguments :=
                     match JSON_parse E input with
                     | Some args => args
                     | None => JObj []
                     end |}
            end) tool_calls
      end
  end.

Definition hasToolCalls (response : MiniMaxResponse) : bool :=
  match resp_choices response !! 0%nat with
  | None => false
  | Some choice =>
      match rm_tool_calls (choice_message choice) with
      | None => false
      | Some tool_calls => bool_decide (0 < length tool_calls)%nat
      end
  end.

Definition getUsage (response : MiniMaxResponse) : UsageView :=
  {| inputTokens :=
       match resp_usage response with
       | Some u => prompt_tokens u
       | None => 0
       end;
     outputTokens :=
       match resp_usage response with
       | Some u => completion_tokens u
       | None => 0
       end |}.

End ResponseAdapter.

(** ** Stream adapter *)

Record ChunkProcessingResult := {
  sseData : option string;
  isToolCallChunk : bool;
  isFinal : bool;
}.

Record MiniMaxStreamAdapter := {
  state : StreamAccumulatorState;
  currentToolCallIndices : gmap Z nat;
}.

(** [now] is the reading of [Date.now()] (milliseconds) taken by the call. *)
Definition createStreamAdapter (now : Z) : MiniMaxStreamAdapter :=
  {| state :=
       {| responseId := ""; model := ""; text := ""; reasoning := None;
          toolCalls := []; rawToolCallEvents := []; usage := None;
          stopReason := None;
          timing := {| startTime := now; firstChunkTime := None |} |};
     currentToolCallIndices := ∅ |}.

(** Field assignments on [this.state]. *)
Definition set_timing (t : Timing) (s : StreamAccumulatorState) :=
  {| responseId := responseId s; model := model s; text := text s;
     reasoning := reasoning s; toolCalls := toolCalls s;
     rawToolCallEvents := rawToolCallEvents s; usage := usage s;
     stopReason := stopReason s; timing := t |}.

Definition set_responseId_model (i m : string) (s : StreamAccumulatorState) :=
  {| responseId := i; model := m; text := text s;
     reasoning := reasoning s; toolCalls := toolCalls s;
     rawToolCallEvents := rawToolCallEvents s; usage := usage s;
     stopReason := stopReason s; timing := timing s |}.

Definition set_usage (u : option UsageView) (s : StreamAccumulatorState) :=
  {| responseId := responseId s; model := model s; text := text s;
     reasoning := reasoning s; toolCalls := toolCalls s;
     rawToolCallEvents := rawToolCallEvents s; usage := u;
     stopReason := stopReason s; timing := timing s |}.

Definition set_text (t : string) (s : StreamAccumulatorState) :=
  {| responseId := responseId s; model := model s; text := t;
     reasoning := reasoning s; toolCalls := toolCalls s;
     rawToolCallEvents := rawToolCallEvents s; usage := usage s;
     stopReason := stopReason s; timing := timing s |}.

Definition set_reasoning (r : option string) (s : StreamAccumulatorState) :=
  {| responseId := responseId s; model := model s; text := text s;
     reasoning := r; toolCalls := toolCalls s;
     rawToolCallEvents := rawToolCallEvents s; usage := usage s;
     stopReason := stopReason s; timing := timing s |}.

Definition set_toolCalls (tcs : list ToolCallAccumulator)
    (s : StreamAccumulatorState) :=
  {| responseId := responseId s; model := model s; text := text s;
     reasoning := reasoning s; toolCalls := tcs;
     rawToolCallEvents := rawToolCallEvents s; usage := usage s;
     stopReason := stopReason s; timing := timing s |}.

Definition set_rawToolCallEvents (evs : list MiniMaxStreamChunk)
    (s : StreamAccumulatorState) :=
  {| responseId := responseId s; model := model s; text := text s;
     reasoning := reasoning s; toolCalls := toolCalls s;
     rawToolCallEvents := evs; usage := usage s;
     stopReason := stopReason s; timing := timing s |}.

Definition set_stopReason (r : option string) (s : StreamAccumulatorState) :=
  {| responseId := responseId s; model := model s; text := text s;
     reasoning := reasoning s; toolCalls := toolCalls s;
     rawToolCallEvents := rawToolCallEvents s; usage := usage s;
     stopReason := r; timing := timing s |}.

(** The line feed of [`\n`]. *)
Definition LF : string := String (Ascii.ascii_of_nat 10) "".

(** The three guarded assignments on the accumulator entry. *)
Definition applyToolCallDelta (toolCallDelta : ToolCallDelta)
    (toolCall : ToolCallAccumulator) : ToolCallAccumulator :=
  {| acc_id :=
       match tcd_id toolCallDelta with
       | Some i => if truthyStr i then i else acc_id toolCall
       | None => acc_id toolCall
       end;
     acc_name :=
       match tcd_function toolCallDelta ≫= tcf_name with
       | Some n => if truthyStr n then n else acc_name toolCall
       | None => acc_name toolCall
       end;
     acc_arguments :=
       match tcd_function toolCallDelta ≫= tcf_arguments with
       | Some args =>
           if truthyStr args then acc_arguments toolCall +:+ args
           else acc_arguments toolCall
       | None => acc_arguments toolCall
       end |}.

(** One iteration of [for (const toolCallDelta of delta.tool_calls)].  The
    accumulator entry always exists when it is read: every index stored in
    [currentToolCallIndices] is a position of [state.toolCalls] (lemma
    [indices_in_range] below), so the update by position is never out of
    range. *)
Definition processToolCallDelta (a : MiniMaxStreamAdapter)
    (toolCallDelta : ToolCallDelta) : MiniMaxStreamAdapter :=
  let index := tcd_index toolCallDelta in
  let a1 :=
    match currentToolCallIndices a !! index with
    | Some _ => a
    | None =>
        {| state :=
             set_toolCalls
               (toolCalls (state a) ++
                [ {| acc_id := default "" (tcd_id toolCallDelta);
                     acc_name :=
                       default "" (tcd_function toolCallDelta ≫= tcf_name);
                     acc_arguments := "" |} ])
               (state a);
           currentToolCallIndices :=
             <[index := length (toolCalls (state a))]>
               (currentToolCallIndices a) |}
    end in
  match currentToolCallIndices a1 !! index with
  | None => a1
  | Some toolCallIndex =>
      {| state :=
           set_toolCalls
             (alter (applyToolCallDelta toolCallDelta) toolCallIndex
                (toolCalls (state a1)))
             (state a1);
         currentToolCallIndices := currentToolCallIndices a1 |}
  end.

Definition hasUsage (s : StreamAccumulatorState) : bool :=
  match usage s with
  | Some _ => true
  | None => false
  end.

Section StreamAdapter.
Context {Cost : Type} (E : Externals Cost).

Definition sseFrame (chunk : MiniMaxStreamChunk) : string :=
  "data: " +:+ JSON_stringify E chunk +:+ LF +:+ LF.

(** The [if (delta.reasoning_details)] block, which differs between the
    two copies: the first only forwards the chunk, the second also
    accumulates the reasoning text. *)
Definition handleReasoning (src : SourceFile) (chunk : MiniMaxStreamChunk)
    (delta : Delta) (acc : StreamAccumulatorState * option string)
  : StreamAccumulatorState * option string :=
  match delta_reasoning_details delta with
  | None => acc
  | Some details =>
      match src with
      | AdapterV2 => (acc.1, Some (sseFrame chunk))
      | Part004 =>
          foldl (λ (acc : StreamAccumulatorState * option string) detailed,
            match rd_text detailed with
            | Some t =>
                if truthyStr t then
                  (set_reasoning
                     (Some ((match reasoning acc.1 with
                             | Some r => r
                             | None => ""
                             end) +:+ t)) acc.1,
                   if truthyOptStr acc.2 then acc.2
                   else Some (sseFrame chunk))
                else acc
            | None => acc
            end) acc details
      end
  end.

Definition processChunk (src : SourceFile) (now : Z)
    (a : MiniMaxStreamAdapter) (chunk : MiniMaxStreamChunk)
  : MiniMaxStreamAdapter * ChunkProcessingResult :=
  let s1 :=
    match firstChunkTime (timing (state a)) with
    | None =>
        set_timing {| startTime := startTime (timing (state a));
                      firstChunkTime := Some now |} (state a)
    | Some _ => state a
    end in
  let s2 := set_responseId_model (chunk_id chunk) (chunk_model chunk) s1 in
  let s3 :=
    match chunk_usage chunk with
    | Some u =>
        set_usage
          (Some {| inputTokens := default 0%Z (cu_prompt_tokens u);
                   outputTokens := default 0%Z (cu_completion_tokens u) |})
          s2
    | None => s2
    end in
  match chunk_choices chunk !! 0%nat with
  | None =>
      ({| state := s3; currentToolCallIndices := currentToolCallIndices a |},
       {| sseData := None; isToolCallChunk := false;
          isFinal := hasUsage s3 |})
  | Some choice =>
      let delta := cc_delta choice in
      let '(s4, sse4) :=
        match delta_content delta with
        | Some content =>
            if truthyStr content
            then (set_text (text s3 +:+ content) s3, Some (sseFrame chunk))
            else (s3, None)
        | None => (s3, None)
        end in
      let '(s5, sse5) := handleReasoning src chunk delta (s4, sse4) in
      let a5 :=
        {| state := s5;
           currentToolCallIndices := currentToolCallIndices a |} in
      let '(a6, isToolCallChunk6) :=
        match delta_tool_calls delta with
        | Some tool_calls =>
            let a' := foldl processToolCallDelta a5 tool_calls in
            ({| state :=
                  set_rawToolCallEvents
                    (rawToolCallEvents (state a') ++ [chunk]) (state a');
                currentToolCallIndices := currentToolCallIndices a' |},
             true)
        | None => (a5, false)
        end in
      let s7 :=
        match cc_finish_reason choice with
        | Some r =>
            if truthyStr r then set_stopReason (Some r) (state a6)
            else state a6
        | None => state a6
        end in
      ({| state := s7; currentToolCallIndices := currentToolCallIndices a6 |},
       {| sseData := sse5; isToolCallChunk := isToolCallChunk6;
          isFinal := hasUsage s7 |})
  end.

(** Feeding a chunk sequence in order, each chunk paired with the
    [Date.now()] reading of its call.  Returns the final adapter and the
    results in arrival order. *)
Fixpoint processChunks (src : SourceFile) (a : MiniMaxStreamAdapter)
    (chunks : list (Z * MiniMaxStreamChunk))
  : MiniMaxStreamAdapter * list ChunkProcessingResult :=
  match chunks with
  | [] => (a, [])
  | (now, chunk) :: rest =>
      let '(a1, r) := processChunk src now a chunk in
      let '(a2, rs) := processChunks src a1 rest in
      (a2, r :: rs)
  end.

End StreamAdapter.

Definition toProviderResponse (src : SourceFile) (now : Z)
    (a : MiniMaxStreamAdapter) : MiniMaxResponse :=
  let s := state a in
  let tool_calls :=
    if bool_decide (0 < length (toolCalls s))%nat
    then Some (map (λ tc, FunctionToolCall (acc_id tc) (acc_arguments tc)
                            (acc_name tc)) (toolCalls s))
    else None in
  {| resp_id := responseId s;
     resp_object := "chat.completion";
     resp_created := (now `div` 1000)%Z;
     resp_model := model s;
     resp_choices :=
       [ {| choice_index := 0;
            choice_message :=
              {| rm_role := "assistant";
                 rm_content :=
                   match src with
                   | AdapterV2 =>
                       if truthyStr (text s) then Some (text s) else None
                   | Part004 =>
                       Some (if truthyStr (text s) then text s else "")
                   end;
                 rm_refusal := Some None;
                 rm_tool_calls := tool_calls;
                 rm_reasoning_details :=
                   match src with
                   | AdapterV2 => None
                   | Part004 =>
                       match reasoning s with
                       | Some r => if truthyStr r then Some [r] else None
                       | None => None
                       end
                   end |};
            choice_logprobs := JNull;
            choice_finish_reason := default "stop" (stopReason s) |} ];
     resp_usage :=
       Some {| prompt_tokens :=
                 match usage s with Some u => inputTokens u | None => 0 end;
               completion_tokens :=
                 match usage s with Some u => outputTokens u | None => 0 end;
               total_tokens :=
                 (match usage s with Some u => inputTokens u | None => 0 end) +
                 (match usage s with Some u => outputTokens u | None => 0 end)
            |} |}.

(** ** Factory *)

Definition extractErrorMessage (src : SourceFile) (error : JsValue)
  : JsResult JsValue :=
  match src with
  | AdapterV2 =>
      if truthy (getProp (getProp error "error") "message")
      then Returns (getProp (getProp error "error") "message")
      else if truthy (getProp error "message")
      then Returns (getProp error "message")
      else match js_String error with
           | Some s => Returns (JStr s)
           | None => Throws
           end
  | Part004 =>
      match lodash_get_error_message error with
      | JStr errorMessage => Returns (JStr errorMessage)
      | _ =>
          match error with
          | JError message => Returns (JStr message)
          | _ => Returns (JStr "Internal server error")
          end
      end
  end.

(** ** A reference environment for concrete runs

    The theorems below hold for every choice of the collaborators.  The
    concrete runs in this file use the following ones: a JSON reader for
    the integer fragment of JSON, the TOON encoding of flat objects, and
    stand-ins where the result does not matter to any statement. *)

Module Ref.

Definition is_ws (c : ascii) : bool :=
  let n := nat_of_ascii c in
  bool_decide (n = 32 ∨ n = 9 ∨ n = 10 ∨ n = 13)%nat.

Fixpoint skip_ws (s : list ascii) : list ascii :=
  match s with
  | c :: r => if is_ws c then skip_ws r else s
  | [] => []
  end.

Definition digit (c : ascii) : option Z :=
  let n := nat_of_ascii c in
  if bool_decide (48 ≤ n ≤ 57)%nat then Some (Z.of_nat n - 48)%Z else None.

Fixpoint digits (s : list ascii) (acc : Z) : Z * list ascii :=
  match s with
  | c :: r =>
      match digit c with
      | Some d => digits r (10 * acc + d)%Z
      | None => (acc, s)
      end
  | [] => (acc, [])
  end.

(** An integer literal; a fraction or exponent is outside [JsValue] and
    is rejected, as is a leading zero. *)
Definition unsigned (s : list ascii) : option (Z * list ascii) :=
  match s with
  | c :: r =>
      match digit c with
      | Some d =>
          let '(n, rest) :=
            if bool_decide (d = 0%Z) then (0%Z, r) else digits r d in
          match rest with
          | c' :: _ =>
              if bool_decide (is_Some (digit c') ∨ c' = "."%char ∨
                              c' = "e"%char ∨ c' = "E"%char)
              then None else Some (n, rest)
          | [] => Some (n, rest)
          end
      | None => None
      end
  | [] => None
  end.

(** The characters of a string literal after its opening quote, with the
    two-character escapes; [\u] escapes are rejected. *)
Fixpoint chars (s : list ascii) : option (string * list ascii) :=
  match s with
  | [] => None
  | c :: r =>
      if bool_decide (c = DQ) then Some (EmptyString, r)
      else if bool_decide (c = "\"%char) then
        match r with
        | e :: r' =>
            match
              if bool_decide (e = DQ) then Some e
              else if bool_decide (e = "\"%char) then Some e
              else if bool_decide (e = "/"%char) then Some e
              else if bool_decide (e = "n"%char)
                   then Some (ascii_of_nat 10)
              else if bool_decide (e = "t"%char)
                   then Some (ascii_of_nat 9)
              else if bool_decide (e = "r"%char)
                   then Some (ascii_of_nat 13)
              else if bool_decide (e = "b"%char)
                   then Some (ascii_of_nat 8)
              else if bool_decide (e = "f"%char)
                   then Some (ascii_of_nat 12)
              else None
            with
            | Some d =>
                match chars r' with
                | Some (str, rest) => Some (String d str, rest)
                | None => None
                end
            | None => None
            end
        | [] => None
        end
      else if bool_decide (nat_of_ascii c < 32)%nat then None
      else
        match chars r with
        | Some (str, rest) => Some (String c str, rest)
        | None => None
        end
  end.

(** [obj[k] = v]: an existing key keeps its place. *)
Fixpoint setProperty (fields : list (string * JsValue)) (k : string)
    (v : JsValue) : list (string * JsValue) :=
  match fields with
  | [] => [(k, v)]
  | (k', v') :: rest =>
      if String.eqb k' k then (k, v) :: rest
      else (k', v') :: setProperty rest k v
  end.

Fixpoint value (fuel : nat) (s : list ascii) : option (JsValue * list ascii) :=
  match fuel with
  | O => None
  | S fuel' =>
      match skip_ws s with
      | "n" :: "u" :: "l" :: "l" :: r => Some (JNull, r)
      | "t" :: "r" :: "u" :: "e" :: r => Some (JBool true, r)
      | "f" :: "a" :: "l" :: "s" :: "e" :: r => Some (JBool false, r)
      | Ascii false true false false false true false false :: r =>
          match chars r with
          | Some (str, rest) => Some (JStr str, rest)
          | None => None
          end
      | "-" :: r =>
          match unsigned r with
          | Some (n, rest) => Some (JNum (- n), rest)
          | None => None
          end
      | "[" :: r =>
          match skip_ws r with
          | "]" :: rest => Some (JArr [], rest)
          | _ => elements fuel' r []
          end
      | "{" :: r =>
          match skip_ws r with
          | "}" :: rest => Some (JObj [], rest)
          | _ => members fuel' r []
          end
      | r =>
          match unsigned r with
          | Some (n, rest) => Some (JNum n, rest)
          | None => None
          end
      end%char
  end
with elements (fuel : nat) (s : list ascii) (acc : list JsValue)
  : option (JsValue * list ascii) :=
  match fuel with
  | O => None
  | S fuel' =>
      match value fuel' s with
      | Some (v, rest) =>
          match skip_ws rest with
          | "," :: r => elements fuel' r (acc ++ [v])
          | "]" :: r => Some (JArr (acc ++ [v]), r)
          | _ => None
          end%char
      | None => None
      end
  end
with members (fuel : nat) (s : list ascii) (acc : list (string * JsValue))
  : option (JsValue * list ascii) :=
  match fuel with
  | O => None
  | S fuel' =>
      match skip_ws s with
      | Ascii false true false false false true false false :: r =>
          match chars r with
          | Some (k, rest) =>
              match skip_ws rest with
              | ":" :: r' =>
                  match value fuel' r' with
                  | Some (v, rest') =>
                      match skip_ws rest' with
                      | "," :: r'' => members fuel' r'' (setProperty acc k v)
                      | "}" :: r'' => Some (JObj (setProperty acc k v), r'')
                      | _ => None
                      end
                  | None => None
                  end
              | _ => None
              end
          | None => None
          end
      | _ => None
      end%char
  end.

(** [JSON.parse] on the integer fragment; [None] is a [SyntaxError]. *)
Definition JSON_parse (s : string) : option JsValue :=
  let input := String.list_ascii_of_string s in
  match value (2 * length input + 2) input with
  | Some (v, rest) =>
      match skip_ws rest with
      | [] => Some v
      | _ => None
      end
  | None => None
  end.

Definition is_key_char (c : ascii) : bool :=
  let n := nat_of_ascii c in
  bool_decide ((65 ≤ n ≤ 90) ∨ (97 ≤ n ≤ 122) ∨ n = 95)%nat.

Definition plain_key (k : string) : bool :=
  truthyStr k && forallb is_key_char (String.list_ascii_of_string k).

Definition primitive (v : JsValue) : option string :=
  match v with
  | JNull => Some "null"
  | JBool true => Some "true"
  | JBool false => Some "false"
  | JNum n => Some (pretty n)
  | _ => None
  end.

Fixpoint lines (fields : list (string * JsValue)) : option string :=
  match fields with
  | [] => Some ""
  | (k, v) :: rest =>
      if plain_key k then
        match primitive v, lines rest with
        | Some sv, Some sr =>
            Some (k +:+ ": " +:+ sv +:+
                  (if bool_decide (rest = []) then "" else LF +:+ sr))
        | _, _ => None
        end
      else None
  end.

(** TOON [encode] of a number, boolean, [null], or an object with plain
    keys and such values ([key: value] lines); no result elsewhere. *)
Definition toonEncode (v : JsValue) : option string :=
  match v with
  | JObj fields => lines fields
  | _ => primitive v
  end.

(** Modelled from the spec: [unwrapToolContent] is not among the sources;
    the spec describes it as removing a provider-specific
    content-wrapping envelope, so content that has none comes back as
    it is. *)
Definition unwrapToolContent (content : string) : option string :=
  Some content.

(** Stand-in tokenizer: one token per character. *)
Definition countTokens (content : string) : option Z :=
  Some (Z.of_nat (String.length content)).

(** No price row for any model. *)
Definition findByModel (m : string) : JsResult (option string) :=
  Returns None.

(** The product is kept symbolic. *)
Definition tokenSavings (tokensSaved : Z) (pricePerMillionInput : string)
  : Z * string := (tokensSaved, pricePerMillionInput).

(** Stand-in for [JSON.stringify] of a chunk. *)
Definition JSON_stringify (chunk : MiniMaxStreamChunk) : string :=
  "{" +:+ quoted "id" +:+ ":" +:+ quoted (chunk_id chunk) +:+ "}".

End Ref.

Definition refEnv : Externals (Z * string) :=
  {| JSON_parse := Ref.JSON_parse;
     JSON_stringify := Ref.JSON_stringify;
     unwrapToolContent := Ref.unwrapToolContent;
     toonEncode := Ref.toonEncode;
     countTokens := Ref.countTokens;
     findByModel := Ref.findByModel;
     tokenSavings := Ref.tokenSavings |}.

(** ** Vocabulary of the statements *)

Definition toolCall_name (tc : ToolCall) : string :=
  match tc with
  | FunctionToolCall _ _ name => name
  | CustomToolCall _ _ name => name
  end.

(** [m] is an assistant message one of whose tool calls has id
    [toolCallId]. *)
Definition declaresToolCall (m : Message) (toolCallId : string) : Prop :=
  ∃ a tool_calls tc,
    m = AssistantMessage a ∧ asst_tool_calls a = Some tool_calls ∧
    tc ∈ tool_calls ∧ toolCall_id tc = toolCallId.

(** ** Concrete data *)

(** [createMockRequest([{ role: "user", content: "Hello" }])] of the test
    suite: model ["MiniMax-M2"], nothing else set. *)
Definition helloRequest : MiniMaxRequest :=
  {| req_model := "MiniMax-M2";
     req_messages := [UserMessage (ContentString "Hello") None];
     req_tools := None; req_tool_choice := None; req_temperature := None;
     req_max_tokens := None; req_stream := None;
     req_reasoning_split := None |}.

(** [{error: {message: "bad key"}}] and an object that cannot be converted
    to a string. *)
Definition badKeyError : JsValue :=
  JObj [("error", JObj [("message", JStr "bad key")])].

Definition shadowedToString : JsValue := JObj [("toString", JNum 1)].

(** The response of the test "handles invalid JSON in arguments
    gracefully". *)
Definition brokenToolResponse : MiniMaxResponse :=
  {| resp_id := "chatcmpl-test";
     resp_object := "chat.completion";
     resp_created := 0;
     resp_model := "MiniMax-M2";
     resp_choices :=
       [ {| choice_index := 0;
            choice_message :=
              {| rm_refusal := Some None;
                 rm_role := "assistant";
                 rm_content := None;
                 rm_tool_calls :=
                   Some [FunctionToolCall "call_789" "invalid json{"
                           "broken_tool"];
                 rm_reasoning_details := None |};
            choice_logprobs := JNull;
            choice_finish_reason := "tool_calls" |} ];
     resp_usage :=
       Some {| prompt_tokens := 100; completion_tokens := 50;
               total_tokens := 150 |} |}.

(** The argument string of a tool call: [function.arguments] or
    [custom.input]. *)
Definition toolCall_payload (tc : ToolCall) : string :=
  match tc with
  | FunctionToolCall _ arguments _ => arguments
  | CustomToolCall _ input _ => input
  end.

(** What compression is to do with a string content [s]: once unwrapped it
    parses as JSON, [compressed] is the TOON encoding of the parsed value,
    and [tokensBefore] and [tokensAfter] are the token counts of the
    unwrapped content and of the encoding. *)
Definition compressesTo {Cost} (E : Externals Cost) (s compressed : string)
    (tokensBefore tokensAfter : Z) : Prop :=
  ∃ unwrapped parsed,
    unwrapToolContent E s = Some unwrapped ∧
    JSON_parse E unwrapped = Some parsed ∧
    toonEncode E parsed = Some compressed ∧
    countTokens E unwrapped = Some tokensBefore ∧
    countTokens E compressed = Some tokensAfter.

(** A tool message is eligible for compression when its content is a
    string that, once unwrapped, parses as JSON and on which the encoder
    and the tokenizer raise no exception. *)
Definition eligible {Cost} (E : Externals Cost) (m : Message) : Prop :=
  ∃ s tool_call_id compressed tokensBefore tokensAfter,
    m = ToolMessage (ContentString s) tool_call_id ∧
    compressesTo E s compressed tokensBefore tokensAfter.

(** A tool message whose content is a string that parses as JSON after
    unwrapping. *)
Definition parsesAsJson {Cost} (E : Externals Cost) (m : Message) : Prop :=
  ∃ s tool_call_id unwrapped parsed,
    m = ToolMessage (ContentString s) tool_call_id ∧
    unwrapToolContent E s = Some unwrapped ∧
    JSON_parse E unwrapped = Some parsed.

(** The adapter with [messages] as the message list of its request. *)
Definition with_messages (messages : list Message)
    (a : MiniMaxRequestAdapter) : MiniMaxRequestAdapter :=
  {| request :=
       {| req_model := req_model (request a);
          req_messages := messages;
          req_tools := req_tools (request a);
          req_tool_choice := req_tool_choice (request a);
          req_temperature := req_temperature (request a);
          req_max_tokens := req_max_tokens (request a);
          req_stream := req_stream (request a);
          req_reasoning_split := req_reasoning_split (request a) |};
     modifiedModel := modifiedModel a;
     toolResultUpdates := toolResultUpdates a |}.

Definition noCounters : ToonCounters :=
  {| toolResultCount := 0; totalTokensBefore := 0; totalTokensAfter := 0 |}.

(** The statistics [convertToolResultsToToon] derives from the counters
    once the messages are mapped. *)
Definition statsOf {Cost} (E : Externals Cost) (model : string)
    (c : ToonCounters) : JsResult (CompressionStats Cost) :=
  let stats (savings : option Cost) :=
    {| toonTokensBefore :=
         if bool_decide (0 < toolResultCount c)%nat
         then Some (totalTokensBefore c) else None;
       toonTokensAfter :=
         if bool_decide (0 < toolResultCount c)%nat
         then Some (totalTokensAfter c) else None;
       toonCostSavings := savings |} in
  if bool_decide (0 < toolResultCount c)%nat then
    if bool_decide (0 < totalTokensBefore c - totalTokensAfter c)%Z then
      match findByModel E model with
      | Throws => Throws
      | Returns (Some p) =>
          Returns (stats (Some (tokenSavings E
                                  (totalTokensBefore c - totalTokensAfter c)
                                  p)))
      | Returns None => Returns (stats None)
      end
    else Returns (stats None)
  else Returns (stats None).

(** A request with one tool result that is JSON and one that is not. *)
Definition toolResultsRequest : MiniMaxRequest :=
  {| req_model := "MiniMax-M2";
     req_messages :=
       [ UserMessage (ContentString "Get the weather") None;
         AssistantMessage
           {| asst_audio := None; asst_content := Some None;
              asst_function_call := None; asst_name := None;
              asst_refusal := None;
              asst_tool_calls :=
                Some [FunctionToolCall "call_123"
                        ("{" +:+ quoted "location" +:+ ": " +:+
                         quoted "NYC" +:+ "}")
                        "get_weather";
                      FunctionToolCall "call_124" "{}" "get_note"] |};
         ToolMessage
           (ContentString ("{" +:+ quoted "temperature" +:+ ": 72}"))
           "call_123";
         ToolMessage (ContentString "sunny, no JSON here") "call_124" ];
     req_tools := None; req_tool_choice := None; req_temperature := None;
     req_max_tokens := None; req_stream := None;
     req_reasoning_split := None |}.

(** Calls a handler can make on a request adapter. *)
Inductive RequestCall :=
| CallSetModel (m : string)
| CallUpdateToolResult (toolCallId newContent : string)
| CallToProviderRequest
| CallApplyToonCompression (m : string).

(** The adapter after one call.  [toProviderRequest] builds a new request
    and leaves the adapter as it is; a rejected [applyToonCompression]
    assigns nothing. *)
Definition afterCall {Cost} (E : Externals Cost) (a : MiniMaxRequestAdapter)
    (call : RequestCall) : MiniMaxRequestAdapter :=
  match call with
  | CallSetModel m => setModel m a
  | CallUpdateToolResult toolCallId newContent =>
      updateToolResult toolCallId newContent a
  | CallToProviderRequest => a
  | CallApplyToonCompression m =>
      match applyToonCompression E m a with
      | Returns (a', _) => a'
      | Throws => a
      end
  end.

Definition afterCalls {Cost} (E : Externals Cost) (a : MiniMaxRequestAdapter)
    (calls : list RequestCall) : MiniMaxRequestAdapter :=
  foldl (afterCall E) a calls.

Definition isCompression (call : RequestCall) : bool :=
  match call with
  | CallApplyToonCompression _ => true
  | _ => false
  end.

(** A chunk carries usage when its [usage] field is an object. *)
Definition carriesUsage (chunk : MiniMaxStreamChunk) : bool :=
  match chunk_usage chunk with
  | Some _ => true
  | None => false
  end.

(** The adapter with its timing record replaced. *)
Definition retime (t : Timing) (a : MiniMaxStreamAdapter)
  : MiniMaxStreamAdapter :=
  {| state := set_timing t (state a);
     currentToolCallIndices := currentToolCallIndices a |}.

Definition set_created (created : Z) (r : MiniMaxResponse) : MiniMaxResponse :=
  {| resp_id := resp_id r; resp_choices := resp_choices r;
     resp_created := created; resp_model := resp_model r;
     resp_object := resp_object r; resp_usage := resp_usage r |}.

(** Chunks of the end-to-end scenario: a chunk whose delta holds one
    tool-call delta, a chunk that only carries a finish reason, and the
    closing chunk with usage and no choice. *)
Definition toolCallChunk (i m : string) (created : Z) (d : ToolCallDelta)
  : MiniMaxStreamChunk :=
  {| chunk_id := i; chunk_object := "chat.completion.chunk";
     chunk_created := created; chunk_model := m;
     chunk_choices :=
       [ {| cc_index := 0;
            cc_delta := {| delta_role := None; delta_content := None;
                           delta_reasoning_details := None;
                           delta_tool_calls := Some [d] |};
            cc_finish_reason := None |} ];
     chunk_usage := None |}.

Definition finishChunk (i m : string) (created : Z) (reason : string)
  : MiniMaxStreamChunk :=
  {| chunk_id := i; chunk_object := "chat.completion.chunk";
     chunk_created := created; chunk_model := m;
     chunk_choices :=
       [ {| cc_index := 0;
            cc_delta := {| delta_role := None; delta_content := None;
                           delta_reasoning_details := None;
                           delta_tool_calls := None |};
            cc_finish_reason := Some reason |} ];
     chunk_usage := None |}.

Definition usageChunk (i m : string) (created : Z) (p c : Z)
  : MiniMaxStreamChunk :=
  {| chunk_id := i; chunk_object := "chat.completion.chunk";
     chunk_created := created; chunk_model := m;
     chunk_choices := [];
     chunk_usage :=
       Some {| cu_prompt_tokens := Some p; cu_completion_tokens := Some c;
               cu_total_tokens := Some (p + c)%Z |} |}.

(** A usage chunk with any usage object: the counters may be missing, and
    the announced total need not be the sum of the other two. *)
Definition usageChunkOf (i m : string) (created : Z) (u : ChunkUsage)
  : MiniMaxStreamChunk :=
  {| chunk_id := i; chunk_object := "chat.completion.chunk";
     chunk_created := created; chunk_model := m;
     chunk_choices := [];
     chunk_usage := Some u |}.

(** The first delta of a tool call names it; the following ones only bring
    argument text. *)
Definition openingDelta (index : Z) (callId name fragment : string)
  : ToolCallDelta :=
  {| tcd_index := index; tcd_id := Some callId; tcd_type := Some "function";
     tcd_function :=
       Some {| tcf_name := Some name; tcf_arguments := Some fragment |} |}.

Definition fragmentDelta (index : Z) (fragment : string) : ToolCallDelta :=
  {| tcd_index := index; tcd_id := None; tcd_type := None;
     tcd_function :=
       Some {| tcf_name := None; tcf_arguments := Some fragment |} |}.

(** The scenario's stream, with the clock reading of each call. *)
Definition weatherStream : list (Z * MiniMaxStreamChunk) :=
  [ (1000, toolCallChunk "chatcmpl-1" "MiniMax-M2" 1
             (openingDelta 0 "call_1" "get_weather"
                ("{" +:+ quoted "location" +:+ ":")));
    (1010, toolCallChunk "chatcmpl-1" "MiniMax-M2" 1
             (fragmentDelta 0 (quoted "NY")));
    (1020, toolCallChunk "chatcmpl-1" "MiniMax-M2" 1 (fragmentDelta 0 "}"));
    (1030, finishChunk "chatcmpl-1" "MiniMax-M2" 1 "tool_calls");
    (1040, usageChunk "chatcmpl-1" "MiniMax-M2" 1 12 7) ]%Z.

(** The scenario's stream with a usage chunk whose total counts more than
    the prompt and the completion. *)
Definition weatherStreamOwnTotal : list (Z * MiniMaxStreamChunk) :=
  [ (1000, toolCallChunk "chatcmpl-1" "MiniMax-M2" 1
             (openingDelta 0 "call_1" "get_weather"
                ("{" +:+ quoted "location" +:+ ":")));
    (1010, toolCallChunk "chatcmpl-1" "MiniMax-M2" 1
             (fragmentDelta 0 (quoted "NY")));
    (1020, toolCallChunk "chatcmpl-1" "MiniMax-M2" 1 (fragmentDelta 0 "}"));
    (1030, finishChunk "chatcmpl-1" "MiniMax-M2" 1 "tool_calls");
    (1040, usageChunkOf "chatcmpl-1" "MiniMax-M2" 1
             {| cu_prompt_tokens := Some 12; cu_completion_tokens := Some 7;
                cu_total_tokens := Some 25 |}) ]%Z.

(** Every index recorded for a provider stream index is a position of the
    accumulator list, so [processToolCallDelta] always finds the entry it
    updates. *)
Definition indicesInRange (a : MiniMaxStreamAdapter) : Prop :=
  ∀ index k, currentToolCallIndices a !! index = Some k →
             (k < length (toolCalls (state a)))%nat.

(** Two accumulator states that agree on every field other than
    [timing], and two adapters whose states do and whose index maps are
    equal. *)
Definition sameButTiming (s s' : StreamAccumulatorState) : Prop :=
  set_timing {| startTime := 0; firstChunkTime := None |} s =
  set_timing {| startTime := 0; firstChunkTime := None |} s'.

Definition sameRun (a a' : MiniMaxStreamAdapter) : Prop :=
  sameButTiming (state a) (state a') ∧
  currentToolCallIndices a = currentToolCallIndices a'.

(** The scenario's stream again, each chunk arriving five seconds later. *)
Definition weatherStreamLater : list (Z * MiniMaxStreamChunk) :=
  (λ tc, (tc.1 + 5000, tc.2)%Z) <$> weatherStream.

(** * The rest of the adapter *)

(** ** Request adapter: tools and bulk updates *)

Record CommonMcpToolDefinition := {
  mcp_name : string;
  mcp_description : option string;
  mcp_inputSchema : option JsValue;
}.

Definition getTools (a : MiniMaxRequestAdapter)
  : list CommonMcpToolDefinition :=
  match req_tools (request a) with
  | None => []
  | Some tools =>
      omap (λ tool,
        match tool with
        | FunctionTool name description parameters _ =>
            Some {| mcp_name := name;
                    mcp_description := description;
                    mcp_inputSchema := parameters |}
        | CustomTool _ _ _ => None
        end) tools
  end.

Definition hasTools (a : MiniMaxRequestAdapter) : bool :=
  match req_tools (request a) with
  | Some tools => bool_decide (0 < length tools)%nat
  | None => false
  end.

(** [Object.assign(this.toolResultUpdates, updates)] *)
Definition applyToolResultUpdates (updates : gmap string string)
    (a : MiniMaxRequestAdapter) : MiniMaxRequestAdapter :=
  {| request := request a;
     modifiedModel := modifiedModel a;
     toolResultUpdates := Object_assign (toolResultUpdates a) updates |}.

(** ** Response adapter: refusal *)

(** The choice of a refusal response.  It spreads [choices[0]], so [index]
    and [logprobs] are there only when the wrapped response has a first
    choice. *)
Record RefusalChoice := {
  rc_finish_reason : string;
  rc_index : option Z;
  rc_logprobs : option JsValue;
  rc_message : ResponseMessage;
}.

Record RefusalResponse := {
  rr_id : string;
  rr_choices : list RefusalChoice;
  rr_created : Z;
  rr_model : string;
  rr_object : string;
  rr_usage : option Usage;
}.

Definition toRefusalResponse (response : MiniMaxResponse)
    (_refusalMessage contentMessage : string) : RefusalResponse :=
  {| rr_id := resp_id response;
     rr_created := resp_created response;
     rr_model := resp_model response;
     rr_object := resp_object response;
     rr_usage := resp_usage response;
     rr_choices :=
       [ {| rc_index := choice_index <$> resp_choices response !! 0%nat;
            rc_logprobs := choice_logprobs <$> resp_choices response !! 0%nat;
            rc_message :=
              {| rm_role := "assistant";
                 rm_content := Some contentMessage;
                 rm_refusal := Some None;
                 rm_tool_calls := None;
                 rm_reasoning_details := None |};
            rc_finish_reason := "stop" |} ] |}.

(** ** Stream adapter: frames built by the server *)

Definition getSSEHeaders : list (string * string) :=
  [ ("Content-Type", "text/event-stream");
    ("Cache-Control", "no-cache");
    ("Connection", "keep-alive") ].

Section ServerFrames.
Context {Cost : Type} (E : Externals Cost).

Definition formatTextDeltaSSE (now : Z) (a : MiniMaxStreamAdapter)
    (t : string) : string :=
  let chunk :=
    {| chunk_id := responseId (state a);
       chunk_object := "chat.completion.chunk";
       chunk_created := (now `div` 1000)%Z;
       chunk_model := model (state a);
       chunk_choices :=
         [ {| cc_index := 0;
              cc_delta := {| delta_role := None; delta_content := Some t;
                             delta_reasoning_details := None;
                             delta_tool_calls := None |};
              cc_finish_reason := None |} ];
       chunk_usage := None |} in
  "data: " +:+ JSON_stringify E chunk +:+ LF +:+ LF.

Definition getRawToolCallEvents (a : MiniMaxStreamAdapter) : list string :=
  map (λ event, "data: " +:+ JSON_stringify E event +:+ LF +:+ LF)
    (rawToolCallEvents (state a)).

Definition formatCompleteTextSSE (now : Z) (a : MiniMaxStreamAdapter)
    (t : string) : list string :=
  let chunk :=
    {| chunk_id :=
         if truthyStr (responseId (state a)) then responseId (state a)
         else "chatcmpl-" +:+ pretty now;
       chunk_object := "chat.completion.chunk";
       chunk_created := (now `div` 1000)%Z;
       chunk_model := model (state a);
       chunk_choices :=
         [ {| cc_index := 0;
              cc_delta := {| delta_role := Some "assistant";
                             delta_content := Some t;
                             delta_reasoning_details := None;
                             delta_tool_calls := None |};
              cc_finish_reason := None |} ];
       chunk_usage := None |} in
  [ "data: " +:+ JSON_stringify E chunk +:+ LF +:+ LF ].

Definition formatEndSSE (now : Z) (a : MiniMaxStreamAdapter) : string :=
  let finalChunk :=
    {| chunk_id := responseId (state a);
       chunk_object := "chat.completion.chunk";
       chunk_created := (now `div` 1000)%Z;
       chunk_model := model (state a);
       chunk_choices :=
         [ {| cc_index := 0;
              cc_delta := {| delta_role := None; delta_content := None;
                             delta_reasoning_details := None;
                             delta_tool_calls := None |};
              cc_finish_reason :=
                Some (default "stop" (stopReason (state a))) |} ];
       chunk_usage := None |} in
  "data: " +:+ JSON_stringify E finalChunk +:+ LF +:+ LF +:+
  "data: [DONE]" +:+ LF +:+ LF.

End ServerFrames.

(** ** Factory: client and calls *)

Record CreateClientOptions := {
  opt_mockMode : option bool;
  opt_baseUrl : option string;
  opt_agent : option JsValue;
  opt_externalAgentId : option string;
  opt_defaultHeaders : option JsValue;
}.

(** What [createClient] constructs: the mock client, or the provider SDK
    client with the options it was given.  [Fetch] is whatever
    [getObservableFetch] returns. *)
Inductive Client (Fetch : Type) :=
| MockOpenAIClient
| OpenAIProvider (apiKey : option string) (baseURL : option string)
    (fetch : option Fetch) (defaultHeaders : option JsValue).
Arguments MockOpenAIClient {Fetch}.
Arguments OpenAIProvider {Fetch} _ _ _ _.

(** [a || b] on optional strings. *)
Definition orElse (a b : option string) : option string :=
  if truthyOptStr a then a else b.

(** [configBaseUrl] is [config.llm.minimax.baseUrl]. *)
Definition createClient {Fetch : Type} (src : SourceFile)
    (configBaseUrl : option string)
    (getObservableFetch : string → JsValue → option string → Fetch)
    (apiKey : option string) (options : option CreateClientOptions)
  : Client Fetch :=
  match options ≫= opt_mockMode with
  | Some true => MockOpenAIClient
  | _ =>
      let customFetch :=
        match options ≫= opt_agent with
        | Some agent =>
            if truthy agent
            then Some (getObservableFetch "minimax" agent
                         (options ≫= opt_externalAgentId))
            else None
        | None => None
        end in
      match src with
      | AdapterV2 =>
          OpenAIProvider apiKey
            (orElse (orElse (options ≫= opt_baseUrl) configBaseUrl)
                    (Some "https://api.minimax.io/v1"))
            customFetch
            (options ≫= opt_defaultHeaders)
      | Part004 =>
          OpenAIProvider apiKey (options ≫= opt_baseUrl) customFetch None
      end
  end.

Record StreamOptions := {
  include_usage : bool;
}.

(** The body passed to [client.chat.completions.create]. *)
Record CreateParams := {
  cp_model : string;
  cp_messages : list Message;
  cp_tools : option (list Tool);
  cp_tool_choice : option JsValue;
  cp_temperature : option JsValue;
  cp_max_tokens : option JsValue;
  cp_stream : option (option bool);
  cp_stream_options : option StreamOptions;
  cp_reasoning_split : option bool;
}.

(** [create] is [client.chat.completions.create]. *)
Definition execute {R : Type} (src : SourceFile) (create : CreateParams → R)
    (r : MiniMaxRequest) : R :=
  create
    {| cp_model := req_model r;
       cp_messages := req_messages r;
       cp_tools := req_tools r;
       cp_tool_choice := req_tool_choice r;
       cp_temperature := req_temperature r;
       cp_max_tokens := req_max_tokens r;
       cp_stream :=
         match src with
         | AdapterV2 => req_stream r
         | Part004 => Some (Some false)
         end;
       cp_stream_options := None;
       cp_reasoning_split :=
         match src with
         | AdapterV2 =>
             match req_reasoning_split r with
             | Some true => Some true
             | _ => None
             end
         | Part004 => req_reasoning_split r
         end |}.

Definition executeStream {R : Type} (src : SourceFile)
    (create : CreateParams → R) (r : MiniMaxRequest) : R :=
  create
    {| cp_model := req_model r;
       cp_messages := req_messages r;
       cp_tools := req_tools r;
       cp_tool_choice := req_tool_choice r;
       cp_temperature := req_temperature r;
       cp_max_tokens := req_max_tokens r;
       cp_stream := Some (Some true);
       cp_stream_options := Some {| include_usage := true |};
       cp_reasoning_split :=
         match src with
         | AdapterV2 =>
             match req_reasoning_split r with
             | Some true => Some true
             | _ => None
             end
         | Part004 => req_reasoning_split r
         end |}.

(** ** Vocabulary for the rest of the adapter *)

(** The argument of the last [setModel] among [calls], if any. *)
Definition lastModelSet (calls : list RequestCall) : option string :=
  foldl (λ acc call,
    match call with
    | CallSetModel m => Some m
    | _ => acc
    end) None calls.

Definition functionToolName (t : Tool) : option string :=
  match t with
  | FunctionTool name _ _ _ => Some name
  | CustomTool _ _ _ => None
  end.

(** The [tool_call_id]s of the tool messages, in order. *)
Definition toolCallIds (messages : list Message) : list string :=
  omap (λ m,
    match m with
    | ToolMessage _ tool_call_id => Some tool_call_id
    | _ => None
    end) messages.

(** A request with a staged update for one of its two tool results. *)
Definition updatedAdapter : MiniMaxRequestAdapter :=
  updateToolResult "call_123" "cloudy"
    (createRequestAdapter toolResultsRequest).

(** What a message is to add to the totals of a compression: for an
    eligible tool message the token counts of its unwrapped content and of
    its encoding, for any other message nothing. *)
Definition contributes {Cost} (E : Externals Cost) (m : Message)
    (tokens : Z * Z) : Prop :=
  (∃ s tool_call_id compressed,
     m = ToolMessage (ContentString s) tool_call_id ∧
     compressesTo E s compressed tokens.1 tokens.2) ∨
  (¬ eligible E m ∧ tokens = (0, 0)%Z).

Definition sumZ (l : list Z) : Z := foldr Z.add 0%Z l.

(** The tool calls of the first choice, the only ones the response adapter
    reads. *)
Definition firstToolCalls (response : MiniMaxResponse) : list ToolCall :=
  default []
    (resp_choices response !! 0%nat ≫= λ choice,
       rm_tool_calls (choice_message choice)).

(** A refusal response read back as a provider response, when each of its
    choices has the [index] and [logprobs] a provider choice has. *)
Definition asChoice (c : RefusalChoice) : option Choice :=
  i ← rc_index c;
  l ← rc_logprobs c;
  Some {| choice_finish_reason := rc_finish_reason c; choice_index := i;
          choice_logprobs := l; choice_message := rc_message c |}.

Definition asResponse (r : RefusalResponse) : option MiniMaxResponse :=
  choices ← mapM asChoice (rr_choices r);
  Some {| resp_id := rr_id r; resp_choices := choices;
          resp_created := rr_created r; resp_model := rr_model r;
          resp_object := rr_object r; resp_usage := rr_usage r |}.

(** What a chunk brings, read off its first choice. *)
Definition firstChoice (chunk : MiniMaxStreamChunk) : option ChunkChoice :=
  chunk_choices chunk !! 0%nat.

Definition contentDelta (chunk : MiniMaxStreamChunk) : string :=
  default "" (firstChoice chunk ≫= λ choice, delta_content (cc_delta choice)).

Definition deltasOf (chunk : MiniMaxStreamChunk) : list ToolCallDelta :=
  default []
    (firstChoice chunk ≫= λ choice, delta_tool_calls (cc_delta choice)).

Definition carriesToolCalls (chunk : MiniMaxStreamChunk) : bool :=
  match firstChoice chunk ≫= λ choice, delta_tool_calls (cc_delta choice) with
  | Some _ => true
  | None => false
  end.

Definition finishReasonOf (chunk : MiniMaxStreamChunk) : option string :=
  match firstChoice chunk ≫= cc_finish_reason with
  | Some r => if truthyStr r then Some r else None
  | None => None
  end.

Definition usageOf (chunk : MiniMaxStreamChunk) : option UsageView :=
  (λ u, {| inputTokens := default 0%Z (cu_prompt_tokens u);
           outputTokens := default 0%Z (cu_completion_tokens u) |})
    <$> chunk_usage chunk.

(** The non-empty reasoning texts of a chunk, in order. *)
Definition reasoningTexts (chunk : MiniMaxStreamChunk) : list string :=
  omap (λ d, rd_text d ≫= λ t, if truthyStr t then Some t else None)
    (default []
       (firstChoice chunk ≫= λ choice,
          delta_reasoning_details (cc_delta choice))).

Definition concatStrings (l : list string) : string :=
  foldr String.append "" l.

(** The last defined element of a list. *)
Definition lastSome {A : Type} (l : list (option A)) : option A :=
  foldl (λ acc o, match o with Some x => Some x | None => acc end) None l.

(** Two adapters with the same accumulator entries and index map. *)
Definition sameCalls (a a' : MiniMaxStreamAdapter) : Prop :=
  toolCalls (state a) = toolCalls (state a') ∧
  currentToolCallIndices a = currentToolCallIndices a'.

(** [(this.state.reasoning || "") + text], once per text. *)
Definition appendReasoning (r : option string) (texts : list string)
  : option string :=
  foldl (λ acc t, Some (default "" acc +:+ t)) r texts.

(** Whether [processChunk] hands the chunk back for forwarding: the first
    choice has text content, or reasoning details (in the second copy of
    the adapter: reasoning details with text). *)
Definition forwarded (src : SourceFile) (chunk : MiniMaxStreamChunk) : bool :=
  match firstChoice chunk with
  | None => false
  | Some choice =>
      truthyOptStr (delta_content (cc_delta choice)) ||
      match src with
      | AdapterV2 =>
          match delta_reasoning_details (cc_delta choice) with
          | Some _ => true
          | None => false
          end
      | Part004 => negb (bool_decide (reasoningTexts chunk = []))
      end
  end.

(** The tool-call deltas of a stream sent under one index, and what they
    add up to: the last non-empty id and name, and the argument fragments
    joined in arrival order. *)
Definition deltasFor (index : Z) (deltas : list ToolCallDelta)
  : list ToolCallDelta :=
  filter (λ d, tcd_index d = index) deltas.

Definition lastNonEmpty (l : list (option string)) : string :=
  default ""
    (lastSome ((λ o, o ≫= λ s, if truthyStr s then Some s else None) <$> l)).

Definition toolCallFor (index : Z) (deltas : list ToolCallDelta)
  : ToolCallAccumulator :=
  {| acc_id := lastNonEmpty (tcd_id <$> deltasFor index deltas);
     acc_name :=
       lastNonEmpty ((λ d, tcd_function d ≫= tcf_name)
                       <$> deltasFor index deltas);
     acc_arguments :=
       concatStrings ((λ d, default "" (tcd_function d ≫= tcf_arguments))
                        <$> deltasFor index deltas) |}.

(** The indices of a stream in the order in which each was first seen. *)
Definition firstSightings (deltas : list ToolCallDelta) : list Z :=
  foldl (λ seen d,
    if bool_decide (tcd_index d ∈ seen) then seen
    else seen ++ [tcd_index d]) [] deltas.

Definition emptyEntry : ToolCallAccumulator :=
  {| acc_id := ""; acc_name := ""; acc_arguments := "" |}.

(** The accumulator after the deltas [deltas]: its entries are those of the
    indices in first-sighting order, and the index map sends each index to
    the position of its entry. *)
Definition demultiplexed (a : MiniMaxStreamAdapter)
    (deltas : list ToolCallDelta) : Prop :=
  toolCalls (state a) =
    (λ i, toolCallFor i deltas) <$> firstSightings deltas ∧
  ∀ i k, currentToolCallIndices a !! i = Some k ↔
         firstSightings deltas !! k = Some i.

(** The chunks [formatTextDeltaSSE] and [formatCompleteTextSSE] serialize. *)
Definition textDeltaChunk (now : Z) (a : MiniMaxStreamAdapter) (t : string)
  : MiniMaxStreamChunk :=
  {| chunk_id := responseId (state a);
     chunk_object := "chat.completion.chunk";
     chunk_created := (now `div` 1000)%Z;
     chunk_model := model (state a);
     chunk_choices :=
       [ {| cc_index := 0;
            cc_delta := {| delta_role := None; delta_content := Some t;
                           delta_reasoning_details := None;
                           delta_tool_calls := None |};
            cc_finish_reason := None |} ];
     chunk_usage := None |}.

Definition completeTextChunk (now : Z) (a : MiniMaxStreamAdapter)
    (t : string) : MiniMaxStreamChunk :=
  {| chunk_id :=
       if truthyStr (responseId (state a)) then responseId (state a)
       else "chatcmpl-" +:+ pretty now;
     chunk_object := "chat.completion.chunk";
     chunk_created := (now `div` 1000)%Z;
     chunk_model := model (state a);
     chunk_choices :=
       [ {| cc_index := 0;
            cc_delta := {| delta_role := Some "assistant";
                           delta_content := Some t;
                           delta_reasoning_details := None;
                           delta_tool_calls := None |};
            cc_finish_reason := None |} ];
     chunk_usage := None |}.

(** The adapter and the result of compressing [toolResultsRequest] in the
    reference environment. *)
Definition compressedAdapter : MiniMaxRequestAdapter :=
  with_messages
    [ UserMessage (ContentString "Get the weather") None;
      AssistantMessage
        {| asst_audio := None; asst_content := Some None;
           asst_function_call := None; asst_name := None;
           asst_refusal := None;
           asst_tool_calls :=
             Some [FunctionToolCall "call_123"
                     ("{" +:+ quoted "location" +:+ ": " +:+
                      quoted "NYC" +:+ "}")
                     "get_weather";
                   FunctionToolCall "call_124" "{}" "get_note"] |};
      ToolMessage (ContentString "temperature: 72") "call_123";
      ToolMessage (ContentString "sunny, no JSON here") "call_124" ]
    (createRequestAdapter toolResultsRequest).

Definition compressedResult : ToonCompressionResult (Z * string) :=
  {| tokensBefore := Some 19%Z; tokensAfter := Some 15%Z;
     costSavings := None |}.

(** The chunk [formatEndSSE] serializes before the end marker. *)
Definition endChunk (now : Z) (a : MiniMaxStreamAdapter)
  : MiniMaxStreamChunk :=
  {| chunk_id := responseId (state a);
     chunk_object := "chat.completion.chunk";
     chunk_created := (now `div` 1000)%Z;
     chunk_model := model (state a);
     chunk_choices :=
       [ {| cc_index := 0;
            cc_delta := {| delta_role := None; delta_content := None;
                           delta_reasoning_details := None;
                           delta_tool_calls := None |};
            cc_finish_reason :=
              Some (default "stop" (stopReason (state a))) |} ];
     chunk_usage := None |}.

(** * The proxy route in front of the adapter ([unnamed/part_005]) *)

(** [s.replace(pattern, empty)] with a string pattern and the empty
    replacement: the first occurrence of [pattern] is removed. *)
Fixpoint dropChars (n : nat) (s : string) : string :=
  match n, s with
  | S n', String _ rest => dropChars n' rest
  | _, _ => s
  end.

Fixpoint removeFirst (s pattern : string) : string :=
  if String.prefix pattern s then dropChars (String.length pattern) s
  else
    match s with
    | EmptyString => EmptyString
    | String c rest => String c (removeFirst rest pattern)
    end.

(** [[0-9a-f]] under the [i] flag. *)
Definition isHexDigit (c : ascii) : bool :=
  let n := nat_of_ascii c in
  bool_decide ((48 ≤ n ≤ 57) ∨ (97 ≤ n ≤ 102) ∨ (65 ≤ n ≤ 70))%nat.

(** [[0-9a-f]{n}]: the rest of the string after exactly [n] hex digits. *)
Fixpoint takeHex (n : nat) (s : string) : option string :=
  match n with
  | O => Some s
  | S n' =>
      match s with
      | String c rest => if isHexDigit c then takeHex n' rest else None
      | EmptyString => None
      end
  end.

Definition expectChar (c : ascii) (s : string) : option string :=
  match s with
  | String c' rest => if Ascii.eqb c c' then Some rest else None
  | EmptyString => None
  end.

(** What [.] refuses: the line terminators.  URLs are strings of 8-bit
    characters here, so only line feed and carriage return occur. *)
Definition isLineTerminator (c : ascii) : bool :=
  bool_decide (nat_of_ascii c = 10 ∨ nat_of_ascii c = 13)%nat.

Fixpoint noLineTerminator (s : string) : bool :=
  match s with
  | EmptyString => true
  | String c rest => negb (isLineTerminator c) && noLineTerminator rest
  end.

(** The match of the UUID pattern of the pre-handler: anchored at both
    ends, a slash, a group of 8-4-4-4-12 hexadecimal digits joined by
    dashes, and an optional second group made of a slash and any
    characters but line terminators.  The result is the second group, or
    the empty string when it is absent (the code's [uuidMatch[2]] with its
    empty-string default); [None] when the pattern does not match. *)
Definition matchUuidPath (path : string) : option string :=
  r ← expectChar "/" path;
  r ← takeHex 8 r;
  r ← expectChar "-" r;
  r ← takeHex 4 r;
  r ← expectChar "-" r;
  r ← takeHex 4 r;
  r ← expectChar "-" r;
  r ← takeHex 4 r;
  r ← expectChar "-" r;
  r ← takeHex 12 r;
  match r with
  | EmptyString => Some EmptyString
  | String c rest =>
      if Ascii.eqb c "/" && noLineTerminator rest then Some r else None
  end.

(** What the [preHandler] of the catch-all proxy decides: hand the request
    to the chat-completions handler ([next] called with an error), or let the
    proxy forward it under the URL left in [request.raw.url]. *)
Inductive PreHandlerOutcome :=
| SkipProxy
| ProxyTo (url : string).

(** [PROXY_API_PREFIX] comes from [../common]. *)
Definition preHandler (PROXY_API_PREFIX : string) (method url : string)
  : PreHandlerOutcome :=
  let API_PREFIX := PROXY_API_PREFIX +:+ "/minimax" in
  if String.eqb method "POST" && includes url "/chat/completions"
  then SkipProxy
  else
    let pathAfterPrefix := removeFirst url API_PREFIX in
    match matchUuidPath pathAfterPrefix with
    | Some remainingPath => ProxyTo (API_PREFIX +:+ remainingPath)
    | None => ProxyTo url
    end.

(** A string of exactly [n] hexadecimal digits. *)
Fixpoint hexString (n : nat) (s : string) : bool :=
  match n, s with
  | O, EmptyString => true
  | S n', String c rest => isHexDigit c && hexString n' rest
  | _, _ => false
  end.

(** A path the pattern lets follow the UUID: nothing, or a slash and
    characters none of which ends a line. *)
Definition pathAfterUuid (rest : string) : bool :=
  match rest with
  | EmptyString => true
  | String c rest' => Ascii.eqb c "/" && noLineTerminator rest'
  end.

(** * Properties *)

(** ** Tool-call correlation *)

Lemma findToolNameInCalls_Some tool_calls toolCallId name :
  findToolNameInCalls tool_calls toolCallId = Some name →
  ∃ pre tc post,
    tool_calls = pre ++ tc :: post ∧ toolCall_id tc = toolCallId ∧
    toolCall_name tc = name ∧
    Forall (λ t, toolCall_id t ≠ toolCallId) pre.
Proof.
  induction tool_calls as [|tc rest IH]; simpl; [done|].
  destruct (String.eqb (toolCall_id tc) toolCallId) eqn:Heq.
  - apply String.eqb_eq in Heq. intros Hname.
    exists [], tc, rest. repeat split; [done| |constructor].
    destruct tc; simpl; congruence.
  - apply String.eqb_neq in Heq. intros Hrest.
    destruct (IH Hrest) as (pre & tc' & post & -> & Hid & Hnm & Hpre).
    exists (tc :: pre), tc', post. repeat split; [done..|].
    by constructor.
Qed.

Lemma findToolNameInCalls_None tool_calls toolCallId :
  findToolNameInCalls tool_calls toolCallId = None →
  ∀ tc, tc ∈ tool_calls → toolCall_id tc ≠ toolCallId.
Proof.
  induction tool_calls as [|tc rest IH]; simpl; intros Hnone tc' Hin.
  - by apply elem_of_nil in Hin.
  - destruct (String.eqb (toolCall_id tc) toolCallId) eqn:Heq.
    + destruct tc; discriminate.
    + apply String.eqb_neq in Heq.
      apply elem_of_cons in Hin as [->|Hin]; [done|]. by apply IH.
Qed.

Lemma findToolNameFrom_Some messages toolCallId n name :
  findToolNameFrom messages toolCallId n = Some name →
  ∃ i a tool_calls,
    (i < n)%nat ∧ messages !! i = Some (AssistantMessage a) ∧
    asst_tool_calls a = Some tool_calls ∧
    findToolNameInCalls tool_calls toolCallId = Some name ∧
    ∀ j m, (i < j < n)%nat → messages !! j = Some m →
           ¬ declaresToolCall m toolCallId.
Proof.
  induction n as [|i IH]; simpl; [done|].
  assert (Hskip : ¬ (∃ m, messages !! i = Some m ∧
                          declaresToolCall m toolCallId) →
                  findToolNameFrom messages toolCallId i = Some name →
                  ∃ i0 a tool_calls,
                    (i0 < S i)%nat ∧
                    messages !! i0 = Some (AssistantMessage a) ∧
                    asst_tool_calls a = Some tool_calls ∧
                    findToolNameInCalls tool_calls toolCallId = Some name ∧
                    ∀ j m, (i0 < j < S i)%nat → messages !! j = Some m →
                           ¬ declaresToolCall m toolCallId).
  { intros Hno Hrec.
    destruct (IH Hrec) as (i0 & a & tcs & Hlt & Hm & Htc & Hfind & Hlater).
    exists i0, a, tcs. repeat split; [lia|done..|].
    intros j m Hj Hjm. destruct (decide (j = i)) as [->|Hne].
    - intros Hd. apply Hno. by exists m.
    - apply (Hlater j m); [lia|done]. }
  destruct (messages !! i) as [m|] eqn:Hm.
  2:{ apply Hskip. by intros (m & ? & _). }
  destruct m as [| | |a| |];
    try (apply Hskip; intros (m & [= <-] & (a' & tcs & tc & [=] & _)); done).
  destruct (asst_tool_calls a) as [tcs|] eqn:Htcs.
  2:{ apply Hskip. intros (m & [= <-] & (a' & tcs & tc & [= <-] & Hs & _)).
      congruence. }
  destruct (findToolNameInCalls tcs toolCallId) as [nm|] eqn:Hfind.
  - intros [= ->]. exists i, a, tcs. repeat split; [lia|done..|].
    intros j m Hj. lia.
  - apply Hskip.
    intros (m & [= <-] & (a' & tcs' & tc & [= <-] & Hs & Hin & Hid)).
    rewrite Htcs in Hs. injection Hs as <-.
    by apply (findToolNameInCalls_None _ _ Hfind tc).
Qed.

Lemma findToolNameFrom_None messages toolCallId n :
  findToolNameFrom messages toolCallId n = None →
  ∀ j m, (j < n)%nat → messages !! j = Some m →
         ¬ declaresToolCall m toolCallId.
Proof.
  induction n as [|i IH]; simpl; intros Hnone j m Hj Hm; [lia|].
  destruct (decide (j = i)) as [->|Hne].
  - rewrite Hm in Hnone.
    intros (a & tcs & tc & -> & Htcs & Hin & Hid).
    rewrite Htcs in Hnone.
    destruct (findToolNameInCalls tcs toolCallId) eqn:Hfind; [done|].
    by apply (findToolNameInCalls_None _ _ Hfind tc).
  - apply (IH) with (j := j); [|lia|done].
    destruct (messages !! i) as [[| | |a| |]|]; try done.
    destruct (asst_tool_calls a) as [tcs|]; [|done].
    by destruct (findToolNameInCalls tcs toolCallId).
Qed.

Lemma getToolResults_elem {Cost} (E : Externals Cost) a r :
  r ∈ getToolResults E a ↔
  ∃ content tool_call_id,
    ToolMessage content tool_call_id ∈ req_messages (request a) ∧
    r = {| ctr_id := tool_call_id;
           ctr_name :=
             default "unknown"
               (findToolNameInMessages (req_messages (request a))
                  tool_call_id);
           ctr_content :=
             match content with
             | ContentString s =>
                 match JSON_parse E s with
                 | Some parsed => ParsedContent parsed
                 | None => RawContent content
                 end
             | ContentParts _ | ContentInherited _ => RawContent content
             end;
           ctr_isError := false |}.
Proof.
  unfold getToolResults. rewrite list_elem_of_omap. split.
  - intros (m & Hin & Hm). destruct m; try discriminate.
    injection Hm as <-. eauto.
  - intros (content & tool_call_id & Hin & ->).
    by exists (ToolMessage content tool_call_id).
Qed.

(** C4. Resolution of a tool-call id scans the messages from the end: it
    returns the name of the first call with that id inside the
    latest-indexed assistant message that has such a call, passing over
    every later message; it yields nothing exactly when no assistant
    message has such a call.  [getToolResults] produces an entry for every
    tool message and names it by the resolution, with ["unknown"] when the
    resolution yields nothing. *)
Theorem tool_name_resolution {Cost} (E : Externals Cost)
    (a : MiniMaxRequestAdapter) :
  let messages := req_messages (request a) in
  (∀ toolCallId,
     match findToolNameInMessages messages toolCallId with
     | Some name =>
         ∃ i asst tool_calls pre tc post,
           messages !! i = Some (AssistantMessage asst) ∧
           asst_tool_calls asst = Some tool_calls ∧
           tool_calls = pre ++ tc :: post ∧
           toolCall_id tc = toolCallId ∧ toolCall_name tc = name ∧
           Forall (λ t, toolCall_id t ≠ toolCallId) pre ∧
           ∀ j m, (i < j)%nat → messages !! j = Some m →
                  ¬ declaresToolCall m toolCallId
     | None => ∀ m, m ∈ messages → ¬ declaresToolCall m toolCallId
     end) ∧
  (∀ content tool_call_id,
     ToolMessage content tool_call_id ∈ messages →
     ∃ r, r ∈ getToolResults E a ∧ ctr_id r = tool_call_id) ∧
  (∀ r, r ∈ getToolResults E a →
     ctr_name r =
       default "unknown" (findToolNameInMessages messages (ctr_id r)) ∧
     ((∀ m, m ∈ messages → ¬ declaresToolCall m (ctr_id r)) →
      findToolNameInMessages messages (ctr_id r) = None ∧
      ctr_name r = "unknown")).
Proof.
  intros messages.
  assert (Hfind : ∀ toolCallId,
    match findToolNameInMessages messages toolCallId with
    | Some name =>
        ∃ i asst tool_calls pre tc post,
          messages !! i = Some (AssistantMessage asst) ∧
          asst_tool_calls asst = Some tool_calls ∧
          tool_calls = pre ++ tc :: post ∧
          toolCall_id tc = toolCallId ∧ toolCall_name tc = name ∧
          Forall (λ t, toolCall_id t ≠ toolCallId) pre ∧
          ∀ j m, (i < j)%nat → messages !! j = Some m →
                 ¬ declaresToolCall m toolCallId
    | None => ∀ m, m ∈ messages → ¬ declaresToolCall m toolCallId
    end).
  { intros toolCallId. unfold findToolNameInMessages.
    destruct (findToolNameFrom messages toolCallId (length messages))
      as [name|] eqn:Hres.
    - apply findToolNameFrom_Some in Hres
        as (i & asst & tcs & Hi & Hm & Htcs & Hcalls & Hlater).
      apply findToolNameInCalls_Some in Hcalls
        as (pre & tc & post & -> & Hid & Hnm & Hpre).
      exists i, asst, (pre ++ tc :: post), pre, tc, post.
      repeat split; try done.
      intros j m Hj Hjm. apply (Hlater j m); [|done].
      apply lookup_lt_Some in Hjm. lia.
    - intros m Hin. apply list_elem_of_lookup in Hin as [j Hj].
      apply (findToolNameFrom_None _ _ _ Hres j m); [|done].
      by apply lookup_lt_Some in Hj. }
  split; [exact Hfind|]. split.
  - intros content tool_call_id Hin.
    eexists. split; [apply getToolResults_elem; eauto|done].
  - intros r Hr. apply getToolResults_elem in Hr
      as (content & tool_call_id & Hin & ->). simpl.
    split; [done|]. intros Hnone.
    specialize (Hfind tool_call_id). fold messages.
    destruct (findToolNameInMessages messages tool_call_id) as [name|];
      [|done].
    destruct Hfind as (i & asst & tcs & pre & tc & post & Hm & Htcs & -> &
                       Hid & _).
    exfalso. apply (Hnone (AssistantMessage asst)).
    + apply list_elem_of_lookup. eauto.
    + exists asst, (pre ++ tc :: post), tc. repeat split; try done.
      apply elem_of_app. right. apply elem_of_cons. by left.
Qed.

(** ** Tool results never flag an error *)

(** C10. Every tool result the request adapter produces, through
    [getToolResults] or as a [toolCalls] entry of [getMessages], has
    [isError] false, whatever the messages contain. *)
Theorem tool_results_isError_false {Cost} (E : Externals Cost)
    (a : MiniMaxRequestAdapter) :
  (∀ r, r ∈ getToolResults E a → ctr_isError r = false) ∧
  (∀ m rs r, m ∈ getMessages E a → cm_toolCalls m = Some rs → r ∈ rs →
             ctr_isError r = false).
Proof.
  split.
  - intros r Hr. apply getToolResults_elem in Hr as (? & ? & _ & ->). done.
  - intros m rs r Hm Hrs Hr. unfold getMessages, toCommonFormat in Hm.
    apply list_elem_of_fmap in Hm as (msg & -> & _).
    destruct msg as [| | | |content tool_call_id|]; try discriminate.
    destruct (findToolNameInMessages _ _) as [toolName|]; [|discriminate].
    destruct (truthyStr toolName); [|discriminate].
    injection Hrs as <-. apply list_elem_of_singleton in Hr as ->. done.
Qed.

(** ** Round trip of an untouched request *)

Lemma request_eta (r : MiniMaxRequest) :
  {| req_model := req_model r; req_messages := req_messages r;
     req_tools := req_tools r; req_tool_choice := req_tool_choice r;
     req_temperature := req_temperature r;
     req_max_tokens := req_max_tokens r; req_stream := req_stream r;
     req_reasoning_split := req_reasoning_split r |} = r.
Proof. by destruct r. Qed.

Lemma toProviderRequest_fresh src (r : MiniMaxRequest) :
  toProviderRequest src (createRequestAdapter r) =
  {| req_model := req_model r; req_messages := req_messages r;
     req_tools := req_tools r; req_tool_choice := req_tool_choice r;
     req_temperature := req_temperature r;
     req_max_tokens := req_max_tokens r; req_stream := req_stream r;
     req_reasoning_split :=
       match src with
       | AdapterV2 => req_reasoning_split r
       | Part004 =>
           if includes (req_model r) "MiniMax-M2" then Some true
           else req_reasoning_split r
       end |}.
Proof. by destruct src. Qed.

(** C1, as stated, fails on the copy of the adapter in [unnamed/part_004]:
    the test suite's default request, whose model is ["MiniMax-M2"] and which
    has no [reasoning_split], comes back with [reasoning_split: true]. *)
Lemma round_trip_fails_part004 :
  toProviderRequest Part004 (createRequestAdapter helloRequest) ≠ helloRequest
  ∧ req_reasoning_split
      (toProviderRequest Part004 (createRequestAdapter helloRequest))
    = Some true.
Proof. split; [|reflexivity]. vm_compute. discriminate. Qed.

(** C1, amended. With no mutation invoked, [toProviderRequest] of
    [adapterV2/minimax.ts] returns a request equal to the one wrapped.  The
    copy in [unnamed/part_004] returns the wrapped request with
    [reasoning_split] forced to [true] when the model name contains
    ["MiniMax-M2"]; it equals the wrapped request exactly when the name does
    not contain ["MiniMax-M2"] or [reasoning_split] is already [true]. *)
Theorem round_trip_identity (r : MiniMaxRequest) :
  toProviderRequest AdapterV2 (createRequestAdapter r) = r ∧
  toProviderRequest Part004 (createRequestAdapter r) =
    {| req_model := req_model r; req_messages := req_messages r;
       req_tools := req_tools r; req_tool_choice := req_tool_choice r;
       req_temperature := req_temperature r;
       req_max_tokens := req_max_tokens r; req_stream := req_stream r;
       req_reasoning_split :=
         if includes (req_model r) "MiniMax-M2" then Some true
         else req_reasoning_split r |} ∧
  (toProviderRequest Part004 (createRequestAdapter r) = r ↔
   includes (req_model r) "MiniMax-M2" = false ∨
   req_reasoning_split r = Some true).
Proof.
  rewrite !toProviderRequest_fresh. split; [apply request_eta|].
  split; [done|].
  destruct r as [m ms ts tc te mt st rs]; simpl.
  destruct (includes m "MiniMax-M2"); split.
  - intros [= <-]. by right.
  - intros [?| ->]; done.
  - by left.
  - done.
Qed.

(** ** Error message extraction *)

Example extractErrorMessage_bad_key src :
  extractErrorMessage src badKeyError = Returns (JStr "bad key").
Proof. by destruct src. Qed.

Example extractErrorMessage_shadowed_toString :
  extractErrorMessage AdapterV2 shadowedToString = Throws ∧
  extractErrorMessage Part004 shadowedToString
    = Returns (JStr "Internal server error").
Proof. done. Qed.



(** ** Malformed tool-call arguments *)

(** C5. When the argument string of a tool call of the response is not
    valid JSON, [getToolCalls] still returns one entry per tool call, and
    the entry of that call carries its id and name unchanged and the empty
    object as arguments. *)
Theorem getToolCalls_malformed_arguments {Cost} (E : Externals Cost)
    (response : MiniMaxResponse) (choice : Choice)
    (tool_calls : list ToolCall) (k : nat) (tc : ToolCall) :
  resp_choices response !! 0%nat = Some choice →
  rm_tool_calls (choice_message choice) = Some tool_calls →
  tool_calls !! k = Some tc →
  JSON_parse E (toolCall_payload tc) = None →
  length (getToolCalls E response) = length tool_calls ∧
  getToolCalls E response !! k =
    Some {| ctc_id := toolCall_id tc; ctc_name := toolCall_name tc;
            ctc_arguments := JObj [] |}.
Proof.
  intros Hchoice Hcalls Hk Hparse. unfold getToolCalls.
  rewrite Hchoice, Hcalls. split; [apply length_map|].
  rewrite list_lookup_fmap, Hk. simpl.
  destruct tc; simpl in *; by rewrite Hparse.
Qed.

Lemma getToolCalls_malformed_arguments_witness :
  length (getToolCalls refEnv brokenToolResponse) = 1%nat ∧
  getToolCalls refEnv brokenToolResponse !! 0%nat =
    Some {| ctc_id := "call_789"; ctc_name := "broken_tool";
            ctc_arguments := JObj [] |}.
Proof.
  apply (getToolCalls_malformed_arguments refEnv brokenToolResponse
           {| choice_index := 0;
              choice_message :=
                {| rm_refusal := Some None;
                   rm_role := "assistant";
                   rm_content := None;
                   rm_tool_calls :=
                     Some [FunctionToolCall "call_789" "invalid json{"
                             "broken_tool"];
                   rm_reasoning_details := None |};
              choice_logprobs := JNull;
              choice_finish_reason := "tool_calls" |}
           [FunctionToolCall "call_789" "invalid json{" "broken_tool"]
           0%nat
           (FunctionToolCall "call_789" "invalid json{" "broken_tool"));
    reflexivity.
Defined.

(** ** TOON compression *)

Section CompressionFacts.
Context {Cost : Type} (E : Externals Cost).

Lemma convertToolResultsToToon_statsOf messages model :
  convertToolResultsToToon E messages model =
  match statsOf E model (compressMessages E messages noCounters).2 with
  | Returns stats =>
      Returns ((compressMessages E messages noCounters).1, stats)
  | Throws => Throws
  end.
Proof.
  unfold convertToolResultsToToon, statsOf, noCounters.
  destruct (compressMessages E messages _) as [result c]; simpl.
  repeat case_bool_decide; try done.
  by destruct (findByModel E model) as [[p|]|].
Qed.

Lemma compressMessages_app l1 l2 c :
  compressMessages E (l1 ++ l2) c =
  ((compressMessages E l1 c).1 ++
     (compressMessages E l2 (compressMessages E l1 c).2).1,
   (compressMessages E l2 (compressMessages E l1 c).2).2).
Proof.
  revert c. induction l1 as [|m l1 IH]; intros c; simpl.
  - by destruct (compressMessages E l2 c).
  - destruct (compressMessage E m c) as [m' c1]. rewrite IH.
    destruct (compressMessages E l1 c1) as [r1 c2]; simpl.
    by destruct (compressMessages E l2 c2).
Qed.

Lemma compressMessages_length l c :
  length (compressMessages E l c).1 = length l.
Proof.
  revert c. induction l as [|m l IH]; intros c; simpl; [done|].
  destruct (compressMessage E m c) as [m' c1]. specialize (IH c1).
  destruct (compressMessages E l c1). simpl in *. by rewrite IH.
Qed.

Lemma tryCompress_not_json s :
  unwrapToolContent E s ≫= JSON_parse E = None → tryCompress E s = None.
Proof.
  unfold tryCompress. destruct (unwrapToolContent E s) as [u|]; simpl;
    [|done].
  by intros ->.
Qed.

Lemma tryCompress_compressesTo s compressed tb ta :
  tryCompress E s = Some (compressed, tb, ta) ↔
  compressesTo E s compressed tb ta.
Proof.
  unfold tryCompress, compressesTo. split.
  - intros Htry.
    destruct (unwrapToolContent E s) as [u|]; [|done]. simpl in Htry.
    destruct (JSON_parse E u) as [v|] eqn:Hv; [|done]. simpl in Htry.
    destruct (toonEncode E v) as [t|] eqn:Ht; [|done]. simpl in Htry.
    destruct (countTokens E u) as [b|] eqn:Hb; [|done]. simpl in Htry.
    destruct (countTokens E t) as [a|] eqn:Ha; [|done]. simpl in Htry.
    injection Htry as <- <- <-. by exists u, v.
  - intros (u & v & -> & Hv & Ht & Hb & Ha). simpl.
    rewrite Hv. simpl. rewrite Ht. simpl. rewrite Hb. simpl.
    by rewrite Ha.
Qed.

Lemma compressMessage_eligible m c :
  (eligible E m ∧
   toolResultCount (compressMessage E m c).2 = S (toolResultCount c)) ∨
  (¬ eligible E m ∧ compressMessage E m c = (m, c)).
Proof.
  destruct m as [| | | |[s|parts|member] tool_call_id|]; simpl;
    try (right; split; [by intros (? & ? & ? & ? & ? & [=] & _)|done]).
  destruct (tryCompress E s) as [[[compressed tb] ta]|] eqn:Htry.
  - left. split; [|done]. exists s, tool_call_id, compressed, tb, ta.
    split; [done|]. by apply tryCompress_compressesTo.
  - right. split; [|done].
    intros (s' & id' & t & b & a & [= <- <-] & Hto).
    apply tryCompress_compressesTo in Hto. by rewrite Htry in Hto.
Qed.

Lemma eligible_parsesAsJson m : eligible E m → parsesAsJson E m.
Proof.
  intros (s & i & t & b & a & -> & u & v & Hu & Hv & _).
  by exists s, i, u, v.
Qed.

Lemma compressMessages_count l c :
  (toolResultCount c ≤ toolResultCount (compressMessages E l c).2)%nat ∧
  (toolResultCount (compressMessages E l c).2 = toolResultCount c ↔
   ∀ m, m ∈ l → ¬ eligible E m).
Proof.
  revert c. induction l as [|m l IH]; intros c; simpl.
  - split; [lia|]. split; [|done]. intros _ m Hm.
    by apply elem_of_nil in Hm.
  - destruct (compressMessage_eligible m c) as [[Hel Hc]|[Hel Hc]];
      destruct (compressMessage E m c) as [m' c1]; simpl in *;
      destruct (IH c1) as [Hle Hiff];
      destruct (compressMessages E l c1) as [r c2]; simpl in *.
    + split; [lia|]. split; [lia|]. intros Hall. exfalso.
      apply (Hall m); [|done]. apply elem_of_cons. by left.
    + injection Hc as -> ->. split; [done|]. rewrite Hiff. split.
      * intros Hall m0 Hin. apply elem_of_cons in Hin as [->|Hin]; auto.
      * intros Hall m0 Hin. apply Hall, elem_of_cons. by right.
Qed.

Lemma statsOf_None model c stats :
  statsOf E model c = Returns stats →
  (toonTokensBefore stats = None ↔ toolResultCount c = 0%nat) ∧
  (toonTokensAfter stats = None ↔ toolResultCount c = 0%nat).
Proof.
  unfold statsOf. intros Hstats.
  assert (Hshape :
    toonTokensBefore stats =
      (if bool_decide (0 < toolResultCount c)%nat
       then Some (totalTokensBefore c) else None) ∧
    toonTokensAfter stats =
      (if bool_decide (0 < toolResultCount c)%nat
       then Some (totalTokensAfter c) else None)).
  { repeat case_bool_decide;
      try (injection Hstats as <-; simpl; repeat case_bool_decide;
           done || lia).
    destruct (findByModel E model) as [[p|]|]; try done;
      injection Hstats as <-; simpl; repeat case_bool_decide;
      done || lia. }
  destruct Hshape as [-> ->].
  case_bool_decide; split; split; try done; lia.
Qed.

Lemma statsOf_Throws model c :
  statsOf E model c = Throws → findByModel E model = Throws.
Proof.
  unfold statsOf. repeat case_bool_decide; try done.
  by destruct (findByModel E model) as [[p|]|].
Qed.

(** C7. When [applyToonCompression] resolves: a tool message whose string
    content does not parse as JSON after unwrapping keeps its place and
    its content, and the reported totals are those of the same request
    without that message; [tokensBefore] and [tokensAfter] are [null]
    exactly when no tool message was eligible, that is, had a string
    content that parses as JSON after unwrapping and that the encoder and
    the tokenizer accept.  When the encoder and the tokenizer raise no
    exception on the tool results of the request, they are [null] exactly
    when no tool message has a string content that parses as JSON after
    unwrapping.  The call rejects only when the price lookup does. *)
Theorem toon_compression_safety (model : string)
    (a : MiniMaxRequestAdapter) :
  match applyToonCompression E model a with
  | Returns (a', res) =>
      (∀ pre s tool_call_id post,
         req_messages (request a) =
           pre ++ ToolMessage (ContentString s) tool_call_id :: post →
         unwrapToolContent E s ≫= JSON_parse E = None →
         ∃ pre' post' a'',
           req_messages (request a') =
             pre' ++ ToolMessage (ContentString s) tool_call_id :: post' ∧
           length pre' = length pre ∧
           applyToonCompression E model (with_messages (pre ++ post) a) =
             Returns (a'', res) ∧
           req_messages (request a'') = pre' ++ post') ∧
      (tokensBefore res = None ↔
       ∀ m, m ∈ req_messages (request a) → ¬ eligible E m) ∧
      (tokensAfter res = None ↔
       ∀ m, m ∈ req_messages (request a) → ¬ eligible E m) ∧
      ((∀ m, m ∈ req_messages (request a) →
             parsesAsJson E m → eligible E m) →
       (tokensBefore res = None ↔
        ∀ m, m ∈ req_messages (request a) → ¬ parsesAsJson E m) ∧
       (tokensAfter res = None ↔
        ∀ m, m ∈ req_messages (request a) → ¬ parsesAsJson E m))
  | Throws => findByModel E model = Throws
  end.
Proof.
  unfold applyToonCompression.
  rewrite convertToolResultsToToon_statsOf.
  destruct (statsOf E model _) as [stats|] eqn:Hstats;
    [|by apply statsOf_Throws in Hstats].
  simpl. split.
  - intros pre s tool_call_id post Hmsgs Hparse.
    remember (ToolMessage (ContentString s) tool_call_id) as m eqn:Heqm.
    assert (Hm : ∀ c, compressMessage E m c = (m, c)).
    { intros c. rewrite Heqm; simpl.
      by rewrite (tryCompress_not_json _ Hparse). }
    assert (Hsplit : ∀ c, compressMessages E (m :: post) c =
              ((m :: (compressMessages E post c).1),
               (compressMessages E post c).2)).
    { intros c. simpl. rewrite Hm.
      by destruct (compressMessages E post c). }
    rewrite Hmsgs, compressMessages_app, Hsplit in Hstats |- *.
    simpl in Hstats |- *.
    eexists _, _, _. split; [done|].
    split; [apply compressMessages_length|].
    rewrite convertToolResultsToToon_statsOf, compressMessages_app.
    simpl. rewrite Hstats. split; [done|]. done.
  - destruct (statsOf_None _ _ _ Hstats) as [Hb Ha]. simpl.
    rewrite Hb, Ha.
    destruct (compressMessages_count (req_messages (request a)) noCounters)
      as [_ Hiff].
    simpl in Hiff. rewrite Hiff. split; [done|]. split; [done|].
    intros Henc.
    assert (Hsame :
      (∀ m, m ∈ req_messages (request a) → ¬ eligible E m) ↔
      (∀ m, m ∈ req_messages (request a) → ¬ parsesAsJson E m)).
    { split.
      - intros Hnone m Hin Hparse. by apply (Hnone m Hin), Henc.
      - intros Hnone m Hin Hel.
        by apply (Hnone m Hin), eligible_parsesAsJson. }
    by rewrite Hsame.
Qed.

End CompressionFacts.
Example applyToonCompression_toolResultsRequest :
  match applyToonCompression refEnv "MiniMax-M2"
          (createRequestAdapter toolResultsRequest) with
  | Returns (a', res) =>
      req_messages (request a') !! 2%nat =
        Some (ToolMessage (ContentString "temperature: 72") "call_123") ∧
      req_messages (request a') !! 3%nat =
        Some (ToolMessage (ContentString "sunny, no JSON here") "call_124") ∧
      res = {| tokensBefore := Some 19%Z; tokensAfter := Some 15%Z;
               costSavings := None |}
  | Throws => False
  end.
Proof. vm_compute. done. Qed.

(** ** The request held by the adapter *)

(** C8, as stated, fails: [applyToonCompression] replaces the held request,
    so after it [getOriginalRequest] returns a request whose tool result
    [{"temperature": 72}] has become [temperature: 72]. *)
Lemma getOriginalRequest_after_compression :
  getOriginalRequest
    (afterCalls refEnv (createRequestAdapter toolResultsRequest)
       [CallApplyToonCompression "MiniMax-M2"]) ≠ toolResultsRequest ∧
  req_messages
    (getOriginalRequest
       (afterCalls refEnv (createRequestAdapter toolResultsRequest)
          [CallApplyToonCompression "MiniMax-M2"])) !! 2%nat =
    Some (ToolMessage (ContentString "temperature: 72") "call_123").
Proof. split; [|reflexivity]. vm_compute. discriminate. Qed.

Section HeldRequest.
Context {Cost : Type} (E : Externals Cost).

Lemma compressMessages_roles l c :
  role <$> (compressMessages E l c).1 = role <$> l.
Proof.
  revert c. induction l as [|m l IH]; intros c; simpl; [done|].
  assert (Hrole : role (compressMessage E m c).1 = role m).
  { destruct m as [| | | |[s|parts|member] tool_call_id|]; simpl; try done.
    by destruct (tryCompress E s) as [[[? ?] ?]|]. }
  destruct (compressMessage E m c) as [m' c1]. specialize (IH c1).
  destruct (compressMessages E l c1). csimpl in *. by rewrite Hrole, IH.
Qed.

Lemma applyToonCompression_request model a a' res :
  applyToonCompression E model a = Returns (a', res) →
  a' = with_messages (compressMessages E (req_messages (request a))
                        noCounters).1 a.
Proof.
  unfold applyToonCompression.
  rewrite convertToolResultsToToon_statsOf.
  destruct (statsOf E model _); [|done]. by intros [= <- _].
Qed.

(** What a call can change of the held request. *)
Lemma afterCall_request a call :
  (isCompression call = false → request (afterCall E a call) = request a) ∧
  req_model (request (afterCall E a call)) = req_model (request a) ∧
  req_tools (request (afterCall E a call)) = req_tools (request a) ∧
  req_tool_choice (request (afterCall E a call)) =
    req_tool_choice (request a) ∧
  req_temperature (request (afterCall E a call)) =
    req_temperature (request a) ∧
  req_max_tokens (request (afterCall E a call)) =
    req_max_tokens (request a) ∧
  req_stream (request (afterCall E a call)) = req_stream (request a) ∧
  req_reasoning_split (request (afterCall E a call)) =
    req_reasoning_split (request a) ∧
  role <$> req_messages (request (afterCall E a call)) =
    role <$> req_messages (request a).
Proof.
  destruct call as [m|i c| |m]; simpl; try done.
  split; [done|].
  destruct (applyToonCompression E m a) as [[a' res]|] eqn:Happly; [|done].
  apply applyToonCompression_request in Happly as ->. simpl.
  repeat split; try done. apply compressMessages_roles.
Qed.

(** C8, amended. After any sequence of [setModel], [updateToolResult] and
    [toProviderRequest] calls [getOriginalRequest] returns the request
    passed to the constructor.  [applyToonCompression] replaces the held
    request by a copy whose messages are the compressed messages; whatever
    the calls, every field other than [messages] is the constructor's, and
    the messages keep their number and their roles. *)
Theorem getOriginalRequest_frame (r : MiniMaxRequest)
    (calls : list RequestCall) :
  let a := afterCalls E (createRequestAdapter r) calls in
  (forallb (λ call, negb (isCompression call)) calls = true →
   getOriginalRequest a = r) ∧
  (req_model (getOriginalRequest a) = req_model r ∧
   req_tools (getOriginalRequest a) = req_tools r ∧
   req_tool_choice (getOriginalRequest a) = req_tool_choice r ∧
   req_temperature (getOriginalRequest a) = req_temperature r ∧
   req_max_tokens (getOriginalRequest a) = req_max_tokens r ∧
   req_stream (getOriginalRequest a) = req_stream r ∧
   req_reasoning_split (getOriginalRequest a) = req_reasoning_split r ∧
   role <$> req_messages (getOriginalRequest a) = role <$> req_messages r) ∧
  (∀ a0 model a' res,
     applyToonCompression E model a0 = Returns (a', res) →
     getOriginalRequest a' =
       request (with_messages
                  (compressMessages E (req_messages (request a0))
                     noCounters).1 a0)).
Proof.
  intros a. unfold getOriginalRequest.
  assert (Hgen : ∀ a0,
    (forallb (λ call, negb (isCompression call)) calls = true →
     request (afterCalls E a0 calls) = request a0) ∧
    req_model (request (afterCalls E a0 calls)) = req_model (request a0) ∧
    req_tools (request (afterCalls E a0 calls)) = req_tools (request a0) ∧
    req_tool_choice (request (afterCalls E a0 calls)) =
      req_tool_choice (request a0) ∧
    req_temperature (request (afterCalls E a0 calls)) =
      req_temperature (request a0) ∧
    req_max_tokens (request (afterCalls E a0 calls)) =
      req_max_tokens (request a0) ∧
    req_stream (request (afterCalls E a0 calls)) =
      req_stream (request a0) ∧
    req_reasoning_split (request (afterCalls E a0 calls)) =
      req_reasoning_split (request a0) ∧
    role <$> req_messages (request (afterCalls E a0 calls)) =
      role <$> req_messages (request a0)).
  { unfold afterCalls. induction calls as [|call rest IH]; intros a0;
      simpl; [done|].
    destruct (IH (afterCall E a0 call))
      as (H0 & H1 & H2 & H3 & H4 & H5 & H6 & H7 & H8).
    destruct (afterCall_request a0 call)
      as (G0 & G1 & G2 & G3 & G4 & G5 & G6 & G7 & G8).
    rewrite H1, H2, H3, H4, H5, H6, H7, H8.
    split; [|done].
    intros [Hc Hrest]%andb_prop. rewrite (H0 Hrest). apply G0.
    by destruct (isCompression call). }
  destruct (Hgen (createRequestAdapter r)) as [H0 H].
  split; [exact H0|]. split; [exact H|].
  intros a0 model a' res Happly.
  by apply applyToonCompression_request in Happly as ->.
Qed.

End HeldRequest.

(** ** Stream accumulation *)

Example weatherStream_run src :
  let run := processChunks refEnv src (createStreamAdapter 990) weatherStream in
  isFinal <$> run.2 = [false; false; false; false; true] ∧
  rm_tool_calls <$> (choice_message <$>
    resp_choices (toProviderResponse src 2000 run.1)) =
    [Some [FunctionToolCall "call_1"
             ("{" +:+ quoted "location" +:+ ":" +:+ quoted "NY" +:+ "}")
             "get_weather"]] ∧
  resp_usage (toProviderResponse src 2000 run.1) =
    Some {| prompt_tokens := 12; completion_tokens := 7;
            total_tokens := 19 |}.
Proof. destruct src; vm_compute; done. Qed.

Lemma processToolCallDelta_fresh a d :
  currentToolCallIndices a !! tcd_index d = None →
  processToolCallDelta a d =
  {| state :=
       set_toolCalls
         (toolCalls (state a) ++
          [ applyToolCallDelta d
              {| acc_id := default "" (tcd_id d);
                 acc_name := default "" (tcd_function d ≫= tcf_name);
                 acc_arguments := "" |} ])
         (state a);
     currentToolCallIndices :=
       <[tcd_index d := length (toolCalls (state a))]>
         (currentToolCallIndices a) |}.
Proof.
  intros Hnew. unfold processToolCallDelta. rewrite Hnew.
  cbn [currentToolCallIndices state]. rewrite lookup_insert_eq.
  cbn [toolCalls set_toolCalls].
  replace (length (toolCalls (state a)))
    with (length (toolCalls (state a)) + 0)%nat at 1 by lia.
  by rewrite alter_app_r.
Qed.

Lemma processToolCallDelta_known a d k :
  currentToolCallIndices a !! tcd_index d = Some k →
  processToolCallDelta a d =
  {| state :=
       set_toolCalls
         (alter (applyToolCallDelta d) k (toolCalls (state a))) (state a);
     currentToolCallIndices := currentToolCallIndices a |}.
Proof. intros Hk. unfold processToolCallDelta. by rewrite Hk, Hk. Qed.

Lemma processToolCallDelta_in_range a d :
  indicesInRange a → indicesInRange (processToolCallDelta a d).
Proof.
  intros Hrange index k.
  destruct (currentToolCallIndices a !! tcd_index d) as [k0|] eqn:Hd.
  - rewrite (processToolCallDelta_known _ _ _ Hd). simpl.
    rewrite length_alter. apply Hrange.
  - rewrite (processToolCallDelta_fresh _ _ Hd). simpl.
    rewrite length_app. simpl.
    destruct (decide (tcd_index d = index)) as [->|Hne].
    + rewrite lookup_insert_eq. intros [= <-]. lia.
    + rewrite lookup_insert_ne by done. intros Hk%Hrange. lia.
Qed.

Lemma state_eta (s : StreamAccumulatorState) :
  set_toolCalls (toolCalls s) s = s ∧ set_reasoning (reasoning s) s = s.
Proof. by destruct s. Qed.

Lemma processToolCallDelta_shape a d :
  ∃ L M, processToolCallDelta a d =
         {| state := set_toolCalls L (state a);
            currentToolCallIndices := M |}.
Proof.
  destruct (currentToolCallIndices a !! tcd_index d) as [k|] eqn:Hd.
  - rewrite (processToolCallDelta_known _ _ _ Hd). eauto.
  - rewrite (processToolCallDelta_fresh _ _ Hd). eauto.
Qed.

Lemma foldl_processToolCallDelta_shape ds a :
  ∃ L M, foldl processToolCallDelta a ds =
         {| state := set_toolCalls L (state a);
            currentToolCallIndices := M |}.
Proof.
  revert a. induction ds as [|d ds IH]; intros a; simpl.
  - exists (toolCalls (state a)), (currentToolCallIndices a).
    rewrite (proj1 (state_eta _)). by destruct a.
  - destruct (processToolCallDelta_shape a d) as (L & M & ->).
    destruct (IH {| state := set_toolCalls L (state a);
                    currentToolCallIndices := M |}) as (L' & M' & ->).
    by exists L', M'.
Qed.

Lemma foldl_processToolCallDelta_in_range ds a :
  indicesInRange a → indicesInRange (foldl processToolCallDelta a ds).
Proof.
  revert a. induction ds as [|d ds IH]; intros a Ha; simpl; [done|].
  by apply IH, processToolCallDelta_in_range.
Qed.

Section StreamFacts.
Context {Cost : Type} (E : Externals Cost).

Lemma handleReasoning_shape src chunk delta s sse :
  ∃ ro, (handleReasoning E src chunk delta (s, sse)).1 = set_reasoning ro s.
Proof.
  unfold handleReasoning.
  destruct (delta_reasoning_details delta) as [details|]; simpl;
    [|exists (reasoning s); by rewrite (proj2 (state_eta _))].
  destruct src; simpl;
    [exists (reasoning s); by rewrite (proj2 (state_eta _))|].
  assert (Hgen : ∀ ro sse0, ∃ ro',
    (foldl (λ (acc : StreamAccumulatorState * option string) detailed,
       match rd_text detailed with
       | Some t =>
           if truthyStr t then
             (set_reasoning
                (Some ((match reasoning acc.1 with
                        | Some r => r
                        | None => ""
                        end) +:+ t)) acc.1,
              if truthyOptStr acc.2 then acc.2
              else Some (sseFrame E chunk))
           else acc
       | None => acc
       end) (set_reasoning ro s, sse0) details).1 = set_reasoning ro' s).
  { induction details as [|d details IH]; intros ro sse0; simpl; [eauto|].
    destruct (rd_text d) as [t|]; [|apply IH].
    destruct (truthyStr t); [|apply IH]. apply IH. }
  destruct (Hgen (reasoning s) sse) as [ro' Hro'].
  rewrite (proj2 (state_eta _)) in Hro'. eauto.
Qed.

(** What one chunk does to the recorded usage, and how [isFinal] is
    read off the state the call leaves. *)
Lemma processChunk_usage src now a chunk :
  usage (state (processChunk E src now a chunk).1) =
    match chunk_usage chunk with
    | Some u =>
        Some {| inputTokens := default 0%Z (cu_prompt_tokens u);
                outputTokens := default 0%Z (cu_completion_tokens u) |}
    | None => usage (state a)
    end ∧
  isFinal (processChunk E src now a chunk).2 =
    hasUsage (state (processChunk E src now a chunk).1).
Proof.
  unfold processChunk.
  set (s1 := match firstChunkTime (timing (state a)) with
             | None => _ | Some _ => _ end).
  assert (Hs1 : usage s1 = usage (state a)).
  { unfold s1. by destruct (firstChunkTime (timing (state a))). }
  set (s3 := match chunk_usage chunk with
             | Some u => _ | None => _ end).
  assert (Hs3 : usage s3 =
                match chunk_usage chunk with
                | Some u =>
                    Some {| inputTokens := default 0%Z (cu_prompt_tokens u);
                            outputTokens :=
                              default 0%Z (cu_completion_tokens u) |}
                | None => usage (state a)
                end).
  { unfold s3. by destruct (chunk_usage chunk). }
  clearbody s3. clear s1 Hs1.
  destruct (chunk_choices chunk !! 0%nat) as [choice|]; [|done].
  set (r4 := match delta_content (cc_delta choice) with
             | Some content => _ | None => _ end).
  assert (Hr4 : usage r4.1 = usage s3).
  { unfold r4. destruct (delta_content (cc_delta choice)) as [c|]; [|done].
    by destruct (truthyStr c). }
  destruct r4 as [s4 sse4]. simpl in Hr4.
  destruct (handleReasoning_shape src chunk (cc_delta choice) s4 sse4)
    as [ro Hro].
  destruct (handleReasoning E src chunk (cc_delta choice) (s4, sse4))
    as [s5 sse5]. simpl in Hro. subst s5.
  destruct (delta_tool_calls (cc_delta choice)) as [tcs|].
  - destruct (foldl_processToolCallDelta_shape tcs
                {| state := set_reasoning ro s4;
                   currentToolCallIndices := currentToolCallIndices a |})
      as (L & M & ->).
    simpl. rewrite <- Hs3, <- Hr4.
    destruct (cc_finish_reason choice) as [r|]; [|done].
    by destruct (truthyStr r).
  - simpl. rewrite <- Hs3, <- Hr4.
    destruct (cc_finish_reason choice) as [r|]; [|done].
    by destruct (truthyStr r).
Qed.

End StreamFacts.

Section Finality.
Context {Cost : Type} (E : Externals Cost).

Lemma processChunks_cons src a now chunk rest :
  processChunks E src a ((now, chunk) :: rest) =
  ((processChunks E src (processChunk E src now a chunk).1 rest).1,
   (processChunk E src now a chunk).2 ::
     (processChunks E src (processChunk E src now a chunk).1 rest).2).
Proof.
  cbn [processChunks].
  destruct (processChunk E src now a chunk) as [a1 r]. simpl.
  by destruct (processChunks E src a1 rest).
Qed.

Lemma processChunks_length src a chunks :
  length (processChunks E src a chunks).2 = length chunks.
Proof.
  revert a. induction chunks as [|[now chunk] rest IH]; intros a; [done|].
  rewrite processChunks_cons. simpl. by rewrite IH.
Qed.

Lemma hasUsage_step src now a chunk :
  hasUsage (state (processChunk E src now a chunk).1) =
  hasUsage (state a) || carriesUsage chunk.
Proof.
  unfold hasUsage, carriesUsage.
  rewrite (proj1 (processChunk_usage E src now a chunk)).
  destruct (chunk_usage chunk); [by rewrite orb_true_r|].
  by rewrite orb_false_r.
Qed.

Lemma isFinal_processChunks src a chunks k r :
  (processChunks E src a chunks).2 !! k = Some r →
  isFinal r =
    hasUsage (state a) ||
    existsb (λ c, carriesUsage c.2) (take (S k) chunks).
Proof.
  revert a k. induction chunks as [|[now chunk] rest IH]; intros a k;
    [done|].
  rewrite processChunks_cons. simpl. destruct k as [|k]; simpl.
  - intros [= <-].
    rewrite (proj2 (processChunk_usage E src now a chunk)), hasUsage_step.
    by rewrite orb_false_r.
  - intros Hr. rewrite (IH _ _ Hr), hasUsage_step. by rewrite orb_assoc.
Qed.

(** C2. Fed to a fresh stream adapter, every chunk yields a result; the
    result of a chunk has [isFinal] false when no chunk up to and
    including it carried usage, whatever finish reasons were seen, and
    true when that chunk or an earlier one carried usage. *)
Theorem finality_condition (src : SourceFile) (t0 : Z)
    (chunks : list (Z * MiniMaxStreamChunk)) :
  let results :=
    (processChunks E src (createStreamAdapter t0) chunks).2 in
  length results = length chunks ∧
  (∀ k r,
     results !! k = Some r →
     (∀ j c, (j ≤ k)%nat → chunks !! j = Some c →
             carriesUsage c.2 = false) →
     isFinal r = false) ∧
  (∀ k r j c,
     results !! k = Some r →
     (j ≤ k)%nat → chunks !! j = Some c → carriesUsage c.2 = true →
     isFinal r = true).
Proof.
  intros results. split; [apply processChunks_length|]. split.
  - intros k r Hr Hnone.
    rewrite (isFinal_processChunks _ _ _ _ _ Hr). simpl.
    apply not_true_is_false. intros Hex.
    apply existsb_exists in Hex as (c & Hin & Hc).
    apply list_elem_of_In, list_elem_of_lookup in Hin as [j Hj].
    apply lookup_take_Some in Hj as [Hj Hlt].
    rewrite (Hnone j c) in Hc; [done|lia|done].
  - intros k r j c Hr Hle Hj Hc.
    rewrite (isFinal_processChunks _ _ _ _ _ Hr). simpl.
    apply existsb_exists. exists c. split; [|done].
    apply list_elem_of_In, list_elem_of_lookup. exists j.
    apply lookup_take_Some. split; [done|lia].
Qed.

End Finality.

(** ** The end-to-end scenario *)

Lemma append_nil_r (s : string) : s +:+ "" = s.
Proof.
  induction s as [|c s IH]; [done|].
  change (String c (s +:+ "") = String c s). by rewrite IH.
Qed.

Lemma append_assoc (s1 s2 s3 : string) :
  (s1 +:+ s2) +:+ s3 = s1 +:+ s2 +:+ s3.
Proof.
  induction s1 as [|c s1 IH]; [done|].
  change (String c ((s1 +:+ s2) +:+ s3) = String c (s1 +:+ s2 +:+ s3)).
  by rewrite IH.
Qed.

(** Deltas append to the argument text. *)
Lemma applyToolCallDelta_arguments d tc :
  acc_arguments (applyToolCallDelta d tc) =
  acc_arguments tc +:+ default "" (tcd_function d ≫= tcf_arguments).
Proof.
  unfold applyToolCallDelta. simpl.
  destruct (tcd_function d ≫= tcf_arguments) as [args|]; simpl;
    [|by rewrite append_nil_r].
  unfold truthyStr. destruct (String.eqb args "") eqn:Hargs; [|done].
  apply String.eqb_eq in Hargs as ->. by rewrite append_nil_r.
Qed.

Section Scenario.
Context {Cost : Type} (E : Externals Cost).

Lemma processChunk_toolCallChunk src now a i m created d :
  ∃ a5,
    toolCalls (state a5) = toolCalls (state a) ∧
    currentToolCallIndices a5 = currentToolCallIndices a ∧
    usage (state a5) = usage (state a) ∧
    toolCalls
      (state (processChunk E src now a (toolCallChunk i m created d)).1) =
      toolCalls (state (processToolCallDelta a5 d)) ∧
    currentToolCallIndices
      (processChunk E src now a (toolCallChunk i m created d)).1 =
      currentToolCallIndices (processToolCallDelta a5 d).
Proof.
  eexists {| state := _; currentToolCallIndices := _ |}.
  split; [|split; [|split; [|split]]];
    [| | |destruct src; reflexivity..]; simpl;
    [|done|]; by destruct (firstChunkTime (timing (state a))).
Qed.

(** The first chunk of a tool call allocates its accumulator entry. *)
Lemma toolCallChunk_opens src now a i m created d :
  currentToolCallIndices a !! tcd_index d = None →
  let a' := (processChunk E src now a (toolCallChunk i m created d)).1 in
  toolCalls (state a') =
    toolCalls (state a) ++
    [ applyToolCallDelta d
        {| acc_id := default "" (tcd_id d);
           acc_name := default "" (tcd_function d ≫= tcf_name);
           acc_arguments := "" |} ] ∧
  currentToolCallIndices a' =
    <[tcd_index d := length (toolCalls (state a))]>
      (currentToolCallIndices a) ∧
  usage (state a') = usage (state a).
Proof.
  intros Hnew a'.
  destruct (processChunk_toolCallChunk src now a i m created d)
    as (a5 & Htc & Hix & Hus & Htc' & Hix').
  unfold a'. split; [|split].
  - rewrite Htc', processToolCallDelta_fresh by (by rewrite Hix).
    simpl. by rewrite Htc.
  - rewrite Hix', processToolCallDelta_fresh by (by rewrite Hix).
    simpl. by rewrite Htc, Hix.
  - by rewrite (proj1 (processChunk_usage E src now a _)).
Qed.

(** A later chunk for the same stream index updates that entry. *)
Lemma toolCallChunk_continues src now a i m created d k :
  currentToolCallIndices a !! tcd_index d = Some k →
  let a' := (processChunk E src now a (toolCallChunk i m created d)).1 in
  toolCalls (state a') =
    alter (applyToolCallDelta d) k (toolCalls (state a)) ∧
  currentToolCallIndices a' = currentToolCallIndices a ∧
  usage (state a') = usage (state a).
Proof.
  intros Hk a'.
  destruct (processChunk_toolCallChunk src now a i m created d)
    as (a5 & Htc & Hix & Hus & Htc' & Hix').
  unfold a'. split; [|split].
  - rewrite Htc', (processToolCallDelta_known _ _ k) by (by rewrite Hix).
    simpl. by rewrite Htc.
  - rewrite Hix', (processToolCallDelta_known _ _ k) by (by rewrite Hix).
    simpl. by rewrite Hix.
  - by rewrite (proj1 (processChunk_usage E src now a _)).
Qed.

Lemma finishChunk_keeps src now a i m created reason :
  let a' :=
    (processChunk E src now a (finishChunk i m created reason)).1 in
  toolCalls (state a') = toolCalls (state a) ∧
  usage (state a') = usage (state a).
Proof.
  intros a'. split.
  - unfold a'. destruct src; simpl;
      destruct (truthyStr reason); simpl;
      by destruct (firstChunkTime (timing (state a))).
  - unfold a'. by rewrite (proj1 (processChunk_usage E src now a _)).
Qed.

Lemma usageChunk_records src now a i m created u :
  let a' := (processChunk E src now a (usageChunkOf i m created u)).1 in
  toolCalls (state a') = toolCalls (state a) ∧
  usage (state a') =
    Some {| inputTokens := default 0%Z (cu_prompt_tokens u);
            outputTokens := default 0%Z (cu_completion_tokens u) |}.
Proof.
  intros a'. split.
  - unfold a'. simpl. by destruct (firstChunkTime (timing (state a))).
  - unfold a'. by rewrite (proj1 (processChunk_usage E src now a _)).
Qed.

Lemma toProviderResponse_view src now a :
  rm_tool_calls <$>
    (choice_message <$> resp_choices (toProviderResponse src now a)) =
    [ if bool_decide (0 < length (toolCalls (state a)))%nat
      then Some (map (λ tc, FunctionToolCall (acc_id tc) (acc_arguments tc)
                              (acc_name tc)) (toolCalls (state a)))
      else None ] ∧
  resp_usage (toProviderResponse src now a) =
    Some {| prompt_tokens :=
              match usage (state a) with
              | Some u => inputTokens u | None => 0 end;
            completion_tokens :=
              match usage (state a) with
              | Some u => outputTokens u | None => 0 end;
            total_tokens :=
              (match usage (state a) with
               | Some u => inputTokens u | None => 0 end) +
              (match usage (state a) with
               | Some u => outputTokens u | None => 0 end) |}.
Proof. done. Qed.

(** C3, amended. A fresh adapter is fed three chunks that bring argument
    fragments [f1], [f2], [f3] for one tool-call index, then a chunk with a
    finish reason, then a chunk with a usage object [u] and no choice.
    Only the last chunk is reported final, and the synthesized response
    holds exactly one tool call, whose arguments are [f1 f2 f3] in that
    order.  Its usage has the prompt and completion counters of [u], zero
    for a missing one, and their sum as [total_tokens]: it is the usage of
    the chunk exactly when the chunk's total is that sum. *)
Theorem tool_call_fragments_scenario (src : SourceFile)
    (t0 t1 t2 t3 t4 t5 now : Z) (i m : string) (created : Z)
    (index : Z) (callId name f1 f2 f3 reason : string) (u : ChunkUsage) :
  let chunks :=
    [ (t1, toolCallChunk i m created (openingDelta index callId name f1));
      (t2, toolCallChunk i m created (fragmentDelta index f2));
      (t3, toolCallChunk i m created (fragmentDelta index f3));
      (t4, finishChunk i m created reason);
      (t5, usageChunkOf i m created u) ] in
  let run := processChunks E src (createStreamAdapter t0) chunks in
  isFinal <$> run.2 = [false; false; false; false; true] ∧
  rm_tool_calls <$>
    (choice_message <$>
       resp_choices (toProviderResponse src now run.1)) =
    [Some [FunctionToolCall callId (f1 +:+ f2 +:+ f3) name]] ∧
  resp_usage (toProviderResponse src now run.1) =
    Some {| prompt_tokens := default 0%Z (cu_prompt_tokens u);
            completion_tokens := default 0%Z (cu_completion_tokens u);
            total_tokens :=
              (default 0 (cu_prompt_tokens u) +
               default 0 (cu_completion_tokens u))%Z |} ∧
  (∀ p c t,
     u = {| cu_prompt_tokens := Some p; cu_completion_tokens := Some c;
            cu_total_tokens := Some t |} →
     (resp_usage (toProviderResponse src now run.1) =
        Some {| prompt_tokens := p; completion_tokens := c;
                total_tokens := t |} ↔
      t = (p + c)%Z)).
Proof.
  intros chunks run. unfold run, chunks.
  rewrite !processChunks_cons. cbn [fst snd processChunks].
  rewrite !fmap_cons, !(proj2 (processChunk_usage E src _ _ _)).
  assert (H0 : toolCalls (state (createStreamAdapter t0)) = [] ∧
               currentToolCallIndices (createStreamAdapter t0) = ∅ ∧
               usage (state (createStreamAdapter t0)) = None) by done.
  destruct H0 as (Htc0 & Hix0 & Hus0).
  set (a0 := createStreamAdapter t0) in *. clearbody a0.
  destruct (toolCallChunk_opens src t1 a0 i m created
              (openingDelta index callId name f1))
    as (Htc1 & Hix1 & Hus1); [by rewrite Hix0|].
  rewrite Htc0, Hix0 in *. rewrite Hus0 in Hus1.
  set (a1 := (processChunk E src t1 a0 _).1) in *. clearbody a1.
  destruct (toolCallChunk_continues src t2 a1 i m created
              (fragmentDelta index f2) 0)
    as (Htc2 & Hix2 & Hus2); [rewrite Hix1; apply lookup_insert_eq|].
  rewrite Htc1, Hix1 in *. rewrite Hus1 in Hus2.
  set (a2 := (processChunk E src t2 a1 _).1) in *. clearbody a2.
  destruct (toolCallChunk_continues src t3 a2 i m created
              (fragmentDelta index f3) 0)
    as (Htc3 & Hix3 & Hus3); [rewrite Hix2; apply lookup_insert_eq|].
  rewrite Htc2, Hix2 in *. rewrite Hus2 in Hus3.
  set (a3 := (processChunk E src t3 a2 _).1) in *. clearbody a3.
  destruct (finishChunk_keeps src t4 a3 i m created reason)
    as (Htc4 & Hus4).
  rewrite Htc3 in Htc4. rewrite Hus3 in Hus4.
  set (a4 := (processChunk E src t4 a3 _).1) in *. clearbody a4.
  destruct (usageChunk_records src t5 a4 i m created u)
    as (Htc5 & Hus5).
  rewrite Htc4 in Htc5.
  assert (Husage :
    resp_usage
      (toProviderResponse src now
         (processChunk E src t5 a4 (usageChunkOf i m created u)).1) =
    Some {| prompt_tokens := default 0%Z (cu_prompt_tokens u);
            completion_tokens := default 0%Z (cu_completion_tokens u);
            total_tokens :=
              (default 0 (cu_prompt_tokens u) +
               default 0 (cu_completion_tokens u))%Z |}).
  { rewrite (proj2 (toProviderResponse_view src now _)). by rewrite Hus5. }
  split; [|split; [|split]].
  - unfold hasUsage. by rewrite Hus5, Hus4, Hus3, Hus2, Hus1.
  - cbn [fst]. rewrite (proj1 (toProviderResponse_view src now _)).
    rewrite Htc5. simpl.
    assert (Hfalsy : ∀ s, truthyStr s = false → s = "").
    { intros s Hs. by apply negb_false_iff, String.eqb_eq in Hs. }
    assert (Hnil : ∀ s, "" +:+ s = s) by done.
    destruct (truthyStr callId), (truthyStr name);
      destruct (truthyStr f1) eqn:H1; try apply Hfalsy in H1 as ->;
      destruct (truthyStr f2) eqn:H2; try apply Hfalsy in H2 as ->;
      destruct (truthyStr f3) eqn:H3; try apply Hfalsy in H3 as ->;
      by rewrite ?Hnil, ?append_nil_r, ?append_assoc, ?Hnil.
  - exact Husage.
  - intros p c t ->. cbn [fst]. rewrite Husage. simpl. split.
    + by intros [= <-].
    + by intros ->.
Qed.

End Scenario.

(** C3, as stated, fails: when the usage chunk announces a total that is
    not the sum of its two counters (here 25 for 12 and 7), the
    synthesized response reports the sum, not the chunk's total. *)
Lemma scenario_total_is_recomputed :
  let run :=
    processChunks refEnv AdapterV2 (createStreamAdapter 990)
      weatherStreamOwnTotal in
  (chunk_usage <$> (last weatherStreamOwnTotal.*2)) =
    Some (Some {| cu_prompt_tokens := Some 12%Z; cu_completion_tokens := Some 7%Z;
                  cu_total_tokens := Some 25%Z |}) ∧
  isFinal <$> run.2 = [false; false; false; false; true] ∧
  resp_usage (toProviderResponse AdapterV2 2000 run.1) =
    Some {| prompt_tokens := 12%Z; completion_tokens := 7%Z;
            total_tokens := 19%Z |} ∧
  resp_usage (toProviderResponse AdapterV2 2000 run.1) ≠
    Some {| prompt_tokens := 12%Z; completion_tokens := 7%Z;
            total_tokens := 25%Z |}.
Proof. vm_compute. repeat split; discriminate. Qed.


(** ** Reachable adapters keep their indices in range *)

Section Reachable.
Context {Cost : Type} (E : Externals Cost).

Lemma processChunk_in_range src now a chunk :
  indicesInRange a → indicesInRange (processChunk E src now a chunk).1.
Proof.
  intros Ha. unfold processChunk.
  set (s3 := match chunk_usage chunk with
             | Some u => _ | None => _ end).
  assert (Hs3 : toolCalls s3 = toolCalls (state a)).
  { unfold s3. destruct (chunk_usage chunk); simpl;
      by destruct (firstChunkTime (timing (state a))). }
  clearbody s3.
  destruct (chunk_choices chunk !! 0%nat) as [choice|];
    [|intros index k; simpl; rewrite Hs3; apply Ha].
  set (r4 := match delta_content (cc_delta choice) with
             | Some content => _ | None => _ end).
  assert (Hr4 : toolCalls r4.1 = toolCalls s3).
  { unfold r4. destruct (delta_content (cc_delta choice)) as [c|]; [|done].
    by destruct (truthyStr c). }
  destruct r4 as [s4 sse4]. simpl in Hr4.
  destruct (handleReasoning_shape E src chunk (cc_delta choice) s4 sse4)
    as [ro Hro].
  destruct (handleReasoning E src chunk (cc_delta choice) (s4, sse4))
    as [s5 sse5]. simpl in Hro. subst s5.
  assert (Ha5 : indicesInRange
                  {| state := set_reasoning ro s4;
                     currentToolCallIndices := currentToolCallIndices a |}).
  { intros index k. simpl. rewrite Hr4, Hs3. apply Ha. }
  destruct (delta_tool_calls (cc_delta choice)) as [tcs|].
  - apply (foldl_processToolCallDelta_in_range tcs) in Ha5.
    intros index k. simpl.
    destruct (cc_finish_reason choice) as [r|];
      [destruct (truthyStr r)|]; apply Ha5.
  - intros index k. simpl.
    destruct (cc_finish_reason choice) as [r|];
      [destruct (truthyStr r)|]; apply Ha5.
Qed.

Lemma indices_in_range src t0 chunks :
  indicesInRange (processChunks E src (createStreamAdapter t0) chunks).1.
Proof.
  assert (Hgen : ∀ a, indicesInRange a →
                      indicesInRange (processChunks E src a chunks).1).
  { induction chunks as [|[now chunk] rest IH]; intros a Ha; [done|].
    rewrite (processChunks_cons E). simpl.
    by apply IH, processChunk_in_range. }
  apply Hgen. intros index k. simpl. by rewrite lookup_empty.
Qed.

End Reachable.

(** ** Two runs over the same chunks *)

Lemma sameButTiming_fields s s' :
  sameButTiming s s' ↔
  responseId s = responseId s' ∧ model s = model s' ∧ text s = text s' ∧
  reasoning s = reasoning s' ∧ toolCalls s = toolCalls s' ∧
  rawToolCallEvents s = rawToolCallEvents s' ∧ usage s = usage s' ∧
  stopReason s = stopReason s'.
Proof.
  unfold sameButTiming. destruct s, s'; simpl. split.
  - by intros [= -> -> -> -> -> -> -> ->].
  - by intros (-> & -> & -> & -> & -> & -> & -> & ->).
Qed.

Ltac same_fields :=
  rewrite ?sameButTiming_fields in *; simpl in *; intuition congruence.

Lemma processToolCallDelta_same a a' d :
  sameRun a a' → sameRun (processToolCallDelta a d) (processToolCallDelta a' d).
Proof.
  intros [Hs Hix].
  assert (Htc : toolCalls (state a) = toolCalls (state a')) by same_fields.
  destruct (currentToolCallIndices a !! tcd_index d) as [k|] eqn:Hd.
  - rewrite (processToolCallDelta_known a d k Hd).
    rewrite (processToolCallDelta_known a' d k) by (by rewrite <- Hix).
    split; simpl; [|done]. rewrite Htc. same_fields.
  - rewrite (processToolCallDelta_fresh a d Hd).
    rewrite (processToolCallDelta_fresh a' d) by (by rewrite <- Hix).
    split; simpl; [|by rewrite Htc, Hix]. rewrite Htc. same_fields.
Qed.

Lemma foldl_processToolCallDelta_same ds a a' :
  sameRun a a' →
  sameRun (foldl processToolCallDelta a ds) (foldl processToolCallDelta a' ds).
Proof.
  revert a a'. induction ds as [|d ds IH]; intros a a' Ha; simpl; [done|].
  by apply IH, processToolCallDelta_same.
Qed.

Section TwoRuns.
Context {Cost : Type} (E : Externals Cost).

Lemma handleReasoning_same src chunk delta s s' sse :
  sameButTiming s s' →
  sameButTiming (handleReasoning E src chunk delta (s, sse)).1
                (handleReasoning E src chunk delta (s', sse)).1 ∧
  (handleReasoning E src chunk delta (s, sse)).2 =
  (handleReasoning E src chunk delta (s', sse)).2.
Proof.
  intros Hs. unfold handleReasoning.
  destruct (delta_reasoning_details delta) as [details|]; [|done].
  destruct src; [done|].
  revert s s' sse Hs.
  induction details as [|d details IH]; intros s s' sse Hs; simpl; [done|].
  destruct (rd_text d) as [t|]; [|by apply IH].
  destruct (truthyStr t); [|by apply IH].
  assert (Hr : reasoning s = reasoning s') by same_fields.
  rewrite Hr. apply IH. same_fields.
Qed.

(** The result of a call and the state it leaves depend on the clock
    only through the [timing] record. *)
Lemma processChunk_same src now now' a a' chunk :
  sameRun a a' →
  sameRun (processChunk E src now a chunk).1
          (processChunk E src now' a' chunk).1 ∧
  (processChunk E src now a chunk).2 = (processChunk E src now' a' chunk).2.
Proof.
  intros [Hs Hix]. unfold processChunk.
  set (s3 := match chunk_usage chunk with
             | Some u => _
             | None => set_responseId_model _ _
                         (match firstChunkTime (timing (state a)) with
                          | None => _ | Some _ => _ end)
             end).
  set (s3' := match chunk_usage chunk with
              | Some u => _
              | None => set_responseId_model _ _
                          (match firstChunkTime (timing (state a')) with
                           | None => _ | Some _ => _ end)
              end).
  assert (H3 : sameButTiming s3 s3').
  { unfold s3, s3'.
    destruct (chunk_usage chunk),
      (firstChunkTime (timing (state a))),
      (firstChunkTime (timing (state a'))); same_fields. }
  clearbody s3 s3'.
  destruct (chunk_choices chunk !! 0%nat) as [choice|].
  2:{ split; [by split|]. simpl. f_equal. unfold hasUsage.
      assert (usage s3 = usage s3') as -> by same_fields. done. }
  set (r4 := match delta_content (cc_delta choice) with
             | Some content =>
                 if truthyStr content
                 then (set_text (text s3 +:+ content) s3, _)
                 else (s3, None)
             | None => (s3, None)
             end).
  set (r4' := match delta_content (cc_delta choice) with
              | Some content =>
                  if truthyStr content
                  then (set_text (text s3' +:+ content) s3', _)
                  else (s3', None)
              | None => (s3', None)
              end).
  assert (H4 : sameButTiming r4.1 r4'.1 ∧ r4.2 = r4'.2).
  { unfold r4, r4'.
    destruct (delta_content (cc_delta choice)) as [c|]; [|by split].
    destruct (truthyStr c); [|by split]. split; [|done]. same_fields. }
  destruct r4 as [s4 sse4], r4' as [s4' sse4'].
  destruct H4 as [H4 Hsse4]. simpl in H4, Hsse4. subst sse4'.
  destruct (handleReasoning_same src chunk (cc_delta choice) s4 s4' sse4 H4)
    as [H5 Hsse5].
  destruct (handleReasoning E src chunk (cc_delta choice) (s4, sse4))
    as [s5 sse5].
  destruct (handleReasoning E src chunk (cc_delta choice) (s4', sse4))
    as [s5' sse5'].
  simpl in H5, Hsse5. subst sse5'.
  assert (Ha5 : sameRun
                  {| state := s5;
                     currentToolCallIndices := currentToolCallIndices a |}
                  {| state := s5';
                     currentToolCallIndices := currentToolCallIndices a' |})
    by (by split).
  destruct (delta_tool_calls (cc_delta choice)) as [tcs|].
  - apply (foldl_processToolCallDelta_same tcs) in Ha5.
    destruct Ha5 as [Hs6 Hix6].
    remember (foldl processToolCallDelta
                {| state := s5;
                   currentToolCallIndices := currentToolCallIndices a |}
                tcs) as a6 eqn:Ha6.
    remember (foldl processToolCallDelta
                {| state := s5';
                   currentToolCallIndices := currentToolCallIndices a' |}
                tcs) as a6' eqn:Ha6'.
    clear Ha6 Ha6'.
    assert (Hu : usage (state a6) = usage (state a6')) by same_fields.
    destruct (cc_finish_reason choice) as [r|];
      [destruct (truthyStr r)|];
      (split; [split; [same_fields|done]|]);
      unfold hasUsage; simpl; by rewrite Hu.
  - assert (Hu : usage s5 = usage s5') by same_fields.
    destruct (cc_finish_reason choice) as [r|];
      [destruct (truthyStr r)|];
      (split; [split; [same_fields|done]|]);
      unfold hasUsage; simpl; by rewrite Hu.
Qed.

End TwoRuns.


Section Determinism.
Context {Cost : Type} (E : Externals Cost).

Lemma processChunks_same src a a' chunks chunks' :
  sameRun a a' → chunks.*2 = chunks'.*2 →
  sameRun (processChunks E src a chunks).1
          (processChunks E src a' chunks').1 ∧
  (processChunks E src a chunks).2 = (processChunks E src a' chunks').2.
Proof.
  revert a a' chunks'.
  induction chunks as [|[now chunk] rest IH];
    intros a a' [|[now' chunk'] rest'] Ha Hsame; try done.
  injection Hsame as Hchunk Hrest. simpl in Hchunk. subst chunk'.
  rewrite !(processChunks_cons E). simpl.
  destruct (processChunk_same E src now now' a a' chunk Ha) as [Ha1 Hr].
  destruct (IH _ _ rest' Ha1 Hrest) as [Ha2 Hrs].
  split; [done|]. by rewrite Hr, Hrs.
Qed.

Lemma toProviderResponse_same src now now' a a' :
  sameRun a a' →
  toProviderResponse src now a =
  set_created (now `div` 1000) (toProviderResponse src now' a').
Proof.
  intros [Hs _]. apply sameButTiming_fields in Hs
    as (Hid & Hm & Ht & Hr & Htc & _ & Hu & Hstop).
  unfold toProviderResponse, set_created. simpl.
  by rewrite Hid, Hm, Ht, Hr, Htc, Hu, Hstop.
Qed.

(** C9, amended. Two fresh adapters fed the same chunks in the same order
    report the same per-chunk results and synthesize responses that agree
    on every field except [created], which is the second in which
    [toProviderResponse] was called; the responses are identical when the
    two calls fall in the same second.  When each chunk was processed and
    when each adapter was created has no influence. *)
Theorem two_runs_same_response (src : SourceFile) (t0 t0' now now' : Z)
    (chunks chunks' : list (Z * MiniMaxStreamChunk)) :
  chunks.*2 = chunks'.*2 →
  let run := processChunks E src (createStreamAdapter t0) chunks in
  let run' := processChunks E src (createStreamAdapter t0') chunks' in
  run.2 = run'.2 ∧
  toProviderResponse src now run.1 =
    set_created (now `div` 1000) (toProviderResponse src now' run'.1) ∧
  ((now `div` 1000 = now' `div` 1000)%Z →
   toProviderResponse src now run.1 = toProviderResponse src now' run'.1).
Proof.
  intros Hsame run run'. subst run run'.
  destruct (processChunks_same src (createStreamAdapter t0)
              (createStreamAdapter t0') chunks chunks') as [Ha Hr];
    [by split|done|].
  split; [done|]. split; [by apply toProviderResponse_same|].
  intros Hsec.
  rewrite (toProviderResponse_same src now now' _ _ Ha), Hsec.
  unfold set_created, toProviderResponse. done.
Qed.

End Determinism.

(** C9, as stated, fails: the same stream fed to two fresh adapters gives
    responses with different [created] when [toProviderResponse] is called
    in different seconds. *)
Lemma two_runs_differ_in_created :
  toProviderResponse AdapterV2 1000
    (processChunks refEnv AdapterV2 (createStreamAdapter 0) weatherStream).1 ≠
  toProviderResponse AdapterV2 2000
    (processChunks refEnv AdapterV2 (createStreamAdapter 0) weatherStream).1.
Proof. vm_compute. discriminate. Qed.

Lemma two_runs_same_response_witness :
  let run :=
    processChunks refEnv AdapterV2 (createStreamAdapter 990) weatherStream in
  let run' :=
    processChunks refEnv AdapterV2 (createStreamAdapter 5990)
      weatherStreamLater in
  run.2 = run'.2 ∧
  toProviderResponse AdapterV2 2000 run.1 =
    set_created 2 (toProviderResponse AdapterV2 7000 run'.1) ∧
  ((2000 `div` 1000 = 7000 `div` 1000)%Z →
   toProviderResponse AdapterV2 2000 run.1 =
   toProviderResponse AdapterV2 7000 run'.1).
Proof.
  apply (two_runs_same_response refEnv AdapterV2 990 5990 2000 7000
           weatherStream weatherStreamLater).
  reflexivity.
Defined.

(** * Properties of the rest of the adapter *)

(** ** Model override *)

Lemma afterCalls_modifiedModel {Cost} (E : Externals Cost) calls a :
  modifiedModel (afterCalls E a calls) =
  foldl (λ acc call,
    match call with
    | CallSetModel m => Some m
    | _ => acc
    end) (modifiedModel a) calls.
Proof.
  unfold afterCalls. revert a.
  induction calls as [|call rest IH]; intros a; simpl; [done|].
  rewrite IH. f_equal. destruct call as [m|i c| |m]; simpl; try done.
  destruct (applyToonCompression E m a) as [[a' res]|] eqn:Happly; [|done].
  by apply applyToonCompression_request in Happly as ->.
Qed.

Lemma afterCalls_req_model {Cost} (E : Externals Cost) calls a :
  req_model (request (afterCalls E a calls)) = req_model (request a).
Proof.
  unfold afterCalls. revert a.
  induction calls as [|call rest IH]; intros a; simpl; [done|].
  rewrite IH. by destruct (afterCall_request E a call) as (_ & -> & _).
Qed.

(** X1. After any sequence of calls on a request adapter, [getModel] is the
    argument of the last [setModel], or the request's model when there was
    none; [toProviderRequest] carries that model in both copies of the
    adapter, and the held request keeps the model it came with. *)
Theorem model_override_precedence {Cost} (E : Externals Cost)
    (src : SourceFile) (r : MiniMaxRequest) (calls : list RequestCall) :
  let a := afterCalls E (createRequestAdapter r) calls in
  getModel a = default (req_model r) (lastModelSet calls) ∧
  req_model (toProviderRequest src a) = getModel a ∧
  req_model (getOriginalRequest a) = req_model r.
Proof.
  intros a. subst a. unfold getModel, getOriginalRequest, lastModelSet.
  rewrite afterCalls_modifiedModel, afterCalls_req_model. simpl.
  split; [done|]. split; [|done].
  unfold getModel. by rewrite afterCalls_modifiedModel, afterCalls_req_model.
Qed.

(** ** Declared tools *)

Lemma omap_length_le {A B} (f : A → option B) (l : list A) :
  (length (omap f l) ≤ length l)%nat.
Proof.
  induction l as [|x l IH]; csimpl; [done|].
  destruct (f x); simpl; lia.
Qed.

(** X2. [getTools] lists the function tools of the request in their order
    and drops the custom ones; it is empty when the request has no [tools].
    [hasTools] only looks at the length of [tools]: it is true whenever
    [getTools] is not empty, and it is also true for a request whose tools
    are all custom, for which [getTools] is empty. *)
Theorem getTools_function_tools (a : MiniMaxRequestAdapter) :
  (req_tools (request a) = None → getTools a = [] ∧ hasTools a = false) ∧
  (∀ tools, req_tools (request a) = Some tools →
     mcp_name <$> getTools a = omap functionToolName tools ∧
     (length (getTools a) ≤ length tools)%nat ∧
     hasTools a = bool_decide (tools ≠ []) ∧
     (Forall (λ t, functionToolName t = None) tools → getTools a = [])) ∧
  (getTools a ≠ [] → hasTools a = true).
Proof.
  unfold getTools, hasTools.
  destruct (req_tools (request a)) as [tools|]; [|by repeat split].
  assert (Hnames : ∀ l : list Tool,
    mcp_name <$> omap (λ tool,
      match tool with
      | FunctionTool name description parameters _ =>
          Some {| mcp_name := name; mcp_description := description;
                  mcp_inputSchema := parameters |}
      | CustomTool _ _ _ => None
      end) l = omap functionToolName l).
  { induction l as [|[n d p s|n d f] l IH]; csimpl; [done| |done].
    by rewrite IH. }
  split; [done|]. split.
  - intros ? [= <-]. split; [apply Hnames|]. split; [apply omap_length_le|].
    split.
    + destruct tools; simpl; repeat case_bool_decide; done || lia.
    + clear Hnames. induction tools as [|[n d p s|n d f] l IH];
        intros HF; [done| |]; apply Forall_cons in HF as [Hx HF];
        [done|by apply IH].
  - destruct tools; [done|]. by intros _.
Qed.

(** ** Staged tool-result updates *)

Lemma toProviderRequest_messages src a :
  req_messages (toProviderRequest src a) =
  applyUpdates (req_messages (request a)) (toolResultUpdates a).
Proof.
  unfold toProviderRequest, applyUpdates. destruct src; simpl;
    repeat case_bool_decide; done || lia.
Qed.

Lemma applyUpdates_lookup messages (updates : gmap string string) k :
  applyUpdates messages updates !! k =
  (λ message,
     if bool_decide (updates = ∅) then message
     else
       match message with
       | ToolMessage content tool_call_id =>
           match getProperty updates tool_call_id with
           | OwnValue newContent =>
               if truthyStr newContent
               then ToolMessage (ContentString newContent) tool_call_id
               else message
           | InheritedMember name =>
               ToolMessage (ContentInherited name) tool_call_id
           | NoProperty => message
           end
       | _ => message
       end) <$> messages !! k.
Proof.
  unfold applyUpdates. case_bool_decide as Hsize.
  - apply map_size_empty_iff in Hsize as ->.
    rewrite bool_decide_eq_true_2 by done.
    by destruct (messages !! k).
  - rewrite bool_decide_eq_false_2.
    + by rewrite list_lookup_fmap.
    + intros ->. by rewrite map_size_empty in Hsize.
Qed.

Lemma truthyStr_true s : truthyStr s = true ↔ s ≠ "".
Proof.
  unfold truthyStr. rewrite negb_true_iff. split.
  - intros Hs ->. by rewrite String.eqb_refl in Hs.
  - intros Hs. by apply String.eqb_neq.
Qed.

(** X3. A staged update reaches the provider request: the tool message
    whose [tool_call_id] has a non-empty staged content is sent with that
    content, as a string, at the same position. *)
Theorem staged_update_applied (src : SourceFile) (a : MiniMaxRequestAdapter)
    (k : nat) (content : MessageContent) (id newContent : string) :
  req_messages (request a) !! k = Some (ToolMessage content id) →
  toolResultUpdates a !! id = Some newContent →
  newContent ≠ "" →
  req_messages (toProviderRequest src a) !! k =
    Some (ToolMessage (ContentString newContent) id).
Proof.
  intros Hk Hup Hne.
  rewrite toProviderRequest_messages, applyUpdates_lookup, Hk. simpl.
  rewrite bool_decide_eq_false_2.
  - unfold getProperty. rewrite Hup. by apply truthyStr_true in Hne as ->.
  - intros Hempty. by rewrite Hempty, lookup_empty in Hup.
Qed.

Lemma staged_update_applied_witness :
  req_messages (toProviderRequest AdapterV2 updatedAdapter) !! 2%nat =
    Some (ToolMessage (ContentString "cloudy") "call_123").
Proof.
  apply (staged_update_applied AdapterV2 updatedAdapter 2
           (ContentString ("{" +:+ quoted "temperature" +:+ ": 72}"))
           "call_123" "cloudy"); [reflexivity|reflexivity|discriminate].
Defined.

(** X4. [toProviderRequest] keeps the number, the roles and the tool-call
    ids of the messages, and with no update staged it returns the messages
    as they are.  It returns unchanged every message that is not a tool
    message, every tool message whose staged update is the empty string
    (an empty replacement is never applied), and every tool message whose
    id has no staged update and does not name a member of
    [Object.prototype].  Once some update is staged, a tool message whose
    id has no staged update but names such a member is sent with that
    inherited member as its content. *)
Theorem staged_update_frame (src : SourceFile) (a : MiniMaxRequestAdapter) :
  length (req_messages (toProviderRequest src a)) =
    length (req_messages (request a)) ∧
  role <$> req_messages (toProviderRequest src a) =
    role <$> req_messages (request a) ∧
  toolCallIds (req_messages (toProviderRequest src a)) =
    toolCallIds (req_messages (request a)) ∧
  (toolResultUpdates a = ∅ →
     req_messages (toProviderRequest src a) = req_messages (request a)) ∧
  (∀ k m, req_messages (request a) !! k = Some m →
     (∀ content id, m = ToolMessage content id →
        toolResultUpdates a !! id = Some "" ∨
        (toolResultUpdates a !! id = None ∧ id ∉ objectPrototypeMembers)) →
     req_messages (toProviderRequest src a) !! k = Some m) ∧
  (∀ k content id,
     req_messages (request a) !! k = Some (ToolMessage content id) →
     toolResultUpdates a ≠ ∅ →
     toolResultUpdates a !! id = None →
     id ∈ objectPrototypeMembers →
     req_messages (toProviderRequest src a) !! k =
       Some (ToolMessage (ContentInherited id) id)).
Proof.
  rewrite toProviderRequest_messages.
  assert (Hmap : ∀ f : Message → Message,
            (∀ m, role (f m) = role m) →
            (∀ m, match f m with
                  | ToolMessage _ i => Some i | _ => None end =
                  match m with
                  | ToolMessage _ i => Some i | _ => None end) →
            ∀ l, role <$> (f <$> l) = role <$> l ∧
                 toolCallIds (f <$> l) = toolCallIds l).
  { intros f Hrole Hid l. unfold toolCallIds.
    induction l as [|m l [IH1 IH2]]; csimpl; [done|].
    rewrite Hrole, IH1, Hid, IH2. done. }
  assert (Hshape :
    role <$> applyUpdates (req_messages (request a)) (toolResultUpdates a) =
      role <$> req_messages (request a) ∧
    toolCallIds (applyUpdates (req_messages (request a))
                   (toolResultUpdates a)) =
      toolCallIds (req_messages (request a))).
  { unfold applyUpdates. case_bool_decide; [done|].
    apply Hmap; intros [| | | |c i|]; try done;
      destruct (getProperty (toolResultUpdates a) i) as [n|n|]; try done;
      by destruct (truthyStr n). }
  destruct Hshape as [Hroles Hids].
  split; [|split; [done|split; [done|split; [|split]]]].
  - by rewrite <- (length_fmap role), Hroles, length_fmap.
  - intros ->. unfold applyUpdates.
    by rewrite bool_decide_eq_true_2 by apply map_size_empty.
  - intros k m Hk Hm. rewrite applyUpdates_lookup, Hk. simpl.
    case_bool_decide; [done|].
    destruct m as [| | | |content id|]; try done.
    unfold getProperty.
    destruct (Hm content id eq_refl) as [-> | [-> Hnot]]; [done|].
    by rewrite bool_decide_eq_false_2.
  - intros k content id Hk Hne Hnone Hin.
    rewrite applyUpdates_lookup, Hk. simpl.
    rewrite bool_decide_eq_false_2 by done.
    unfold getProperty. rewrite Hnone.
    by rewrite bool_decide_eq_true_2.
Qed.

Lemma Object_assign_lookup (target source : gmap string string) j :
  Object_assign target source !! j =
    match source !! j with
    | Some c =>
        if bool_decide (j = "__proto__" ∧ target !! j = None) then None
        else Some c
    | None => target !! j
    end.
Proof.
  unfold Object_assign.
  apply (map_fold_weak_ind
           (λ r m, r !! j =
                   match m !! j with
                   | Some c =>
                       if bool_decide (j = "__proto__" ∧ target !! j = None)
                       then None else Some c
                   | None => target !! j
                   end)).
  - by rewrite lookup_empty.
  - intros i x m r Hi IH. unfold setProperty.
    destruct (decide (i = j)) as [->|Hij].
    + rewrite lookup_insert_eq. rewrite Hi in IH.
      case_bool_decide as Hr.
      * destruct Hr as [-> Hr]. rewrite Hr. rewrite Hr in IH.
        by rewrite bool_decide_eq_true_2.
      * rewrite lookup_insert_eq. rewrite bool_decide_eq_false_2; [done|].
        intros [-> Ht]. apply Hr. split; [done|]. by rewrite IH.
    + rewrite lookup_insert_ne by done.
      destruct (bool_decide (i = "__proto__" ∧ r !! i = None)); [done|].
      by rewrite lookup_insert_ne.
Qed.

(** X5. Staged updates accumulate and the later one wins, with one
    exception the plain object brings: nothing is ever stored under
    [__proto__] in an object that has no own property of that name.  After
    [applyToolResultUpdates] any other id maps to the content given in the
    bulk object if it has one and to what was staged before otherwise; a
    bulk object with one key acts as [updateToolResult]; a second
    [updateToolResult] for an id replaces the first and leaves the other
    ids alone; and [updateToolResult] under [__proto__] leaves such an
    adapter as it is. *)
Theorem staged_updates_accumulate (a : MiniMaxRequestAdapter)
    (updates : gmap string string) (i c1 c2 : string) :
  (∀ j, toolResultUpdates (applyToolResultUpdates updates a) !! j =
        match updates !! j with
        | Some c =>
            if bool_decide (j = "__proto__" ∧
                            toolResultUpdates a !! j = None)
            then None else Some c
        | None => toolResultUpdates a !! j
        end) ∧
  applyToolResultUpdates {[ i := c1 ]} a = updateToolResult i c1 a ∧
  updateToolResult i c2 (updateToolResult i c1 a) = updateToolResult i c2 a ∧
  (∀ j, j ≠ i →
     toolResultUpdates (updateToolResult i c1 a) !! j =
     toolResultUpdates a !! j) ∧
  (i ≠ "__proto__" →
     toolResultUpdates (updateToolResult i c1 a) !! i = Some c1) ∧
  (toolResultUpdates a !! "__proto__" = None →
     updateToolResult "__proto__" c1 a = a ∧
     toolResultUpdates (applyToolResultUpdates updates a) !! "__proto__" =
       None).
Proof.
  split; [|split; [|split; [|split; [|split]]]].
  - intros j. simpl. apply Object_assign_lookup.
  - unfold applyToolResultUpdates, updateToolResult, Object_assign.
    by rewrite map_fold_singleton.
  - unfold updateToolResult, setProperty. simpl. f_equal.
    destruct (decide (i = "__proto__" ∧ toolResultUpdates a !! i = None))
      as [Hp|Hp].
    + by rewrite !(bool_decide_eq_true_2 _ Hp).
    + rewrite !(bool_decide_eq_false_2 _ Hp).
      rewrite bool_decide_eq_false_2.
      * by rewrite insert_insert_eq.
      * rewrite lookup_insert_eq. by intros [_ ?].
  - intros j Hj. simpl. unfold setProperty.
    case_bool_decide; [done|]. by rewrite lookup_insert_ne.
  - intros Hi. simpl. unfold setProperty.
    rewrite bool_decide_eq_false_2 by (by intros [? _]).
    apply lookup_insert_eq.
  - intros Hnone. split.
    + unfold updateToolResult, setProperty.
      rewrite bool_decide_eq_true_2 by done. by destruct a.
    + simpl. rewrite Object_assign_lookup, Hnone.
      destruct (updates !! "__proto__"); [|done].
      by rewrite bool_decide_eq_true_2.
Qed.

(** ** Canonical view of the messages *)

Lemma findToolNameInMessages_undeclared messages toolCallId :
  (∀ m, m ∈ messages → ¬ declaresToolCall m toolCallId) →
  findToolNameInMessages messages toolCallId = None.
Proof.
  intros Hnone. unfold findToolNameInMessages.
  destruct (findToolNameFrom messages toolCallId (length messages))
    as [name|] eqn:Hres; [|done].
  apply findToolNameFrom_Some in Hres
    as (i & asst & tcs & _ & Hm & Htcs & Hcalls & _).
  apply findToolNameInCalls_Some in Hcalls
    as (pre & tc & post & -> & Hid & _).
  exfalso. apply (Hnone (AssistantMessage asst)).
  - apply list_elem_of_lookup. eauto.
  - exists asst, (pre ++ tc :: post), tc. repeat split; try done.
    apply elem_of_app. right. apply elem_of_cons. by left.
Qed.

(** X6. [getToolResults] returns one entry per tool message, in message
    order and under the message's [tool_call_id]; messages of other roles
    give none.  The content of an entry is the parsed value when the
    message content is a string that parses as JSON, and the message
    content as it is otherwise. *)
Theorem getToolResults_in_order {Cost} (E : Externals Cost)
    (a : MiniMaxRequestAdapter) :
  ctr_id <$> getToolResults E a = toolCallIds (req_messages (request a)) ∧
  (∀ r, r ∈ getToolResults E a →
     ∃ content,
       ToolMessage content (ctr_id r) ∈ req_messages (request a) ∧
       ((∃ s v, content = ContentString s ∧ JSON_parse E s = Some v ∧
                ctr_content r = ParsedContent v) ∨
        ((∀ s, content = ContentString s → JSON_parse E s = None) ∧
         ctr_content r = RawContent content))).
Proof.
  split.
  - unfold getToolResults, toolCallIds.
    generalize (req_messages (request a)) at 1 as all.
    intros all. induction (req_messages (request a)) as [|m l IH];
      csimpl; [done|].
    destruct m; csimpl; try done. by rewrite IH.
  - intros r Hr. apply getToolResults_elem in Hr
      as (content & id & Hin & ->). simpl.
    exists content. split; [done|].
    destruct content as [s|parts|member]; [|by right..].
    destruct (JSON_parse E s) as [v|] eqn:Hparse.
    + left. by exists s, v.
    + right. split; [|done]. by intros ? [= <-].
Qed.

(** X7. [getMessages] returns one canonical message per message, with its
    role.  Only a tool message whose id resolves to a non-empty tool name
    carries [toolCalls], and then a single entry, which is the entry
    [getToolResults] has for it; a tool message whose id no assistant
    message declares carries none, where [getToolResults] still has an
    entry named "unknown". *)
Theorem getMessages_shape {Cost} (E : Externals Cost)
    (a : MiniMaxRequestAdapter) :
  let messages := req_messages (request a) in
  cm_role <$> getMessages E a = role <$> messages ∧
  (∀ k m rs,
     getMessages E a !! k = Some m → cm_toolCalls m = Some rs →
     ∃ content id name r,
       messages !! k = Some (ToolMessage content id) ∧
       findToolNameInMessages messages id = Some name ∧ name ≠ "" ∧
       rs = [r] ∧ ctr_id r = id ∧ ctr_name r = name ∧
       r ∈ getToolResults E a) ∧
  (∀ k content id,
     messages !! k = Some (ToolMessage content id) →
     (∀ m, m ∈ messages → ¬ declaresToolCall m id) →
     (∃ m, getMessages E a !! k = Some m ∧ cm_toolCalls m = None) ∧
     (∃ r, r ∈ getToolResults E a ∧ ctr_id r = id ∧
           ctr_name r = "unknown")).
Proof.
  intros messages. unfold getMessages, toCommonFormat. fold messages.
  split; [|split].
  - generalize messages at 1 as all. intros all.
    induction messages as [|m l IH]; csimpl; [done|]. rewrite IH. f_equal.
    destruct m as [| | | |content id|]; try done.
    destruct (findToolNameInMessages all id) as [n|]; [|done].
    by destruct (truthyStr n).
  - intros k m rs Hk Hrs. rewrite list_lookup_fmap in Hk.
    destruct (messages !! k) as [msg|] eqn:Hmsg; [|done].
    injection Hk as <-.
    destruct msg as [| | | |content id|]; try discriminate.
    destruct (findToolNameInMessages messages id) as [name|] eqn:Hname;
      [|discriminate].
    destruct (truthyStr name) eqn:Htr; [|discriminate].
    injection Hrs as <-.
    eexists content, id, name, _. repeat split; try done.
    + by apply truthyStr_true.
    + apply getToolResults_elem. exists content, id.
      split; [apply list_elem_of_lookup; eauto|].
      fold messages. by rewrite Hname.
  - intros k content id Hk Hnone.
    pose proof (findToolNameInMessages_undeclared _ _ Hnone) as Hname.
    split.
    + rewrite list_lookup_fmap, Hk. simpl. rewrite Hname. eauto.
    + eexists. split.
      * apply getToolResults_elem. exists content, id.
        split; [apply list_elem_of_lookup; eauto|done].
      * fold messages. by rewrite Hname.
Qed.

(** ** More on TOON compression *)

Section CompressionMore.
Context {Cost : Type} (E : Externals Cost).

Lemma compressMessage_id m c :
  match (compressMessage E m c).1 with
  | ToolMessage _ i => Some i | _ => None end =
  match m with ToolMessage _ i => Some i | _ => None end.
Proof.
  destruct m as [| | | |[s|parts|member] tool_call_id|]; simpl; try done.
  by destruct (tryCompress E s) as [[[? ?] ?]|].
Qed.

Lemma compressMessages_ids l c :
  toolCallIds (compressMessages E l c).1 = toolCallIds l.
Proof.
  revert c. unfold toolCallIds.
  induction l as [|m l IH]; intros c; simpl; [done|].
  pose proof (compressMessage_id m c) as Hid.
  destruct (compressMessage E m c) as [m' c1]. specialize (IH c1).
  destruct (compressMessages E l c1). csimpl in *. by rewrite Hid, IH.
Qed.

Lemma compressMessages_lookup l c k m :
  l !! k = Some m →
  (¬ eligible E m → (compressMessages E l c).1 !! k = Some m) ∧
  (∀ s i compressed tb ta,
     m = ToolMessage (ContentString s) i →
     compressesTo E s compressed tb ta →
     (compressMessages E l c).1 !! k =
       Some (ToolMessage (ContentString compressed) i)).
Proof.
  revert c k. induction l as [|m0 l IH]; intros c k Hk; [done|].
  simpl. destruct (compressMessage E m0 c) as [m' c1] eqn:Hm0.
  specialize (IH c1).
  destruct (compressMessages E l c1) as [r c2]. simpl in *.
  destruct k as [|k]; simpl in *.
  - injection Hk as ->. split.
    + intros Hel.
      destruct (compressMessage_eligible E m c) as [[? _]|[_ Heq]]; [done|].
      rewrite Hm0 in Heq. by injection Heq as -> _.
    + intros s i compressed tb ta -> Hto. simpl in Hm0.
      apply tryCompress_compressesTo in Hto.
      rewrite Hto in Hm0. by injection Hm0 as <- _.
  - by apply IH.
Qed.

Lemma compressMessage_contributes m c :
  ∃ tokens,
    contributes E m tokens ∧
    totalTokensBefore (compressMessage E m c).2 =
      (totalTokensBefore c + tokens.1)%Z ∧
    totalTokensAfter (compressMessage E m c).2 =
      (totalTokensAfter c + tokens.2)%Z.
Proof.
  assert (Hnone : ¬ eligible E m → compressMessage E m c = (m, c) →
            ∃ tokens,
              contributes E m tokens ∧
              totalTokensBefore (compressMessage E m c).2 =
                (totalTokensBefore c + tokens.1)%Z ∧
              totalTokensAfter (compressMessage E m c).2 =
                (totalTokensAfter c + tokens.2)%Z).
  { intros Hel ->. exists (0, 0)%Z. split; [by right|]. simpl. lia. }
  destruct m as [| | | |[s|parts|member] tool_call_id|];
    try (apply Hnone; [by intros (? & ? & ? & ? & ? & [=] & _)|done]).
  destruct (tryCompress E s) as [[[compressed tb] ta]|] eqn:Htry.
  - exists (tb, ta). simpl. rewrite Htry. simpl. split; [|done].
    left. exists s, tool_call_id, compressed. split; [done|].
    by apply tryCompress_compressesTo.
  - apply Hnone; [|by simpl; rewrite Htry].
    intros (s' & id' & t & b & a & [= <- <-] & Hto).
    apply tryCompress_compressesTo in Hto. by rewrite Htry in Hto.
Qed.

Lemma compressMessages_totals l c :
  ∃ counts,
    Forall2 (contributes E) l counts ∧
    totalTokensBefore (compressMessages E l c).2 =
      (totalTokensBefore c + sumZ counts.*1)%Z ∧
    totalTokensAfter (compressMessages E l c).2 =
      (totalTokensAfter c + sumZ counts.*2)%Z.
Proof.
  assert (Hcons : ∀ x l0, sumZ (x :: l0) = (x + sumZ l0)%Z) by done.
  revert c. induction l as [|m l IH]; intros c.
  - exists []. split; [constructor|]. unfold sumZ. simpl. lia.
  - destruct (compressMessage_contributes m c) as (tokens & Hm & Hb & Ha).
    cbn [compressMessages].
    destruct (compressMessage E m c) as [m' c1].
    destruct (IH c1) as (counts & Hl & Hb' & Ha').
    destruct (compressMessages E l c1) as [r c2].
    cbn [fst snd] in *. exists (tokens :: counts).
    split; [by constructor|].
    rewrite !fmap_cons, !Hcons. lia.
Qed.

(** X8. A compression that resolves keeps the number, the roles and the
    tool-call ids of the messages, the staged model and the staged updates.
    Every message that is not eligible comes back as it is.  A tool message
    whose string content, once unwrapped, parses as JSON comes back with
    the TOON encoding of the parsed value as its content, provided the
    encoder and the tokenizer raise no exception on it. *)
Theorem compression_preserves_structure (model : string)
    (a a' : MiniMaxRequestAdapter) (res : ToonCompressionResult Cost) :
  applyToonCompression E model a = Returns (a', res) →
  length (req_messages (request a')) = length (req_messages (request a)) ∧
  role <$> req_messages (request a') = role <$> req_messages (request a) ∧
  toolCallIds (req_messages (request a')) =
    toolCallIds (req_messages (request a)) ∧
  modifiedModel a' = modifiedModel a ∧
  toolResultUpdates a' = toolResultUpdates a ∧
  (∀ k m, req_messages (request a) !! k = Some m → ¬ eligible E m →
          req_messages (request a') !! k = Some m) ∧
  (∀ k s i unwrapped parsed compressed,
     req_messages (request a) !! k = Some (ToolMessage (ContentString s) i) →
     unwrapToolContent E s = Some unwrapped →
     JSON_parse E unwrapped = Some parsed →
     toonEncode E parsed = Some compressed →
     is_Some (countTokens E unwrapped) →
     is_Some (countTokens E compressed) →
     req_messages (request a') !! k =
       Some (ToolMessage (ContentString compressed) i)).
Proof.
  intros Happly. apply applyToonCompression_request in Happly as ->. simpl.
  split; [apply compressMessages_length|].
  split; [apply compressMessages_roles|].
  split; [apply compressMessages_ids|].
  split; [done|]. split; [done|]. split.
  - intros k m Hk Hel.
    by apply (proj1 (compressMessages_lookup _ noCounters k m Hk)).
  - intros k s i u v t Hk Hu Hv Ht [tb Hb] [ta Ha].
    apply (proj2 (compressMessages_lookup _ noCounters k _ Hk)
             s i t tb ta); [done|].
    by exists u, v.
Qed.

(** X9. Savings are reported only when tokens were saved and the model has
    a price: a non-null [costSavings] comes with token totals whose
    difference is positive and with a price row, of which it is the
    product.  The price lookup is consulted only then, so the call rejects
    only when tokens were saved and the lookup rejects. *)
Theorem cost_savings_need_saved_tokens (model : string)
    (a : MiniMaxRequestAdapter) :
  let c := (compressMessages E (req_messages (request a)) noCounters).2 in
  match applyToonCompression E model a with
  | Returns (a', res) =>
      (∀ savings, costSavings res = Some savings →
         ∃ before after price,
           tokensBefore res = Some before ∧ tokensAfter res = Some after ∧
           (after < before)%Z ∧
           findByModel E model = Returns (Some price) ∧
           savings = tokenSavings E (before - after) price) ∧
      (tokensBefore res = None → costSavings res = None)
  | Throws =>
      findByModel E model = Throws ∧ (0 < toolResultCount c)%nat ∧
      (totalTokensAfter c < totalTokensBefore c)%Z
  end.
Proof.
  intros c. unfold applyToonCompression.
  rewrite convertToolResultsToToon_statsOf. fold c.
  unfold statsOf.
  destruct (bool_decide (0 < toolResultCount c)%nat) eqn:Hcount; simpl;
    [|done].
  apply bool_decide_eq_true in Hcount.
  case_bool_decide as Hsaved; simpl; [|done].
  destruct (findByModel E model) as [[p|]|] eqn:Hprice; simpl.
  - split; [|done].
    intros savings [= <-].
    exists (totalTokensBefore c), (totalTokensAfter c), p.
    repeat split; try done. lia.
  - done.
  - repeat split; try done. lia.
Qed.

(** X10. The totals a compression reports are sums over the messages: each
    eligible tool message adds the token count of its unwrapped content to
    [tokensBefore] and the token count of the TOON encoding of its parsed
    content to [tokensAfter]; every other message adds nothing. *)
Theorem compression_totals_are_sums (model : string)
    (a a' : MiniMaxRequestAdapter) (res : ToonCompressionResult Cost) :
  applyToonCompression E model a = Returns (a', res) →
  (∃ m, m ∈ req_messages (request a) ∧ eligible E m) →
  ∃ counts,
    Forall2 (contributes E) (req_messages (request a)) counts ∧
    tokensBefore res = Some (sumZ counts.*1) ∧
    tokensAfter res = Some (sumZ counts.*2).
Proof.
  intros Happly (m & Hin & Hel). unfold applyToonCompression in Happly.
  rewrite convertToolResultsToToon_statsOf in Happly.
  set (c := (compressMessages E (req_messages (request a)) noCounters).2)
    in *.
  assert (Hcount : (0 < toolResultCount c)%nat).
  { destruct (compressMessages_count E (req_messages (request a)) noCounters)
      as [_ Hiff]. fold c in Hiff. simpl in Hiff.
    destruct (decide (toolResultCount c = 0%nat)) as [H0|]; [|lia].
    exfalso. by apply (proj1 Hiff H0 m). }
  destruct (compressMessages_totals (req_messages (request a)) noCounters)
    as (counts & Hcounts & Hb & Ha). fold c in Hb, Ha. simpl in Hb, Ha.
  exists counts. split; [done|].
  unfold statsOf in Happly.
  rewrite !bool_decide_eq_true_2 in Happly by done.
  case_bool_decide;
    [destruct (findByModel E model) as [[p|]|]; [| |done]|];
    injection Happly as <- <-; simpl; by rewrite Hb, Ha.
Qed.


End CompressionMore.

(** ** More on the response adapter *)

(** X12. [getToolCalls] reads only the first choice: it returns one entry
    per tool call of that choice, in order, with the call's id and name,
    whether or not the arguments parse, and the parsed value as arguments
    when they do.  [hasToolCalls] is true exactly when [getToolCalls] is
    not empty. *)
Theorem getToolCalls_shape {Cost} (E : Externals Cost)
    (response : MiniMaxResponse) :
  ctc_id <$> getToolCalls E response =
    toolCall_id <$> firstToolCalls response ∧
  ctc_name <$> getToolCalls E response =
    toolCall_name <$> firstToolCalls response ∧
  (∀ k tc v, firstToolCalls response !! k = Some tc →
     JSON_parse E (toolCall_payload tc) = Some v →
     ctc_arguments <$> getToolCalls E response !! k = Some v) ∧
  hasToolCalls response = bool_decide (getToolCalls E response ≠ []).
Proof.
  unfold getToolCalls, hasToolCalls, firstToolCalls.
  destruct (resp_choices response !! 0%nat) as [choice|]; simpl;
    [|by repeat split].
  destruct (rm_tool_calls (choice_message choice)) as [tcs|]; simpl;
    [|by repeat split].
  split; [|split; [|split]].
  - induction tcs as [|[]]; csimpl; by f_equal.
  - induction tcs as [|[]]; csimpl; by f_equal.
  - intros k tc v Hk Hparse. rewrite list_lookup_fmap, Hk. simpl.
    destruct tc; simpl in *; by rewrite Hparse.
  - by destruct tcs.
Qed.

(** X13. The refusal of a response that has a first choice is a provider
    response that keeps the id, model, creation time and usage, has that
    choice's index and logprobs, stops with "stop", carries the content
    message as its text and no tool call, whatever the refusal message.
    For a response with no choice the result still has one choice, which
    lacks [index] and [logprobs]. *)
Theorem toRefusalResponse_shape {Cost} (E : Externals Cost)
    (response : MiniMaxResponse) (refusalMessage contentMessage : string) :
  (∀ choice, resp_choices response !! 0%nat = Some choice →
     ∃ r, asResponse (toRefusalResponse response refusalMessage
                        contentMessage) = Some r ∧
          resp_id r = resp_id response ∧
          resp_model r = resp_model response ∧
          resp_created r = resp_created response ∧
          resp_usage r = resp_usage response ∧
          getUsage r = getUsage response ∧
          getText r = contentMessage ∧
          hasToolCalls r = false ∧ getToolCalls E r = [] ∧
          (∃ c, resp_choices r = [c] ∧ choice_finish_reason c = "stop" ∧
                choice_index c = choice_index choice ∧
                choice_logprobs c = choice_logprobs choice)) ∧
  (resp_choices response = [] →
     asResponse (toRefusalResponse response refusalMessage contentMessage) =
       None ∧
     length (rr_choices (toRefusalResponse response refusalMessage
                           contentMessage)) = 1%nat) ∧
  toRefusalResponse response refusalMessage contentMessage =
    toRefusalResponse response "" contentMessage.
Proof.
  split; [|split; [|done]].
  - intros choice Hchoice. unfold asResponse, toRefusalResponse. simpl.
    unfold asChoice. simpl. rewrite Hchoice. simpl.
    eexists. split; [done|]. repeat split. eexists. by split.
  - intros Hnone. unfold asResponse, toRefusalResponse, asChoice. simpl.
    by rewrite Hnone.
Qed.

(** ** What one chunk does to the accumulator *)

Lemma processToolCallDelta_sameCalls a a' d :
  sameCalls a a' →
  sameCalls (processToolCallDelta a d) (processToolCallDelta a' d).
Proof.
  intros [Htc Hix].
  destruct (currentToolCallIndices a !! tcd_index d) as [k|] eqn:Hd.
  - rewrite (processToolCallDelta_known a d k Hd).
    rewrite (processToolCallDelta_known a' d k) by (by rewrite <- Hix).
    split; simpl; [by rewrite Htc|done].
  - rewrite (processToolCallDelta_fresh a d Hd).
    rewrite (processToolCallDelta_fresh a' d) by (by rewrite <- Hix).
    split; simpl; by rewrite Htc, ?Hix.
Qed.

Lemma foldl_processToolCallDelta_sameCalls ds a a' :
  sameCalls a a' →
  sameCalls (foldl processToolCallDelta a ds)
            (foldl processToolCallDelta a' ds).
Proof.
  revert a a'. induction ds as [|d ds IH]; intros a a' Ha; simpl; [done|].
  by apply IH, processToolCallDelta_sameCalls.
Qed.

Section ChunkFacts.
Context {Cost : Type} (E : Externals Cost).

Lemma sseFrame_truthy chunk : truthyStr (sseFrame E chunk) = true.
Proof. done. Qed.

Lemma handleReasoning_spec src chunk delta s sse :
  let texts :=
    omap (λ d, rd_text d ≫= λ t, if truthyStr t then Some t else None)
      (default [] (delta_reasoning_details delta)) in
  handleReasoning E src chunk delta (s, sse) =
  match src with
  | AdapterV2 =>
      (s, match delta_reasoning_details delta with
          | Some _ => Some (sseFrame E chunk)
          | None => sse
          end)
  | Part004 =>
      (set_reasoning (appendReasoning (reasoning s) texts) s,
       if bool_decide (texts = []) then sse
       else if truthyOptStr sse then sse else Some (sseFrame E chunk))
  end.
Proof.
  intros texts. unfold handleReasoning, texts.
  destruct (delta_reasoning_details delta) as [details|]; simpl.
  2:{ destruct src; [done|]. by rewrite (proj2 (state_eta s)). }
  destruct src; [done|].
  revert s sse. induction details as [|d details IH]; intros s sse; csimpl.
  { by rewrite (proj2 (state_eta s)). }
  destruct (rd_text d) as [t|]; csimpl; [|apply IH].
  destruct (truthyStr t); csimpl; [|apply IH].
  rewrite IH. simpl. f_equal.
  assert (Ht : truthyOptStr
                 (if truthyOptStr sse then sse else Some (sseFrame E chunk))
               = true).
  { destruct (truthyOptStr sse) eqn:Hs; [done|apply sseFrame_truthy]. }
  rewrite Ht. by case_bool_decide.
Qed.

(** The fields of the state one call leaves, from the state it found and
    the chunk. *)
Lemma processChunk_fields src now a chunk :
  let a' := (processChunk E src now a chunk).1 in
  let r := (processChunk E src now a chunk).2 in
  responseId (state a') = chunk_id chunk ∧
  model (state a') = chunk_model chunk ∧
  text (state a') = text (state a) +:+ contentDelta chunk ∧
  rawToolCallEvents (state a') =
    rawToolCallEvents (state a) ++
    (if carriesToolCalls chunk then [chunk] else []) ∧
  usage (state a') =
    match usageOf chunk with
    | Some u => Some u
    | None => usage (state a)
    end ∧
  stopReason (state a') =
    match finishReasonOf chunk with
    | Some reason => Some reason
    | None => stopReason (state a)
    end ∧
  timing (state a') =
    {| startTime := startTime (timing (state a));
       firstChunkTime :=
         Some (default now (firstChunkTime (timing (state a)))) |} ∧
  reasoning (state a') =
    match src with
    | AdapterV2 => reasoning (state a)
    | Part004 => appendReasoning (reasoning (state a)) (reasoningTexts chunk)
    end ∧
  sameCalls a' (foldl processToolCallDelta a (deltasOf chunk)) ∧
  isToolCallChunk r = carriesToolCalls chunk ∧
  sseData r = (if forwarded src chunk then Some (sseFrame E chunk) else None).
Proof.
  assert (Hfalsy : ∀ s, truthyStr s = false → s = "").
  { intros s Hs. by apply negb_false_iff, String.eqb_eq in Hs. }
  destruct a as [[rid mdl txt rsn tcs raw us stop [st fct]] ix].
  unfold processChunk, contentDelta, carriesToolCalls, finishReasonOf,
    usageOf, deltasOf, forwarded, reasoningTexts, firstChoice. simpl.
  destruct (chunk_choices chunk !! 0%nat) as [choice|]; simpl.
  2:{ rewrite append_nil_r, app_nil_r.
      destruct src, (chunk_usage chunk), fct; by repeat split. }
  set (s3 := match chunk_usage chunk with
             | Some u => _ | None => _ end).
  set (r4 := match delta_content (cc_delta choice) with
             | Some content => _ | None => _ end).
  assert (H4 : r4 = (set_text (txt +:+ default "" (delta_content
                                                   (cc_delta choice))) s3,
                     if truthyOptStr (delta_content (cc_delta choice))
                     then Some (sseFrame E chunk) else None)).
  { unfold r4. destruct (delta_content (cc_delta choice)) as [c|]; simpl.
    - destruct (truthyStr c) eqn:Hc.
      + f_equal. unfold s3.
        by destruct (chunk_usage chunk), fct.
      + apply Hfalsy in Hc as ->. rewrite append_nil_r. f_equal. unfold s3.
        by destruct (chunk_usage chunk), fct.
    - rewrite append_nil_r. f_equal. unfold s3.
      by destruct (chunk_usage chunk), fct. }
  rewrite H4. clear H4 r4.
  rewrite handleReasoning_spec.
  set (texts := omap _ _).
  set (s5sse := match src with AdapterV2 => _ | Part004 => _ end).
  assert (H5 : s5sse.1 =
               set_reasoning
                 (match src with
                  | AdapterV2 => rsn
                  | Part004 => appendReasoning rsn texts
                  end)
                 (set_text (txt +:+ default "" (delta_content
                                                  (cc_delta choice))) s3) ∧
               s5sse.2 =
               if truthyOptStr (delta_content (cc_delta choice)) ||
                  match src with
                  | AdapterV2 =>
                      match delta_reasoning_details (cc_delta choice) with
                      | Some _ => true
                      | None => false
                      end
                  | Part004 => negb (bool_decide (texts = []))
                  end
               then Some (sseFrame E chunk) else None).
  { unfold s5sse. destruct src; simpl.
    - split.
      + unfold s3. by destruct (chunk_usage chunk), fct.
      + destruct (truthyOptStr (delta_content (cc_delta choice)));
          by destruct (delta_reasoning_details (cc_delta choice)).
    - split.
      + unfold s3. by destruct (chunk_usage chunk), fct.
      + case_bool_decide; simpl;
          by destruct (truthyOptStr (delta_content (cc_delta choice))). }
  destruct s5sse as [s5 sse5]. destruct H5 as [H5 Hsse]. simpl in H5, Hsse.
  subst s5 sse5.
  destruct (delta_tool_calls (cc_delta choice)) as [tool_calls|]; simpl.
  - match goal with
    | |- context [foldl processToolCallDelta ?x tool_calls] =>
        set (a5 := x)
    end.
    assert (Hcalls : sameCalls (foldl processToolCallDelta a5 tool_calls)
              (foldl processToolCallDelta
                 {| state :=
                      {| responseId := rid; model := mdl; text := txt;
                         reasoning := rsn; toolCalls := tcs;
                         rawToolCallEvents := raw; usage := us;
                         stopReason := stop;
                         timing := {| startTime := st;
                                      firstChunkTime := fct |} |};
                    currentToolCallIndices := ix |} tool_calls)).
    { apply foldl_processToolCallDelta_sameCalls. split; [|done].
      unfold a5, s3. simpl. by destruct (chunk_usage chunk), fct. }
    destruct (foldl_processToolCallDelta_shape tool_calls a5)
      as (L & M & Hfold).
    rewrite Hfold in Hcalls |- *. unfold a5, s3 in *. clear a5 s3 Hfold.
    destruct Hcalls as [HL HM]. simpl in HL, HM.
    destruct (cc_finish_reason choice) as [reason|]; simpl;
      [destruct (truthyStr reason); simpl|];
      destruct src, (chunk_usage chunk), fct; simpl;
      repeat split; done.
  - unfold s3. clear s3.
    destruct (cc_finish_reason choice) as [reason|]; simpl;
      [destruct (truthyStr reason); simpl|];
      destruct src, (chunk_usage chunk), fct; simpl;
      rewrite ?app_nil_r; repeat split; done.
Qed.

End ChunkFacts.

(** ** What a stream does to the accumulator *)

Lemma lastSome_cons {A} (o : option A) (l : list (option A)) :
  lastSome (o :: l) =
  match lastSome l with
  | Some x => Some x
  | None => o
  end.
Proof.
  unfold lastSome. simpl.
  assert (Hgen : ∀ acc : option A,
    foldl (λ acc o, match o with Some x => Some x | None => acc end) acc l =
    match foldl (λ acc o, match o with Some x => Some x | None => acc end)
            None l with
    | Some x => Some x
    | None => acc
    end).
  { induction l as [|o' l IH]; intros acc; simpl; [done|].
    rewrite (IH (match o' with Some x => Some x | None => acc end)).
    rewrite (IH (match o' with Some x => Some x | None => None end)).
    destruct (foldl _ None l); [done|]. by destruct o'. }
  rewrite Hgen. by destruct o.
Qed.

Lemma last_cons_default {A} (x : A) (l : list A) d :
  default d (last (x :: l)) = default x (last l).
Proof.
  revert x d. induction l as [|y l IH]; intros x d; [done|].
  change (last (x :: y :: l)) with (last (y :: l)).
  by rewrite (IH y d), (IH y x).
Qed.

Lemma appendReasoning_app r l1 l2 :
  appendReasoning r (l1 ++ l2) = appendReasoning (appendReasoning r l1) l2.
Proof. apply foldl_app. Qed.

Lemma appendReasoning_concat r texts :
  appendReasoning r texts =
  if bool_decide (texts = []) then r
  else Some (default "" r +:+ concatStrings texts).
Proof.
  revert r. induction texts as [|t texts IH]; intros r; [done|].
  change (appendReasoning r (t :: texts))
    with (appendReasoning (Some (default "" r +:+ t)) texts).
  rewrite IH. rewrite (bool_decide_eq_false_2 (t :: texts = [])) by done.
  case_bool_decide as Hnil.
  - subst texts. unfold concatStrings. simpl. by rewrite append_nil_r.
  - simpl. by rewrite append_assoc.
Qed.

Section StreamFold.
Context {Cost : Type} (E : Externals Cost).

Lemma processChunks_fields src chunks a :
  let a' := (processChunks E src a chunks).1 in
  let rs := (processChunks E src a chunks).2 in
  responseId (state a') =
    default (responseId (state a)) (last (chunk_id <$> chunks.*2)) ∧
  model (state a') =
    default (model (state a)) (last (chunk_model <$> chunks.*2)) ∧
  text (state a') =
    text (state a) +:+ concatStrings (contentDelta <$> chunks.*2) ∧
  rawToolCallEvents (state a') =
    rawToolCallEvents (state a) ++
    filter (λ c, carriesToolCalls c = true) chunks.*2 ∧
  usage (state a') =
    match lastSome (usageOf <$> chunks.*2) with
    | Some u => Some u
    | None => usage (state a)
    end ∧
  stopReason (state a') =
    match lastSome (finishReasonOf <$> chunks.*2) with
    | Some reason => Some reason
    | None => stopReason (state a)
    end ∧
  startTime (timing (state a')) = startTime (timing (state a)) ∧
  firstChunkTime (timing (state a')) =
    match firstChunkTime (timing (state a)) with
    | Some t => Some t
    | None => head chunks.*1
    end ∧
  reasoning (state a') =
    match src with
    | AdapterV2 => reasoning (state a)
    | Part004 =>
        appendReasoning (reasoning (state a))
          (concat (reasoningTexts <$> chunks.*2))
    end ∧
  sameCalls a'
    (foldl processToolCallDelta a (concat (deltasOf <$> chunks.*2))) ∧
  isToolCallChunk <$> rs = carriesToolCalls <$> chunks.*2 ∧
  sseData <$> rs =
    (λ c, if forwarded src c then Some (sseFrame E c) else None)
      <$> chunks.*2.
Proof.
  revert a. induction chunks as [|[now chunk] rest IH]; intros a.
  { simpl. rewrite append_nil_r, app_nil_r.
    destruct src, (firstChunkTime (timing (state a))); by repeat split. }
  rewrite (processChunks_cons E). cbn [fst snd].
  destruct (processChunk_fields E src now a chunk)
    as (Hid & Hmodel & Htext & Hraw & Husage & Hstop & Htiming & Hreason &
        Hcalls & Htool & Hsse).
  destruct (IH (processChunk E src now a chunk).1)
    as (Iid & Imodel & Itext & Iraw & Iusage & Istop & Istart & Ifirst &
        Ireason & Icalls & Itool & Isse).
  rewrite !fmap_cons. cbn [fst snd].
  split; [|split; [|split; [|split; [|split; [|split; [|split; [|split;
    [|split; [|split; [|split]]]]]]]]]].
  - rewrite Iid, Hid. symmetry. apply last_cons_default.
  - rewrite Imodel, Hmodel. symmetry. apply last_cons_default.
  - rewrite Itext, Htext. unfold concatStrings. simpl.
    by rewrite append_assoc.
  - rewrite Iraw, Hraw, filter_cons.
    case_decide as Hd; destruct (carriesToolCalls chunk); try done.
    + by rewrite <- app_assoc.
    + by rewrite app_nil_r.
  - rewrite Iusage, Husage, lastSome_cons.
    destruct (lastSome (usageOf <$> rest.*2)); [done|].
    by destruct (usageOf chunk).
  - rewrite Istop, Hstop, lastSome_cons.
    destruct (lastSome (finishReasonOf <$> rest.*2)); [done|].
    by destruct (finishReasonOf chunk).
  - by rewrite Istart, Htiming.
  - rewrite Ifirst, Htiming. simpl.
    by destruct (firstChunkTime (timing (state a))).
  - rewrite Ireason, Hreason. destruct src; [done|].
    by rewrite concat_cons, appendReasoning_app.
  - rewrite concat_cons, foldl_app.
    destruct Icalls as [I1 I2]. 
    destruct (foldl_processToolCallDelta_sameCalls
                (concat (deltasOf <$> rest.*2)) _ _ Hcalls) as [J1 J2].
    split; [by rewrite I1, J1|by rewrite I2, J2].
  - by rewrite Itool, Htool.
  - by rewrite Isse, Hsse.
Qed.

(** X14. The text a stream accumulates is the concatenation, in arrival
    order, of the content deltas of the first choices of its chunks, and
    reading the synthesized response through the response adapter gives
    that text back in both copies of the adapter. *)
Theorem stream_text_accumulates (src : SourceFile) (t0 now : Z)
    (chunks : list (Z * MiniMaxStreamChunk)) :
  let a := (processChunks E src (createStreamAdapter t0) chunks).1 in
  text (state a) = concatStrings (contentDelta <$> chunks.*2) ∧
  getText (toProviderResponse src now a) =
    concatStrings (contentDelta <$> chunks.*2).
Proof.
  intros a.
  destruct (processChunks_fields src chunks (createStreamAdapter t0))
    as (_ & _ & Htext & _). fold a in Htext. simpl in Htext.
  split; [done|]. unfold getText, toProviderResponse. simpl.
  rewrite Htext.
  destruct src; simpl;
    (destruct (truthyStr _) eqn:Ht; [done|]; simpl;
     by apply negb_false_iff, String.eqb_eq in Ht).
Qed.

(** X15. The raw tool-call events a stream leaves are exactly its chunks
    whose first choice has a [tool_calls] delta, in arrival order;
    [getRawToolCallEvents] frames each of them, and those are the chunks
    reported with [isToolCallChunk]. *)
Theorem raw_tool_call_events_replay (src : SourceFile) (t0 : Z)
    (chunks : list (Z * MiniMaxStreamChunk)) :
  let run := processChunks E src (createStreamAdapter t0) chunks in
  rawToolCallEvents (state run.1) =
    filter (λ c, carriesToolCalls c = true) chunks.*2 ∧
  getRawToolCallEvents E run.1 =
    sseFrame E <$> filter (λ c, carriesToolCalls c = true) chunks.*2 ∧
  isToolCallChunk <$> run.2 = carriesToolCalls <$> chunks.*2.
Proof.
  intros run.
  destruct (processChunks_fields src chunks (createStreamAdapter t0))
    as (_ & _ & _ & Hraw & _ & _ & _ & _ & _ & _ & Htool & _).
  fold run in Hraw, Htool. simpl in Hraw.
  split; [done|]. split; [|done].
  unfold getRawToolCallEvents. by rewrite Hraw.
Qed.

(** X16. The frame [processChunk] hands back is the serialized chunk
    itself, never a rebuilt one, and it is handed back exactly for the
    chunks whose first choice has text content or reasoning details (in the
    second copy of the adapter: reasoning details with text).  A chunk with
    no choice, or one that only brings tool calls or a finish reason, gives
    no frame. *)
Theorem sse_frames_pass_through (src : SourceFile) (t0 : Z)
    (chunks : list (Z * MiniMaxStreamChunk)) :
  let run := processChunks E src (createStreamAdapter t0) chunks in
  sseData <$> run.2 =
    (λ c, if forwarded src c then Some (sseFrame E c) else None)
      <$> chunks.*2 ∧
  (∀ c, firstChoice c = None → forwarded src c = false) ∧
  (∀ c choice, firstChoice c = Some choice →
     delta_content (cc_delta choice) = None →
     delta_reasoning_details (cc_delta choice) = None →
     forwarded src c = false).
Proof.
  intros run.
  destruct (processChunks_fields src chunks (createStreamAdapter t0))
    as (_ & _ & _ & _ & _ & _ & _ & _ & _ & _ & _ & Hsse).
  split; [done|]. unfold forwarded, reasoningTexts. split.
  - by intros c ->.
  - intros c choice -> -> Hr. simpl. rewrite Hr. by destruct src.
Qed.

(** X17. The time of the first chunk is taken once: after a stream it is
    the clock reading of the call that processed the first chunk, later
    chunks do not move it, and the start time stays that of the
    constructor. *)
Theorem first_chunk_time_is_first (src : SourceFile) (t0 : Z)
    (chunks : list (Z * MiniMaxStreamChunk)) :
  let a := (processChunks E src (createStreamAdapter t0) chunks).1 in
  startTime (timing (state a)) = t0 ∧
  firstChunkTime (timing (state a)) = head chunks.*1.
Proof.
  intros a.
  by destruct (processChunks_fields src chunks (createStreamAdapter t0))
    as (_ & _ & _ & _ & _ & _ & Hstart & Hfirst & _).
Qed.

(** X18. Every chunk refreshes the response id and the model, so a stream
    leaves those of its last chunk, even when that chunk has them empty
    and an earlier one had not; the synthesized response carries them, and
    they are empty for an empty stream. *)
Theorem id_and_model_of_last_chunk (src : SourceFile) (t0 now : Z)
    (chunks : list (Z * MiniMaxStreamChunk)) :
  let a := (processChunks E src (createStreamAdapter t0) chunks).1 in
  resp_id (toProviderResponse src now a) =
    default "" (last (chunk_id <$> chunks.*2)) ∧
  resp_model (toProviderResponse src now a) =
    default "" (last (chunk_model <$> chunks.*2)).
Proof.
  intros a.
  by destruct (processChunks_fields src chunks (createStreamAdapter t0))
    as (Hid & Hmodel & _).
Qed.

(** X19. The usage of the synthesized response is that of the last chunk of
    the stream that carried usage, a missing counter counting as zero; all
    counters are zero when no chunk carried usage; and [total_tokens] is
    always the sum of the other two, whatever total the chunk announced.
    Reading the response through the response adapter gives the recorded
    usage back. *)
Theorem usage_of_last_usage_chunk (src : SourceFile) (t0 now : Z)
    (chunks : list (Z * MiniMaxStreamChunk)) :
  let a := (processChunks E src (createStreamAdapter t0) chunks).1 in
  let u := default {| inputTokens := 0; outputTokens := 0 |}
             (lastSome (usageOf <$> chunks.*2)) in
  usage (state a) = lastSome (usageOf <$> chunks.*2) ∧
  resp_usage (toProviderResponse src now a) =
    Some {| prompt_tokens := inputTokens u;
            completion_tokens := outputTokens u;
            total_tokens := inputTokens u + outputTokens u |} ∧
  getUsage (toProviderResponse src now a) = u.
Proof.
  intros a u.
  destruct (processChunks_fields src chunks (createStreamAdapter t0))
    as (_ & _ & _ & _ & Husage & _). fold a in Husage. simpl in Husage.
  assert (Hu : usage (state a) = lastSome (usageOf <$> chunks.*2)).
  { rewrite Husage. by destruct (lastSome _). }
  split; [done|]. unfold getUsage, toProviderResponse, u. simpl.
  rewrite Hu. by destruct (lastSome _) as [[]|].
Qed.

(** X20. The finish reason of the synthesized response is the last
    non-empty [finish_reason] seen on a first choice, and "stop" when the
    stream had none. *)
Theorem finish_reason_of_stream (src : SourceFile) (t0 now : Z)
    (chunks : list (Z * MiniMaxStreamChunk)) :
  let a := (processChunks E src (createStreamAdapter t0) chunks).1 in
  choice_finish_reason <$> resp_choices (toProviderResponse src now a) =
    [default "stop" (lastSome (finishReasonOf <$> chunks.*2))].
Proof.
  intros a.
  destruct (processChunks_fields src chunks (createStreamAdapter t0))
    as (_ & _ & _ & _ & _ & Hstop & _). fold a in Hstop. simpl in Hstop.
  unfold toProviderResponse. simpl. rewrite Hstop.
  by destruct (lastSome _).
Qed.

(** X21. Reasoning is accumulated only by the second copy of the adapter:
    there the synthesized response carries one reasoning detail, the
    concatenation in arrival order of the non-empty reasoning texts, and
    none when the stream had no such text; the first copy never puts
    reasoning details in the synthesized response. *)
Theorem reasoning_of_stream (t0 now : Z)
    (chunks : list (Z * MiniMaxStreamChunk)) :
  let texts := concat (reasoningTexts <$> chunks.*2) in
  rm_reasoning_details <$>
    (choice_message <$>
       resp_choices
         (toProviderResponse AdapterV2 now
            (processChunks E AdapterV2 (createStreamAdapter t0) chunks).1)) =
    [None] ∧
  rm_reasoning_details <$>
    (choice_message <$>
       resp_choices
         (toProviderResponse Part004 now
            (processChunks E Part004 (createStreamAdapter t0) chunks).1)) =
    [if bool_decide (concatStrings texts = "") then None
     else Some [concatStrings texts]].
Proof.
  intros texts. split; [done|].
  destruct (processChunks_fields Part004 chunks (createStreamAdapter t0))
    as (_ & _ & _ & _ & _ & _ & _ & _ & Hreason & _).
  simpl in Hreason. fold texts in Hreason.
  unfold toProviderResponse. simpl. rewrite Hreason.
  rewrite appendReasoning_concat. simpl.
  assert (Hnil : ∀ s, "" +:+ s = s) by done. rewrite Hnil.
  case_bool_decide as Hempty.
  - rewrite Hempty. by rewrite bool_decide_eq_true_2.
  - destruct (truthyStr (concatStrings texts)) eqn:Ht.
    + apply truthyStr_true in Ht. by rewrite bool_decide_eq_false_2.
    + apply negb_false_iff, String.eqb_eq in Ht.
      by rewrite bool_decide_eq_true_2.
Qed.

End StreamFold.

(** ** Tool calls of a stream, index by index *)

Lemma lastSome_snoc {A} (l : list (option A)) (o : option A) :
  lastSome (l ++ [o]) =
  match o with
  | Some x => Some x
  | None => lastSome l
  end.
Proof. unfold lastSome. by rewrite foldl_app. Qed.

Lemma lastNonEmpty_snoc l o :
  lastNonEmpty (l ++ [o]) =
  match o with
  | Some s => if truthyStr s then s else lastNonEmpty l
  | None => lastNonEmpty l
  end.
Proof.
  unfold lastNonEmpty. rewrite fmap_app. csimpl. rewrite lastSome_snoc.
  destruct o as [s|]; simpl; [|done]. by destruct (truthyStr s).
Qed.

Lemma concatStrings_snoc l s :
  concatStrings (l ++ [s]) = concatStrings l +:+ s.
Proof.
  unfold concatStrings. induction l as [|x l IH]; simpl.
  - apply append_nil_r.
  - by rewrite IH, append_assoc.
Qed.

Lemma toolCallFor_snoc index deltas d :
  toolCallFor index (deltas ++ [d]) =
  if bool_decide (tcd_index d = index)
  then applyToolCallDelta d (toolCallFor index deltas)
  else toolCallFor index deltas.
Proof.
  unfold toolCallFor, deltasFor. rewrite filter_app, filter_cons, filter_nil.
  case_bool_decide as Hd.
  - rewrite decide_True by done. rewrite !fmap_app. simpl.
    rewrite !lastNonEmpty_snoc, concatStrings_snoc.
    unfold applyToolCallDelta. simpl. f_equal.
    destruct (tcd_function d ≫= tcf_arguments) as [args|]; simpl;
      [|by rewrite append_nil_r].
    destruct (truthyStr args) eqn:Hargs; [done|].
    apply negb_false_iff, String.eqb_eq in Hargs as ->.
    by rewrite append_nil_r.
  - rewrite decide_False by done. by rewrite app_nil_r.
Qed.

Lemma firstSightings_snoc deltas d :
  firstSightings (deltas ++ [d]) =
  if bool_decide (tcd_index d ∈ firstSightings deltas)
  then firstSightings deltas
  else firstSightings deltas ++ [tcd_index d].
Proof. unfold firstSightings. by rewrite foldl_app. Qed.

Lemma firstSightings_spec deltas :
  NoDup (firstSightings deltas) ∧
  ∀ i, i ∈ firstSightings deltas ↔ i ∈ tcd_index <$> deltas.
Proof.
  induction deltas as [|d deltas [IHn IHe]] using rev_ind.
  { split; [constructor|done]. }
  rewrite firstSightings_snoc, fmap_app. simpl.
  case_bool_decide as Hseen.
  - split; [done|]. intros i. rewrite elem_of_app, list_elem_of_singleton.
    rewrite <- IHe. split; [by left|]. by intros [?| ->].
  - split.
    + apply NoDup_app. split; [done|]. split; [|apply NoDup_singleton].
      intros i Hi ->%list_elem_of_singleton. done.
    + intros i. rewrite !elem_of_app, IHe. done.
Qed.

Lemma toolCallFor_unseen index deltas :
  index ∉ tcd_index <$> deltas → toolCallFor index deltas = emptyEntry.
Proof.
  intros Hnot. unfold toolCallFor, deltasFor.
  assert (Hnil : filter (λ d, tcd_index d = index) deltas = []).
  { induction deltas as [|d deltas IH]; [done|].
    rewrite filter_cons. rewrite fmap_cons, not_elem_of_cons in Hnot.
    destruct Hnot as [Hd Hrest]. rewrite decide_False by done.
    by apply IH. }
  by rewrite Hnil.
Qed.

Lemma fresh_entry d :
  applyToolCallDelta d
    {| acc_id := default "" (tcd_id d);
       acc_name := default "" (tcd_function d ≫= tcf_name);
       acc_arguments := "" |} =
  applyToolCallDelta d emptyEntry.
Proof.
  unfold applyToolCallDelta, emptyEntry. simpl. f_equal.
  - destruct (tcd_id d) as [i|]; [|done]. simpl.
    destruct (truthyStr i) eqn:Hi; [done|].
    by apply negb_false_iff, String.eqb_eq in Hi.
  - destruct (tcd_function d ≫= tcf_name) as [n|]; [|done]. simpl.
    destruct (truthyStr n) eqn:Hn; [done|].
    by apply negb_false_iff, String.eqb_eq in Hn.
Qed.

Lemma processToolCallDelta_demultiplexed a deltas d :
  demultiplexed a deltas →
  demultiplexed (processToolCallDelta a d) (deltas ++ [d]).
Proof.
  intros [Htc Hix].
  destruct (firstSightings_spec deltas) as [Hnodup Helem].
  assert (Hlen : length (toolCalls (state a)) =
                 length (firstSightings deltas)).
  { by rewrite Htc, length_fmap. }
  destruct (currentToolCallIndices a !! tcd_index d) as [k|] eqn:Hd.
  - rewrite (processToolCallDelta_known a d k Hd).
    pose proof (proj1 (Hix _ _) Hd) as Hk.
    assert (Hseen : tcd_index d ∈ firstSightings deltas).
    { apply list_elem_of_lookup. eauto. }
    unfold demultiplexed. rewrite firstSightings_snoc.
    rewrite bool_decide_eq_true_2 by done. simpl. split; [|done].
    rewrite Htc. apply list_eq. intros j.
    rewrite list_lookup_alter, !list_lookup_fmap.
    destruct (decide (k = j)) as [<-|Hne].
    + rewrite Hk. simpl. rewrite toolCallFor_snoc.
      by rewrite bool_decide_eq_true_2.
    + destruct (firstSightings deltas !! j) as [i|] eqn:Hj; [|done]. simpl.
      rewrite toolCallFor_snoc. rewrite bool_decide_eq_false_2; [done|].
      intros Heq. apply Hne.
      apply (NoDup_lookup _ k j (tcd_index d) Hnodup); [done|].
      by rewrite Heq.
  - rewrite (processToolCallDelta_fresh a d Hd).
    assert (Hunseen : tcd_index d ∉ firstSightings deltas).
    { intros [k Hk]%list_elem_of_lookup. apply Hix in Hk. congruence. }
    unfold demultiplexed. rewrite firstSightings_snoc.
    rewrite bool_decide_eq_false_2 by done. simpl. split.
    + rewrite fmap_app. simpl. f_equal.
      * rewrite Htc. apply list_fmap_ext. intros j i Hj.
        rewrite toolCallFor_snoc. rewrite bool_decide_eq_false_2; [done|].
        intros Heq. apply Hunseen. rewrite Heq.
        apply list_elem_of_lookup. eauto.
      * rewrite toolCallFor_snoc, bool_decide_eq_true_2 by done.
        rewrite toolCallFor_unseen by (by rewrite <- Helem).
        by rewrite fresh_entry.
    + intros i k. rewrite Hlen.
      destruct (decide (tcd_index d = i)) as [<-|Hne].
      * rewrite lookup_insert_eq. split.
        -- intros [= <-]. rewrite lookup_app_r by lia.
           by rewrite Nat.sub_diag.
        -- intros Hk. f_equal.
           destruct (decide (k < length (firstSightings deltas))%nat)
             as [Hlt|Hge].
           ++ rewrite lookup_app_l in Hk by done. exfalso.
              apply Hunseen, list_elem_of_lookup. eauto.
           ++ apply lookup_lt_Some in Hk. rewrite length_app in Hk.
              simpl in Hk. lia.
      * rewrite lookup_insert_ne by done. rewrite Hix. split.
        -- intros Hk. by apply lookup_app_l_Some.
        -- intros Hk.
           destruct (decide (k < length (firstSightings deltas))%nat)
             as [Hlt|Hge].
           ++ by rewrite lookup_app_l in Hk.
           ++ rewrite lookup_app_r in Hk by lia.
              destruct (k - length (firstSightings deltas))%nat;
                simpl in Hk; [|done]. congruence.
Qed.

Lemma foldl_processToolCallDelta_demultiplexed ds a deltas :
  demultiplexed a deltas →
  demultiplexed (foldl processToolCallDelta a ds) (deltas ++ ds).
Proof.
  revert a deltas. induction ds as [|d ds IH]; intros a deltas Ha; simpl.
  - by rewrite app_nil_r.
  - replace (deltas ++ d :: ds) with ((deltas ++ [d]) ++ ds)
      by (by rewrite <- app_assoc).
    by apply IH, processToolCallDelta_demultiplexed.
Qed.

Section Demultiplexing.
Context {Cost : Type} (E : Externals Cost).

Lemma stream_demultiplexed src t0 chunks :
  toolCalls (state (processChunks E src (createStreamAdapter t0) chunks).1) =
  (λ i, toolCallFor i (concat (deltasOf <$> chunks.*2)))
    <$> firstSightings (concat (deltasOf <$> chunks.*2)).
Proof.
  destruct (processChunks_fields E src chunks (createStreamAdapter t0))
    as (_ & _ & _ & _ & _ & _ & _ & _ & _ & [Hcalls _] & _).
  rewrite Hcalls.
  apply (foldl_processToolCallDelta_demultiplexed
           (concat (deltasOf <$> chunks.*2)) (createStreamAdapter t0) []).
  split; [done|]. intros i k. simpl. by rewrite lookup_empty.
Qed.

(** X22. The tool calls of a stream are demultiplexed by index: whatever
    the interleaving of the deltas, the accumulator ends with one entry per
    distinct index, in the order in which the indices were first seen, and
    the entry of an index holds the last non-empty id, the last non-empty
    name and the argument fragments sent under that index, joined in
    arrival order.  The synthesized response lists them as function tool
    calls, and has no [tool_calls] when the stream had no delta. *)
Theorem tool_calls_demultiplexed (src : SourceFile) (t0 now : Z)
    (chunks : list (Z * MiniMaxStreamChunk)) :
  let deltas := concat (deltasOf <$> chunks.*2) in
  let a := (processChunks E src (createStreamAdapter t0) chunks).1 in
  toolCalls (state a) = (λ i, toolCallFor i deltas) <$> firstSightings deltas ∧
  NoDup (firstSightings deltas) ∧
  (∀ i, i ∈ firstSightings deltas ↔ i ∈ tcd_index <$> deltas) ∧
  rm_tool_calls <$>
    (choice_message <$> resp_choices (toProviderResponse src now a)) =
    [ if bool_decide (deltas = []) then None
      else Some ((λ i, FunctionToolCall
                         (acc_id (toolCallFor i deltas))
                         (acc_arguments (toolCallFor i deltas))
                         (acc_name (toolCallFor i deltas)))
                   <$> firstSightings deltas) ].
Proof.
  intros deltas a.
  pose proof (stream_demultiplexed src t0 chunks) as Htc.
  fold deltas a in Htc. clearbody deltas a.
  destruct (firstSightings_spec deltas) as [Hnodup Helem].
  split; [done|]. split; [done|]. split; [done|].
  unfold toProviderResponse. simpl. rewrite Htc, length_fmap.
  f_equal. destruct (decide (deltas = [])) as [->|Hnil]; [done|].
  rewrite (bool_decide_eq_false_2 (deltas = [])) by done.
  assert (Hlen : (0 < length (firstSightings deltas))%nat).
  { destruct deltas as [|d ds]; [done|].
    assert (Hd : tcd_index d ∈ firstSightings (d :: ds)).
    { apply Helem. rewrite fmap_cons. apply elem_of_cons. by left. }
    destruct (firstSightings (d :: ds)); [by apply elem_of_nil in Hd|].
    simpl. lia. }
  rewrite bool_decide_eq_true_2 by done. f_equal.
  change (map ?f ?l) with (f <$> l).
  by rewrite <- list_fmap_compose.
Qed.

End Demultiplexing.

Section IndexMap.
Context {Cost : Type} (E : Externals Cost).

(** X23. The index map of a stream adapter tracks the first sightings: it
    sends a provider index to position [k] exactly when that index was the
    [k]-th distinct index seen.  So every stored position is a position of
    the accumulator list, distinct indices have distinct positions, every
    entry belongs to an index, and the synthesized response has tool calls
    exactly when the stream brought a tool-call delta. *)
Theorem index_map_tracks_sightings (src : SourceFile) (t0 now : Z)
    (chunks : list (Z * MiniMaxStreamChunk)) :
  let deltas := concat (deltasOf <$> chunks.*2) in
  let a := (processChunks E src (createStreamAdapter t0) chunks).1 in
  (∀ i k, currentToolCallIndices a !! i = Some k ↔
          firstSightings deltas !! k = Some i) ∧
  (∀ i k, currentToolCallIndices a !! i = Some k →
          (k < length (toolCalls (state a)))%nat) ∧
  (∀ i j k, currentToolCallIndices a !! i = Some k →
            currentToolCallIndices a !! j = Some k → i = j) ∧
  (∀ k, (k < length (toolCalls (state a)))%nat →
        ∃ i, currentToolCallIndices a !! i = Some k) ∧
  hasToolCalls (toProviderResponse src now a) = bool_decide (deltas ≠ []).
Proof.
  intros deltas a.
  destruct (processChunks_fields E src chunks (createStreamAdapter t0))
    as (_ & _ & _ & _ & _ & _ & _ & _ & _ & [Htc Hix] & _).
  fold a deltas in Htc, Hix.
  destruct (foldl_processToolCallDelta_demultiplexed deltas
              (createStreamAdapter t0) []) as [Dtc Dix].
  { split; [done|]. intros i k. simpl. by rewrite lookup_empty. }
  simpl in Dtc, Dix. rewrite <- Htc in Dtc. rewrite <- Hix in Dix.
  clearbody a deltas.
  assert (Hlen : length (toolCalls (state a)) =
                 length (firstSightings deltas)).
  { by rewrite Dtc, length_fmap. }
  destruct (firstSightings_spec deltas) as [Hnodup Helem].
  split; [done|]. split; [|split; [|split]].
  - intros i k Hk%Dix. rewrite Hlen. by apply lookup_lt_Some in Hk.
  - intros i j k Hi%Dix Hj%Dix. congruence.
  - intros k Hk. rewrite Hlen in Hk.
    destruct (lookup_lt_is_Some_2 _ _ Hk) as [i Hi]. exists i.
    by apply Dix.
  - unfold hasToolCalls, toProviderResponse. simpl. rewrite Hlen.
    destruct (decide (deltas = [])) as [->|Hne]; [done|].
    rewrite (bool_decide_eq_true_2 (deltas ≠ [])) by done.
    assert (Hpos : (0 < length (firstSightings deltas))%nat).
    { destruct deltas as [|d ds]; [done|].
      assert (Hd : tcd_index d ∈ firstSightings (d :: ds)).
      { apply Helem. rewrite fmap_cons. apply elem_of_cons. by left. }
      destruct (firstSightings (d :: ds)); [by apply elem_of_nil in Hd|].
      simpl. lia. }
    rewrite bool_decide_eq_true_2 by done.
    apply bool_decide_eq_true_2. rewrite length_map. lia.
Qed.

(** X24. A text delta built by the server is a chunk the adapter itself
    accepts: [formatTextDeltaSSE] frames a chunk that, fed to any adapter,
    appends exactly the given text, touches no tool call and no usage, is
    not a tool-call chunk, and, for a non-empty text, is handed back as the
    very frame [formatTextDeltaSSE] returned.  [formatCompleteTextSSE]
    returns a single frame, of a chunk whose id is never empty. *)
Theorem server_text_frames (src : SourceFile) (now now' : Z)
    (a b : MiniMaxStreamAdapter) (t : string) :
  let chunk := textDeltaChunk now a t in
  let r := processChunk E src now' b chunk in
  formatTextDeltaSSE E now a t = sseFrame E chunk ∧
  text (state r.1) = text (state b) +:+ t ∧
  sameCalls r.1 b ∧
  usage (state r.1) = usage (state b) ∧
  isToolCallChunk r.2 = false ∧
  (t ≠ "" → sseData r.2 = Some (formatTextDeltaSSE E now a t)) ∧
  formatCompleteTextSSE E now a t = [sseFrame E (completeTextChunk now a t)] ∧
  chunk_id (completeTextChunk now a t) ≠ "".
Proof.
  intros chunk r.
  destruct (processChunk_fields E src now' b chunk)
    as (_ & _ & Htext & _ & Husage & _ & _ & _ & Hcalls & Htool & Hsse).
  fold r in Htext, Husage, Hcalls, Htool, Hsse.
  split; [done|]. split; [done|]. split; [done|]. split; [done|].
  split; [done|]. split; [|split; [done|]].
  - intros Hne. rewrite Hsse. unfold forwarded. simpl.
    by apply truthyStr_true in Hne as ->.
  - simpl. destruct (truthyStr (responseId (state a))) eqn:Hid.
    + by apply truthyStr_true.
    + done.
Qed.

End IndexMap.

(** ** Calls to the provider *)

(** X25. A streaming call always asks for a stream with usage: whatever the
    request's own [stream] flag, [executeStream] sends [stream: true] and
    [stream_options.include_usage: true], with the model and messages of
    the request it is given.  After [toProviderRequest] the model sent is
    [getModel]; the first copy of the adapter sends [reasoning_split] only
    when the request has it true, the second sends it true for every model
    whose name contains "MiniMax-M2".  The non-streaming call forces
    [stream: false] only in the second copy; the first passes the
    request's flag on. *)
Theorem provider_call_parameters (src : SourceFile)
    (a : MiniMaxRequestAdapter) :
  let sent := executeStream src (λ p, p) (toProviderRequest src a) in
  cp_stream sent = Some (Some true) ∧
  cp_stream_options sent = Some {| include_usage := true |} ∧
  cp_model sent = getModel a ∧
  cp_messages sent =
    applyUpdates (req_messages (request a)) (toolResultUpdates a) ∧
  (src = AdapterV2 →
     cp_reasoning_split sent =
       (if bool_decide (req_reasoning_split (request a) = Some true)
        then Some true else None)) ∧
  (src = Part004 → includes (getModel a) "MiniMax-M2" = true →
     cp_reasoning_split sent = Some true) ∧
  cp_stream (execute Part004 (λ p, p) (toProviderRequest Part004 a)) =
    Some (Some false) ∧
  cp_stream (execute AdapterV2 (λ p, p) (toProviderRequest AdapterV2 a)) =
    req_stream (request a).
Proof.
  intros sent. unfold sent, executeStream, execute.
  cbn [cp_stream cp_stream_options cp_model cp_messages cp_reasoning_split].
  rewrite toProviderRequest_messages.
  repeat split; try (by destruct src).
  - intros ->. simpl.
    destruct (req_reasoning_split (request a)) as [[]|]; done.
  - intros -> Hm. simpl. by rewrite Hm.
Qed.

(** X26. [createClient] returns the mock client exactly in mock mode.
    Otherwise the first copy of the adapter always gives the SDK a
    non-empty base URL: the option's if it is a non-empty string, else the
    configured one if it is, else "https://api.minimax.io/v1"; the second
    copy passes the option's base URL as it is, configured or not, and no
    default headers.  A metrics [fetch] is installed exactly when the
    options hold a truthy agent, and it is the one built for that agent;
    a missing or falsy agent installs none. *)
Theorem createClient_base_url {Fetch : Type} (src : SourceFile)
    (configBaseUrl : option string)
    (getObservableFetch : string → JsValue → option string → Fetch)
    (apiKey : option string) (options : option CreateClientOptions) :
  let client :=
    createClient src configBaseUrl getObservableFetch apiKey options in
  (client = MockOpenAIClient ↔ options ≫= opt_mockMode = Some true) ∧
  (options ≫= opt_mockMode ≠ Some true →
   ∃ baseURL fetch defaultHeaders,
     client = OpenAIProvider apiKey baseURL fetch defaultHeaders ∧
     (fetch = None ↔
      ∀ agent, options ≫= opt_agent = Some agent → truthy agent = false) ∧
     (∀ agent, options ≫= opt_agent = Some agent → truthy agent = true →
        fetch = Some (getObservableFetch "minimax" agent
                        (options ≫= opt_externalAgentId))) ∧
     match src with
     | AdapterV2 =>
         (∃ u, baseURL = Some u ∧ u ≠ "") ∧
         defaultHeaders = options ≫= opt_defaultHeaders ∧
         baseURL =
           (if truthyOptStr (options ≫= opt_baseUrl)
            then options ≫= opt_baseUrl
            else if truthyOptStr configBaseUrl then configBaseUrl
            else Some "https://api.minimax.io/v1")
     | Part004 =>
         baseURL = options ≫= opt_baseUrl ∧ defaultHeaders = None
     end).
Proof.
  intros client. unfold client, createClient.
  assert (Hchain : ∀ o c : option string,
    (∃ u, orElse (orElse o c) (Some "https://api.minimax.io/v1") = Some u ∧
          u ≠ "") ∧
    orElse (orElse o c) (Some "https://api.minimax.io/v1") =
      (if truthyOptStr o then o
       else if truthyOptStr c then c
       else Some "https://api.minimax.io/v1")).
  { intros o c. unfold orElse.
    destruct (truthyOptStr o) eqn:Ho; [rewrite Ho|].
    - split; [|done]. destruct o as [u|]; [|done].
      exists u. split; [done|]. by apply truthyStr_true.
    - destruct (truthyOptStr c) eqn:Hc; rewrite ?Hc.
      + split; [|done]. destruct c as [u|]; [|done].
        exists u. split; [done|]. by apply truthyStr_true.
      + split; [|done]. by eexists. }
  assert (Hfetch : ∀ o : option JsValue,
    let fetch :=
      match o with
      | Some agent =>
          if truthy agent
          then Some (getObservableFetch "minimax" agent
                       (options ≫= opt_externalAgentId))
          else None
      | None => None
      end in
    (fetch = None ↔ ∀ agent, o = Some agent → truthy agent = false) ∧
    (∀ agent, o = Some agent → truthy agent = true →
       fetch = Some (getObservableFetch "minimax" agent
                       (options ≫= opt_externalAgentId)))).
  { intros [agent|]; simpl.
    - destruct (truthy agent) eqn:Hagent; split.
      + split; [done|]. intros Hall.
        specialize (Hall agent eq_refl). congruence.
      + by intros ? [= <-] _.
      + split; [|done]. by intros _ ? [= <-].
      + intros ? [= <-] Htrue. congruence.
    - split; [|done]. split; [|done]. by intros _ ? [=]. }
  destruct (options ≫= opt_mockMode) as [[]|] eqn:Hmock.
  - split; [done|]. by intros [].
  - split; [by destruct src|]. intros _.
    destruct (Hfetch (options ≫= opt_agent)) as [Hnone Hsome].
    destruct src; eexists _, _, _; (split; [done|]);
      (split; [exact Hnone|]); (split; [exact Hsome|]); [|done].
    destruct (Hchain (options ≫= opt_baseUrl) configBaseUrl). done.
  - split; [by destruct src|]. intros _.
    destruct (Hfetch (options ≫= opt_agent)) as [Hnone Hsome].
    destruct src; eexists _, _, _; (split; [done|]);
      (split; [exact Hnone|]); (split; [exact Hsome|]); [|done].
    destruct (Hchain (options ≫= opt_baseUrl) configBaseUrl). done.
Qed.

(** ** Concrete instances *)

Lemma compression_preserves_structure_witness :
  length (req_messages (request compressedAdapter)) = 4%nat ∧
  req_messages (request compressedAdapter) !! 3%nat =
    Some (ToolMessage (ContentString "sunny, no JSON here") "call_124").
Proof.
  destruct (compression_preserves_structure refEnv "MiniMax-M2"
              (createRequestAdapter toolResultsRequest) compressedAdapter
              compressedResult)
    as (Hlen & _ & _ & _ & _ & Hkeep & _); [reflexivity|].
  split; [exact Hlen|].
  apply (Hkeep 3%nat); [reflexivity|].
  intros (s & i & t & tb & ta & Heq & u & v & Hu & Hv & _).
  injection Heq as <- <-. injection Hu as <-.
  vm_compute in Hv. discriminate Hv.
Defined.

Lemma compression_totals_are_sums_witness :
  ∃ counts,
    Forall2 (contributes refEnv) (req_messages toolResultsRequest) counts ∧
    tokensBefore compressedResult = Some (sumZ counts.*1) ∧
    tokensAfter compressedResult = Some (sumZ counts.*2).
Proof.
  apply (compression_totals_are_sums refEnv "MiniMax-M2"
           (createRequestAdapter toolResultsRequest) compressedAdapter
           compressedResult); [reflexivity|].
  exists (ToolMessage
            (ContentString ("{" +:+ quoted "temperature" +:+ ": 72}"))
            "call_123").
  split.
  - apply list_elem_of_lookup. by exists 2%nat.
  - eexists _, _, "temperature: 72", 19%Z, 15%Z. split; [reflexivity|].
    eexists _, _. split; [reflexivity|]. split; [vm_compute; reflexivity|].
    split; reflexivity || (split; reflexivity).
Defined.


(** ** The closing frame *)

(** X27. The closing frame agrees with the synthesized response:
    [formatEndSSE] is the frame of a chunk followed by the [DONE] frame, and
    that chunk has the id, the model and, for the same clock reading, the
    creation time of [toProviderResponse], and as finish reason the one the
    response's choice has ("stop" when the stream gave none).  It carries no
    content, no tool call and no usage, so an adapter fed with it
    accumulates nothing. *)
Theorem end_frame_matches_response {Cost} (E : Externals Cost)
    (src : SourceFile) (now : Z) (a : MiniMaxStreamAdapter) :
  formatEndSSE E now a =
    sseFrame E (endChunk now a) +:+ "data: [DONE]" +:+ LF +:+ LF ∧
  chunk_id (endChunk now a) = resp_id (toProviderResponse src now a) ∧
  chunk_model (endChunk now a) = resp_model (toProviderResponse src now a) ∧
  chunk_created (endChunk now a) =
    resp_created (toProviderResponse src now a) ∧
  (λ c, Some (choice_finish_reason c)) <$>
    resp_choices (toProviderResponse src now a) =
    cc_finish_reason <$> chunk_choices (endChunk now a) ∧
  contentDelta (endChunk now a) = "" ∧ deltasOf (endChunk now a) = [] ∧
  usageOf (endChunk now a) = None ∧
  forwarded src (endChunk now a) = false.
Proof.
  split; [|by destruct src].
  unfold formatEndSSE, sseFrame. fold (endChunk now a).
  by rewrite !append_assoc.
Qed.

(** ** The proxy route's pre-handler *)

Lemma prefix_append (p s : string) : String.prefix p (p +:+ s) = true.
Proof.
  induction p as [|c p IH]; simpl; [by destruct s|].
  change (String c p +:+ s) with (String c (p +:+ s)).
  destruct (ascii_dec c c); [done|congruence].
Qed.

Lemma dropChars_append (p s : string) :
  dropChars (String.length p) (p +:+ s) = s.
Proof. induction p as [|c p IH]; simpl; [by destruct s|done]. Qed.

Lemma removeFirst_unfold (s p : string) :
  removeFirst s p =
    if String.prefix p s then dropChars (String.length p) s
    else match s with
         | EmptyString => EmptyString
         | String c rest => String c (removeFirst rest p)
         end.
Proof. by destruct s. Qed.

Lemma removeFirst_prefix (p s : string) : removeFirst (p +:+ s) p = s.
Proof.
  rewrite removeFirst_unfold, prefix_append. apply dropChars_append.
Qed.

Lemma takeHex_append n h s :
  hexString n h = true → takeHex n (h +:+ s) = Some s.
Proof.
  revert h. induction n as [|n IH]; intros [|c h] Hh; simpl in *; try done.
  apply andb_prop in Hh as [Hc Hh].
  change (String c h +:+ s) with (String c (h +:+ s)).
  rewrite Hc. by apply IH.
Qed.

Lemma matchUuidPath_uuid h1 h2 h3 h4 h5 rest :
  hexString 8 h1 = true → hexString 4 h2 = true → hexString 4 h3 = true →
  hexString 4 h4 = true → hexString 12 h5 = true →
  pathAfterUuid rest = true →
  matchUuidPath
    ("/" +:+ (h1 +:+ "-" +:+ h2 +:+ "-" +:+ h3 +:+ "-" +:+ h4 +:+ "-" +:+ h5)
     +:+ rest) = Some rest.
Proof.
  intros H1 H2 H3 H4 H5 Hrest. unfold matchUuidPath.
  assert (Hdash : ∀ s, expectChar "-" ("-" +:+ s) = Some s) by done.
  assert (Hslash : ∀ s, expectChar "/" ("/" +:+ s) = Some s) by done.
  rewrite !append_assoc, Hslash. cbn [mbind option_bind].
  rewrite (takeHex_append 8 h1) by done. cbn [mbind option_bind].
  rewrite Hdash. cbn [mbind option_bind].
  rewrite (takeHex_append 4 h2) by done. cbn [mbind option_bind].
  rewrite Hdash. cbn [mbind option_bind].
  rewrite (takeHex_append 4 h3) by done. cbn [mbind option_bind].
  rewrite Hdash. cbn [mbind option_bind].
  rewrite (takeHex_append 4 h4) by done. cbn [mbind option_bind].
  rewrite Hdash. cbn [mbind option_bind].
  rewrite (takeHex_append 12 h5) by done. cbn [mbind option_bind].
  destruct rest as [|c rest]; [done|]. simpl in Hrest. by rewrite Hrest.
Qed.





(** X29. The agent id is stripped from a proxied URL: a request that is not
    a chat-completions POST and whose URL is the MiniMax prefix, a slash, a
    UUID (8-4-4-4-12 hexadecimal digits in either case) and a path that is
    empty or starts with a slash and has no line break, is proxied under
    the prefix followed by that path. *)
Theorem preHandler_strips_agent_id (PROXY_API_PREFIX method : string)
    (h1 h2 h3 h4 h5 rest : string) :
  let API_PREFIX := PROXY_API_PREFIX +:+ "/minimax" in
  let url :=
    API_PREFIX +:+
    ("/" +:+ (h1 +:+ "-" +:+ h2 +:+ "-" +:+ h3 +:+ "-" +:+ h4 +:+ "-" +:+ h5)
     +:+ rest) in
  hexString 8 h1 = true → hexString 4 h2 = true → hexString 4 h3 = true →
  hexString 4 h4 = true → hexString 12 h5 = true →
  pathAfterUuid rest = true →
  method ≠ "POST" ∨ includes url "/chat/completions" = false →
  preHandler PROXY_API_PREFIX method url = ProxyTo (API_PREFIX +:+ rest).
Proof.
  intros API_PREFIX url H1 H2 H3 H4 H5 Hrest Hnot. unfold preHandler.
  fold API_PREFIX.
  assert (Hskip : String.eqb method "POST" &&
                  includes url "/chat/completions" = false).
  { destruct Hnot as [Hm|Hi].
    - apply String.eqb_neq in Hm. by rewrite Hm.
    - rewrite Hi. apply andb_false_r. }
  rewrite Hskip. unfold url. rewrite removeFirst_prefix.
  by rewrite matchUuidPath_uuid.
Qed.

Lemma preHandler_strips_agent_id_witness :
  preHandler "/v1" "GET"
    ("/v1/minimax/123e4567-e89b-12d3-A456-426614174000/models") =
  ProxyTo "/v1/minimax/models".
Proof.
  apply (preHandler_strips_agent_id "/v1" "GET" "123e4567" "e89b" "12d3"
           "A456" "426614174000" "/models");
    try reflexivity.
  left. discriminate.
Defined.
